(** * GA4 page-view synchronisation: a shallow embedding of
      [functions/ga4-sync/main.py] and the properties of its
      reconciliation pipeline.

    Python values are modelled as follows.
    - [str] is a list of Unicode code points ([N]); [py "..."] turns a
      literal into one.
    - [int] is [Z]; [float] is IEEE-754 binary64, given by the Standard
      Library's [spec_float] with [prec = 53] and [emax = 1024].
    - A [dict] whose iteration order is observed is an association list in
      insertion order; the article mapping, which is only looked up and
      measured, is a [gmap].
    - Remote services (the two BigQuery clients, the clock) are calls
      answered by an arbitrary handler over an arbitrary world; every call is
      recorded with its reply in a trace. *)

From Stdlib Require Import ZArith NArith List Ascii String SpecFloat Lia.
From stdpp Require Import base decidable option list numbers gmap.

Local Open Scope Z_scope.

(** ** Python strings *)

Module PyStr.

Abbreviation char := N (only parsing).
Abbreviation str := (list N) (only parsing).

Fixpoint py (s : string) : str :=
  match s with
  | EmptyString => []
  | String a s' => N_of_ascii a :: py s'
  end.

Arguments py : simpl never.

(** [c in s] for a one-character [c]. *)
Definition has (c : char) (s : str) : bool := bool_decide (c ∈ s).

(** [s.lstrip(chars)], [s.rstrip(chars)], [s.strip(chars)]. *)
Fixpoint lstrip (chars s : str) : str :=
  match s with
  | [] => []
  | c :: s' => if has c chars then lstrip chars s' else s
  end.

Definition rstrip (chars s : str) : str :=
  reverse (lstrip chars (reverse s)).

Definition strip (chars s : str) : str := rstrip chars (lstrip chars s).

(** Code points for which [str.isspace()] holds: what [s.strip()]
    removes when called without an argument. *)
Definition isspace (c : char) : bool :=
  ((9 <=? c) && (c <=? 13) || (28 <=? c) && (c <=? 32)
   || (c =? 133) || (c =? 160) || (c =? 5760)
   || (8192 <=? c) && (c <=? 8202)
   || (c =? 8232) || (c =? 8233) || (c =? 8239) || (c =? 8287)
   || (c =? 12288))%N.

Fixpoint lstrip_ws (s : str) : str :=
  match s with
  | [] => []
  | c :: s' => if isspace c then lstrip_ws s' else s
  end.

Definition strip_ws (s : str) : str :=
  reverse (lstrip_ws (reverse (lstrip_ws s))).

(** [s.replace(c, "")] for a one-character [c]. *)
Definition remove_char (c : char) (s : str) : str :=
  filter (λ x, x ≠ c) s.

(** Index normalisation of slices and of [find]'s [start]. *)
Definition clip (len i : Z) : Z :=
  if i <? 0 then Z.max 0 (len + i) else Z.min i len.

Definition zlen {A} (s : list A) : Z := Z.of_nat (length s).

(** [s[lo:hi]], [s[:hi]], [s[lo:]], on strings and on lists. *)
Definition slice {A} (s : list A) (lo hi : Z) : list A :=
  let a := clip (zlen s) lo in
  let b := clip (zlen s) hi in
  take (Z.to_nat (b - a)) (drop (Z.to_nat a) s).

Definition slice_to {A} (s : list A) (hi : Z) : list A := slice s 0 hi.
Definition slice_from {A} (s : list A) (lo : Z) : list A := slice s lo (zlen s).

Fixpoint index_of (c : char) (s : str) : option nat :=
  match s with
  | [] => None
  | x :: s' => if decide (x = c) then Some 0%nat else S <$> index_of c s'
  end.

(** [s.find(c, start)] and [s.rfind(c)] for a one-character [c]. *)
Definition find (c : char) (s : str) (start : Z) : Z :=
  let a := Z.to_nat (clip (zlen s) start) in
  match index_of c (drop a s) with
  | Some k => Z.of_nat (a + k)
  | None => -1
  end.

Definition rfind (c : char) (s : str) : Z :=
  match index_of c (reverse s) with
  | Some k => zlen s - 1 - Z.of_nat k
  | None => -1
  end.

(** [s.split(c, 1)] when [c in s]: the parts around the first [c]. *)
Definition split_once (c : char) (s : str) : str * str :=
  let i := find c s 0 in (slice_to s i, slice_from s (i + 1)).

Fixpoint startswith (s p : str) {struct p} : bool :=
  match p, s with
  | [], _ => true
  | _ :: _, [] => false
  | a :: p', b :: s' => bool_decide (a = b) && startswith s' p'
  end.

Definition endswith (s p : str) : bool :=
  startswith (reverse s) (reverse p).

(** [sub in s] for a substring. *)
Fixpoint contains (sub s : str) : bool :=
  startswith s sub ||
  match s with
  | [] => false
  | _ :: s' => contains sub s'
  end.

(** [c.isascii() and c.isalpha()]. *)
Definition is_ascii_alpha (c : char) : bool :=
  ((65 <=? c) && (c <=? 90) || (97 <=? c) && (c <=? 122))%N.

(** [s.lower()], on the ASCII letters; it is applied to strings of
    [scheme_chars] only. *)
Definition lower (s : str) : str :=
  (λ c, if ((65 <=? c) && (c <=? 90))%N then (c + 32)%N else c) <$> s.

End PyStr.
Import PyStr.

(** A one-character literal. *)
Definition ch (s : string) : char :=
  match s with
  | String a _ => N_of_ascii a
  | EmptyString => 0%N
  end.
Arguments ch : simpl never.

(** ** [urllib.parse.urlparse]

    The standard library's parser (CPython 3.11, [Lib/urllib/parse.py]),
    called with the default [scheme = ''] and [allow_fragments = True].
    [None] stands for the [ValueError] it raises on a malformed netloc. *)

Module UrlLib.

Record SplitResult := mkSplit {
  s_scheme : str; s_netloc : str; s_path : str;
  s_query : str; s_fragment : str }.

Record ParseResult := mkParse {
  scheme : str; netloc : str; path : str;
  params : str; query : str; fragment : str }.

Definition uses_params : list str :=
  [py ""; py "ftp"; py "hdl"; py "prospero"; py "http"; py "imap";
   py "https"; py "shttp"; py "rtsp"; py "rtspu"; py "sip"; py "sips";
   py "mms"; py "sftp"; py "tel"].

Definition scheme_chars : str :=
  py "abcdefghijklmnopqrstuvwxyzABCDEFGHIJKLMNOPQRSTUVWXYZ0123456789+-.".

(** [chr(i) for i in range(0, 0x20 + 1)]. *)
Definition WHATWG_C0_CONTROL_OR_SPACE : str := N.of_nat <$> seq 0 33.

Definition UNSAFE_URL_BYTES_TO_REMOVE : str := [9; 13; 10]%N.

Definition splitparams (url : str) : str * str :=
  if has (ch "/") url then
    let i := find (ch ";") url (rfind (ch "/") url) in
    if i <? 0 then (url, [])
    else (slice_to url i, slice_from url (i + 1))
  else
    let i := find (ch ";") url 0 in
    (slice_to url i, slice_from url (i + 1)).

Definition splitnetloc (url : str) (start : Z) : str * str :=
  let delim :=
    foldl (λ delim c,
             let wdelim := find c url start in
             if 0 <=? wdelim then Z.min delim wdelim else delim)
          (zlen url) (py "/?#") in
  (slice url start delim, slice_from url delim).

Definition isascii (s : str) : bool := forallb (λ c, c <? 128)%N s.

Section Checks.
(** Two validity checks of the netloc are left to the caller of this
    model: [_check_bracketed_netloc] (an IPv6 or IPvFuture literal between
    brackets) and the NFKC test of [_checknetloc]. Each tells whether the
    check raises [ValueError]. *)
Variable bracketed_netloc_rejects : str → bool.
Variable nfkc_rejects : str → bool.

Definition checknetloc_raises (netloc : str) : bool :=
  if bool_decide (netloc = []) || isascii netloc then false
  else nfkc_rejects netloc.

(** The scheme step: [i = url.find(':')] and the test of [url[:i]]. *)
Definition split_scheme (url : str) : str * str :=
  let i := find (ch ":") url 0 in
  if (0 <? i)
     && match url with c :: _ => is_ascii_alpha c | [] => false end
     && forallb (λ c, has c scheme_chars) (slice_to url i)
  then (lower (slice_to url i), slice_from url (i + 1))
  else ([], url).

(** The netloc step, with its bracket checks. *)
Definition split_netloc (url : str) : option (str * str) :=
  if bool_decide (slice_to url 2 = py "//") then
    let '(netloc, url) := splitnetloc url 2 in
    if has (ch "[") netloc && negb (has (ch "]") netloc)
       || has (ch "]") netloc && negb (has (ch "[") netloc)
    then None
    else if has (ch "[") netloc && has (ch "]") netloc
            && bracketed_netloc_rejects netloc
    then None
    else Some (netloc, url)
  else Some ([], url).

(** [if c in url: url, rest = url.split(c, 1)]. *)
Definition cut (c : char) (url : str) : str * str :=
  if has c url then split_once c url else (url, []).

Definition urlsplit (url : str) : option SplitResult :=
  let url := lstrip WHATWG_C0_CONTROL_OR_SPACE url in
  let url := foldl (λ u b, remove_char b u) url UNSAFE_URL_BYTES_TO_REMOVE in
  let '(scheme, url) := split_scheme url in
  match split_netloc url with
  | None => None
  | Some (netloc, url) =>
      let '(url, fragment) := cut (ch "#") url in
      let '(url, query) := cut (ch "?") url in
      if checknetloc_raises netloc then None
      else Some (mkSplit scheme netloc url query fragment)
  end.

(** The parameter step of [urlparse]. *)
Definition split_params (scheme url : str) : str * str :=
  if bool_decide (scheme ∈ uses_params) && has (ch ";") url
  then splitparams url else (url, []).

Definition urlparse (url : str) : option ParseResult :=
  match urlsplit url with
  | None => None
  | Some (mkSplit scheme netloc url query fragment) =>
      let '(url, params) := split_params scheme url in
      Some (mkParse scheme netloc url params query fragment)
  end.
End Checks.

End UrlLib.
Import UrlLib.

(** ** [GA4DataSync.normalize_ga4_url] *)

Section Normalizer.
Variable bracketed_netloc_rejects : str → bool.
Variable nfkc_rejects : str → bool.

(** The [except Exception] clause turns a [ValueError] of [urlparse]
    into [None]; nothing else in the body can raise. *)
Definition normalize_ga4_url (url : str) : option str :=
  if bool_decide (url = []) then None
  else
    match urlparse bracketed_netloc_rejects nfkc_rejects url with
    | None => None
    | Some parsed_url =>
        if bool_decide (netloc parsed_url ≠ py "www.foresight.jp") then None
        else
          let path := strip (py "/") (path parsed_url) in
          if negb (contains (py "/column/") path) then None
          else
            let path :=
              if negb (bool_decide (path = [])) && negb (endswith path (py "/"))
              then path ++ py "/" else path in
            Some path
    end.
End Normalizer.

(** ** Python numbers

    [float] is binary64. [int / int] is CPython's true division: the
    exact quotient rounded once to nearest-even, [ZeroDivisionError] on a
    zero divisor and [OverflowError] when the rounded quotient is not
    finite. *)

Abbreviation float := spec_float (only parsing).

Definition prec : Z := 53.
Definition emax : Z := 1024.

(** The exceptions of the pipeline. A [TimeoutError] carries the place it
    was raised at, for its message; [RemoteError] is whatever a client
    library raises. *)
Inductive exn :=
| TimeoutError (site : str)
| OverflowError
| ZeroDivisionError
| IndexError
| RemoteError (msg : str).

Inductive result (A : Type) :=
| Ok (a : A)
| Raise (e : exn).
Arguments Ok {A} a.
Arguments Raise {A} e.

(** An [int] as an exact operand of the division: no rounding yet. *)
Definition exact_operand (z : Z) : float :=
  match z with
  | Z0 => S754_zero false
  | Zpos p => S754_finite false p 0
  | Zneg p => S754_finite true p 0
  end.

Definition int_truediv (a b : Z) : result float :=
  if b =? 0 then Raise ZeroDivisionError
  else
    match SFdiv prec emax (exact_operand a) (exact_operand b) with
    | S754_infinity _ => Raise OverflowError
    | q => Ok q
    end.

(** A number that is an [int] on one path and a [float] on another. *)
Inductive num :=
| PyInt (z : Z)
| PyFloat (f : float).

(** [int] to [float], as the mixed subtraction [float - int] does it. *)
Definition to_float (x : num) : float :=
  match x with
  | PyInt z => binary_normalize prec emax z 0 false
  | PyFloat f => f
  end.

Definition float_sub (x y : float) : float := SFsub prec emax x y.
Definition float_abs (x : float) : float := SFabs x.
Definition float_gt (x y : float) : bool := SFltb y x.

(** The literal [0.1]: the double nearest to one tenth. *)
Definition float_0_1 : float := S754_finite false 7205759403792794 (-56).

(** ** Rows and records of the pipeline *)

(** One row of the GA4 aggregate query, as the fetcher stores it. *)
Record GA4Row := mkGA4Row {
  page_location : str;
  pageviews : Z;
  organic_sessions : Z;
  engaged_sessions : Z;
  total_engagement_time_msec : Z;
  total_sessions : Z }.

(** One row of the courses-articles join. *)
Record MappingRow := mkMappingRow {
  row_course_slug : str;
  row_article_id : str;
  row_article_link : str;
  row_article_title : str;
  row_current_pageviews : Z;
  row_current_organic_sessions : Z;
  row_current_engaged_sessions : Z;
  row_current_avg_engagement_time : float }.

(** A value of the mapping dict. *)
Record ArticleInfo := mkArticleInfo {
  article_id : str;
  course_slug : str;
  article_link : str;
  article_title : str;
  current_pageviews : Z;
  current_organic_sessions : Z;
  current_engaged_sessions : Z;
  current_avg_engagement_time : float }.

(** A value of [path_metrics]. *)
Record Metrics := mkMetrics {
  m_pageviews : Z;
  m_organic_sessions : Z;
  m_engaged_sessions : Z;
  m_total_engagement_time_msec : Z;
  m_total_sessions : Z }.

(** An element of [pageviews_updates]. *)
Record Update := mkUpdate {
  u_article_id : str;
  u_pageviews : Z;
  u_organic_sessions : Z;
  u_engaged_sessions : Z;
  u_avg_engagement_time : num;
  u_course_slug : str;
  u_article_title : str }.

(** ** The mapping loader: one pass of its row loop
    ([get_courses_articles_mapping_optimized], lines 442-462) *)

Definition normalized_link (link : str) : str :=
  let article_link := strip_ws link in
  if negb (endswith article_link (py "/")) then article_link ++ py "/"
  else article_link.

Definition pattern_of (row : MappingRow) : str :=
  row_course_slug row ++ py "/column/" ++ normalized_link (row_article_link row).

Definition info_of (row : MappingRow) : ArticleInfo :=
  {| article_id := row_article_id row;
     course_slug := row_course_slug row;
     article_link := normalized_link (row_article_link row);
     article_title := row_article_title row;
     current_pageviews := row_current_pageviews row;
     current_organic_sessions := row_current_organic_sessions row;
     current_engaged_sessions := row_current_engaged_sessions row;
     current_avg_engagement_time := row_current_avg_engagement_time row |}.

Definition build_mapping (rows : list MappingRow) : gmap str ArticleInfo :=
  foldl (λ mapping row, <[pattern_of row := info_of row]> mapping) ∅ rows.

(** ** Dicts in insertion order, [range] with a step, list batches *)

Fixpoint dict_get {V} (d : list (str * V)) (k : str) : option V :=
  match d with
  | [] => None
  | (k', v) :: d' => if decide (k' = k) then Some v else dict_get d' k
  end.

(** [d[k] = v]: in place when [k] is a key already, at the end otherwise. *)
Fixpoint dict_set {V} (d : list (str * V)) (k : str) (v : V) : list (str * V) :=
  match d with
  | [] => [(k, v)]
  | (k', v') :: d' =>
      if decide (k' = k) then (k, v) :: d' else (k', v') :: dict_set d' k v
  end.

(** [range(0, stop, step)] for a positive [step]. *)
Definition range_step (stop step : nat) : list nat :=
  (λ k, k * step)%nat <$> seq 0 ((stop + step - 1) / step)%nat.

(** [l[i:i+batch_size] for i in range(0, len(l), batch_size)]. *)
Definition batches {A} (batch_size : nat) (l : list A) : list (list A) :=
  (λ i, take batch_size (drop i l)) <$> range_step (length l) batch_size.

(** ** The reconciler ([match_urls_and_aggregate_optimized], after its
    entry check) *)

Section Reconciler.
Variable bracketed_netloc_rejects : str → bool.
Variable nfkc_rejects : str → bool.

Definition zero_metrics : Metrics := mkMetrics 0 0 0 0 0.

Definition add_item (m : Metrics) (ga4_item : GA4Row) : Metrics :=
  {| m_pageviews := m_pageviews m + pageviews ga4_item;
     m_organic_sessions := m_organic_sessions m + organic_sessions ga4_item;
     m_engaged_sessions := m_engaged_sessions m + engaged_sessions ga4_item;
     m_total_engagement_time_msec :=
       m_total_engagement_time_msec m + total_engagement_time_msec ga4_item;
     m_total_sessions := m_total_sessions m + total_sessions ga4_item |}.

(** The body of the inner loop (lines 540-557). A missing key is first
    set to zeros at the end of the dict, then every counter is increased
    in place. *)
Definition aggregate_item (path_metrics : list (str * Metrics))
    (ga4_item : GA4Row) : list (str * Metrics) :=
  match normalize_ga4_url bracketed_netloc_rejects nfkc_rejects
          (page_location ga4_item) with
  | Some normalized_path =>
      if bool_decide (normalized_path = []) then path_metrics
      else
        let m := default zero_metrics (dict_get path_metrics normalized_path) in
        dict_set path_metrics normalized_path (add_item m ga4_item)
  | None => path_metrics
  end.

Definition aggregate_paths (ga4_data : list GA4Row) : list (str * Metrics) :=
  foldl (λ path_metrics batch, foldl aggregate_item path_metrics batch)
        [] (batches 1000 ga4_data).

Definition avg_engagement_time_of (metrics : Metrics) : result num :=
  if 0 <? m_total_sessions metrics then
    match int_truediv (m_total_engagement_time_msec metrics)
                      (m_total_sessions metrics * 1000) with
    | Ok q => Ok (PyFloat q)
    | Raise e => Raise e
    end
  else Ok (PyInt 0).

(** The test of line 585. *)
Definition differs (article_info : ArticleInfo) (metrics : Metrics)
    (avg_engagement_time : num) : bool :=
  let pageviews_diff :=
    Z.abs (current_pageviews article_info - m_pageviews metrics) in
  let organic_sessions_diff :=
    Z.abs (current_organic_sessions article_info - m_organic_sessions metrics) in
  let engaged_sessions_diff :=
    Z.abs (current_engaged_sessions article_info - m_engaged_sessions metrics) in
  let avg_engagement_time_diff :=
    float_abs (float_sub (current_avg_engagement_time article_info)
                         (to_float avg_engagement_time)) in
  (0 <? pageviews_diff) || (0 <? organic_sessions_diff)
  || (0 <? engaged_sessions_diff)
  || float_gt avg_engagement_time_diff float_0_1.

Definition title_excerpt (title : str) : str :=
  if 50 <? zlen title then slice_to title 50 ++ py "..." else title.

Definition update_of (article_info : ArticleInfo) (metrics : Metrics)
    (avg_engagement_time : num) : Update :=
  {| u_article_id := article_id article_info;
     u_pageviews := m_pageviews metrics;
     u_organic_sessions := m_organic_sessions metrics;
     u_engaged_sessions := m_engaged_sessions metrics;
     u_avg_engagement_time := avg_engagement_time;
     u_course_slug := course_slug article_info;
     u_article_title := title_excerpt (article_title article_info) |}.

(** The body of the matching loop (lines 569-596). *)
Definition match_path (url_patterns : gmap str ArticleInfo)
    (pageviews_updates : list Update) (item : str * Metrics)
    : result (list Update) :=
  let '(normalized_path, metrics) := item in
  match url_patterns !! normalized_path with
  | Some article_info =>
      match avg_engagement_time_of metrics with
      | Ok avg_engagement_time =>
          if differs article_info metrics avg_engagement_time
          then Ok (pageviews_updates
                   ++ [update_of article_info metrics avg_engagement_time])
          else Ok pageviews_updates
      | Raise e => Raise e
      end
  | None => Ok pageviews_updates
  end.

Definition match_paths (url_patterns : gmap str ArticleInfo)
    (path_metrics : list (str * Metrics)) : result (list Update) :=
  foldl (λ acc item,
           match acc with
           | Ok pageviews_updates => match_path url_patterns pageviews_updates item
           | Raise e => Raise e
           end)
        (Ok []) path_metrics.

Definition reconcile (ga4_data : list GA4Row)
    (url_patterns : gmap str ArticleInfo) : result (list Update) :=
  match_paths url_patterns (aggregate_paths ga4_data).

End Reconciler.

(** ** The rules the reconciler is measured against *)

(** The materiality rule in the words of the specification: a counter
    differs by a non-zero amount, or the average engagement time by more
    than 0.1 seconds. *)
Definition material (article_info : ArticleInfo) (metrics : Metrics)
    (avg_engagement_time : num) : Prop :=
  Z.abs (current_pageviews article_info - m_pageviews metrics) ≠ 0
  ∨ Z.abs (current_organic_sessions article_info - m_organic_sessions metrics) ≠ 0
  ∨ Z.abs (current_engaged_sessions article_info - m_engaged_sessions metrics) ≠ 0
  ∨ float_gt (float_abs (float_sub (current_avg_engagement_time article_info)
                                   (to_float avg_engagement_time)))
             float_0_1 = true.

(** What one aggregated path contributes to the list of updates: nothing
    when it matches no entry; otherwise the update of its entry exactly
    when the change is material. *)
Definition emission_rule (url_patterns : gmap str ArticleInfo)
    (item : str * Metrics) (emitted : list Update) : Prop :=
  match url_patterns !! fst item with
  | None => emitted = []
  | Some article_info =>
      ∃ avg, avg_engagement_time_of (snd item) = Ok avg
             ∧ ((material article_info (snd item) avg
                 ∧ emitted = [update_of article_info (snd item) avg])
                ∨ (¬ material article_info (snd item) avg ∧ emitted = []))
  end.

(** No two patterns of the mapping belong to one article. *)
Definition one_pattern_per_article (url_patterns : gmap str ArticleInfo) : Prop :=
  ∀ k1 k2 info1 info2,
    url_patterns !! k1 = Some info1 → url_patterns !! k2 = Some info2 →
    article_id info1 = article_id info2 → k1 = k2.

(** The snapshot [after] is the snapshot [before] brought up to date with
    [pageviews_updates]: same patterns and articles; an article named by an
    update carries the counters of that update, and an average engagement
    time that the test of line 585 does not tell from the one written;
    every other entry is unchanged. *)
Definition brought_up_to_date (pageviews_updates : list Update)
    (before after : gmap str ArticleInfo) : Prop :=
  ∀ k, match before !! k, after !! k with
       | None, None => True
       | Some info, Some info' =>
           article_id info' = article_id info
           ∧ (∀ u, u ∈ pageviews_updates →
                   u_article_id u = article_id info →
                   current_pageviews info' = u_pageviews u
                   ∧ current_organic_sessions info' = u_organic_sessions u
                   ∧ current_engaged_sessions info' = u_engaged_sessions u
                   ∧ float_gt (float_abs
                                 (float_sub (current_avg_engagement_time info')
                                            (to_float (u_avg_engagement_time u))))
                              float_0_1 = false)
           ∧ ((∀ u, u ∈ pageviews_updates →
                    u_article_id u ≠ article_id info) → info' = info)
       | _, _ => False
       end.

(** ** Remote services and the clock

    Everything outside the process is a [Call]: its reply comes from a
    handler over a world the model knows nothing about. A reply of type
    [result _] is the value returned or the exception raised by the
    client library. Submitting a statement to the target client and
    waiting for its result are one call; the GA4 client's job is submitted,
    polled, cancelled and read with separate calls. *)

Definition job := nat.

Inductive GA4Query :=
| StandardQuery (tables : list str) (limit : option Z)
| FallbackQuery (tables : list str) (limit : option Z)
| MinimalQuery (table_suffix : str) (limit : option Z).

(** Of the log lines, those of the two update functions that report a
    count are part of the model. *)
Inductive LogLine :=
| NoUpdateData
| BatchUpdated (total_updated total : Z)
| BatchError (batch_no : Z)
| AllUpdated (total_updated : Z)
| IndividualTimeout (updated_count : Z)
| RowError (id : str)
| IndividualUpdated (updated_count : Z).

Inductive Call : Type → Type :=
| Now : Call Z
| GetTable (table_suffix : str) : Call (result unit)
| SubmitQuery (q : GA4Query) (maximum_bytes_billed : Z) : Call (result job)
| JobState (j : job) : Call bool
| Sleep (seconds : Z) : Call unit
| JobCancel (j : job) : Call (result unit)
| JobResult (j : job) (timeout : Z) : Call (result (list GA4Row))
| CountRows (table : str) (timeout : Z) : Call (result (list Z))
| BasicJoin (timeout : Z) : Call (result nat)
| MappingJoin (limit timeout : Z) : Call (result (list MappingRow))
| DebugJoin (timeout : Z) : Call (result unit)
| BulkUpdate (batch : list Update) (timeout : Z) : Call (result unit)
| RowUpdate (update : Update) (timeout : Z) : Call (result unit)
| Log (line : LogLine) : Call unit.

Inductive Event :=
| Ev {R : Type} (c : Call R) (r : R).

Record State (World : Type) := mkState {
  world : World;
  trace : list Event }.
Arguments mkState {World} world trace.
Arguments world {World} s.
Arguments trace {World} s.

(** Computations that call out, may raise, and keep what they did. *)
Definition M (World A : Type) : Type := State World → result A * State World.

Definition ret {World A} (a : A) : M World A := λ st, (Ok a, st).

Definition bind {World A B} (m : M World A) (f : A → M World B) : M World B :=
  λ st, match m st with
        | (Ok a, st') => f a st'
        | (Raise e, st') => (Raise e, st')
        end.

Definition raise {World A} (e : exn) : M World A := λ st, (Raise e, st).

(** [try: m except Exception as e: h e]. *)
Definition try_except {World A} (m : M World A) (h : exn → M World A)
    : M World A :=
  λ st, match m st with
        | (Ok a, st') => (Ok a, st')
        | (Raise e, st') => h e st'
        end.

Definition lift {World A} (r : result A) : M World A :=
  match r with
  | Ok a => ret a
  | Raise e => raise e
  end.

Notation "x <- m ;; k" := (bind m (λ x, k))
  (at level 200, m at level 99, k at level 200, only parsing).
Notation "m ;;; k" := (bind m (λ _, k))
  (at level 200, k at level 200, only parsing).

(** A left fold whose step may call out or raise: a [for] loop. *)
Fixpoint for_each {World A B} (f : B → A → M World B) (l : list A) (acc : B)
    : M World B :=
  match l with
  | [] => ret acc
  | x :: l' => acc' <- f acc x ;; for_each f l' acc'
  end.

(** ** The pipeline, [class GA4DataSync] *)

Definition TIMEOUT_SECONDS : Z := 480.
Definition BULK_INSERT_BATCH_SIZE : nat := 500.

Record GA4DataSync := mkSelf { start_time : Z }.

(** The dicts returned by [sync_pageviews_optimized], one constructor for
    each [status]; the fields of a constructor are the other keys of its
    dict. Times are in microseconds. *)
Inductive SyncResult :=
| Failed (error : str)
| Success (total_ga4_records mapped_articles updated_records : Z)
          (execution_time : Z)
| TimedOut (error : exn) (execution_time : Z)
| Errored (error : exn) (execution_time : Z).

Definition status (r : SyncResult) : str :=
  match r with
  | Failed _ => py "failed"
  | Success _ _ _ _ => py "success"
  | TimedOut _ _ => py "timeout"
  | Errored _ _ => py "error"
  end.

(** [r.get('mapped_articles')], [r.get('updated_records')]. *)
Definition get_mapped_articles (r : SyncResult) : option Z :=
  match r with
  | Success _ mapped_articles _ _ => Some mapped_articles
  | _ => None
  end.

Definition get_updated_records (r : SyncResult) : option Z :=
  match r with
  | Success _ _ updated_records _ => Some updated_records
  | _ => None
  end.

Section Pipeline.
Context {World : Type}.
Variable handle : ∀ R, Call R → World → R * World.
(** [strftime('%Y%m%d')] of a point in time, given in microseconds. *)
Variable strftime_Ymd : Z → str.
(** The configuration read from the environment. *)
Variable GA4_DAYS_BACK : Z.
Variable GA4_LIMIT : option Z.
Variable bracketed_netloc_rejects : str → bool.
Variable nfkc_rejects : str → bool.

Definition call {R} (c : Call R) : M World R :=
  λ st, let '(r, w) := handle R c (world st) in
        (Ok r, mkState w (trace st ++ [Ev c r])).

(** [elapsed > TIMEOUT_SECONDS], on the microseconds of the timedelta. *)
Definition check_timeout (self : GA4DataSync) : M World bool :=
  now <- call Now ;;
  ret (TIMEOUT_SECONDS * 1000000 <? now - start_time self).

(** Each probe has its own handler, so nothing reaches the outer
    [except] of the function. *)
Definition get_available_ga4_tables (self : GA4DataSync) (days_back : Z)
    : M World (list str) :=
  end_date <- call Now ;;
  for_each
    (λ available_tables i,
       let table_suffix := strftime_Ymd (end_date - i * 86400000000) in
       r <- call (GetTable table_suffix) ;;
       match r with
       | Ok _ => ret (available_tables ++ [table_suffix])
       | Raise _ => ret available_tables
       end)
    (Z.of_nat <$> seq 0 (Z.to_nat days_back)) [].

(** [while query_job.state != 'DONE'], with [sleeps_left] sleeps still
    allowed before [timeout_count] exceeds its bound. *)
Fixpoint wait_for_job (j : job) (sleeps_left : nat) : M World unit :=
  done <- call (JobState j) ;;
  if done then ret tt
  else
    match sleeps_left with
    | O => r <- call (JobCancel j) ;;
           lift r ;;;
           raise (TimeoutError (py "query"))
    | S n => call (Sleep 6) ;;; wait_for_job j n
    end.

Definition get_ga4_pageviews_minimal (self : GA4DataSync)
    (table_suffix : option str) : M World (list GA4Row) :=
  match table_suffix with
  | None | Some [] => ret []
  | Some table_suffix =>
      let minimal_limit := match GA4_LIMIT with None => 500 | Some l => l end in
      try_except
        (r <- call (SubmitQuery (MinimalQuery table_suffix (Some minimal_limit))
                               (500 * 10 ^ 6)) ;;
         query_job <- lift r ;;
         r <- call (JobResult query_job 45) ;;
         lift r)
        (λ _, ret [])
  end.

Definition get_ga4_pageviews_multi_table_fallback (self : GA4DataSync)
    (available_tables : list str) : M World (list GA4Row) :=
  if bool_decide (available_tables = []) then ret []
  else
    let tables_to_use := slice_to available_tables (Z.max 3 GA4_DAYS_BACK) in
    let fallback_limit := match GA4_LIMIT with None => 2000 | Some l => l end in
    try_except
      (r <- call (SubmitQuery (FallbackQuery tables_to_use (Some fallback_limit))
                             (1 * 10 ^ 9)) ;;
       query_job <- lift r ;;
       wait_for_job query_job 9 ;;;
       r <- call (JobResult query_job 30) ;;
       lift r)
      (λ _, get_ga4_pageviews_minimal self (head available_tables)).

Definition get_ga4_pageviews_optimized (self : GA4DataSync)
    (days_back : option Z) : M World (list GA4Row) :=
  let days_back := default GA4_DAYS_BACK days_back in
  timed_out <- check_timeout self ;;
  if timed_out then raise (TimeoutError (py "ga4"))
  else
    available_tables <- get_available_ga4_tables self (days_back + 2) ;;
    if bool_decide (available_tables = []) then ret []
    else
      let tables_to_use := slice_to available_tables days_back in
      if bool_decide (tables_to_use = []) then ret []
      else
        try_except
          (r <- call (SubmitQuery (StandardQuery tables_to_use GA4_LIMIT)
                                 (2 * 10 ^ 9)) ;;
           query_job <- lift r ;;
           wait_for_job query_job 11 ;;;
           r <- call (JobResult query_job 30) ;;
           lift r)
          (λ _, get_ga4_pageviews_multi_table_fallback self
                  (slice_to available_tables GA4_DAYS_BACK)).

(** [list(rows)[0]]. *)
Definition first_row {A} (rows : list A) : M World A :=
  match rows with
  | x :: _ => ret x
  | [] => raise IndexError
  end.

Definition get_courses_articles_mapping_optimized (self : GA4DataSync)
    : M World (gmap str ArticleInfo) :=
  timed_out <- check_timeout self ;;
  if timed_out then raise (TimeoutError (py "mapping"))
  else
    no_data <-
      try_except
        (r <- call (CountRows (py "courses") 20) ;;
         courses_result <- lift r ;;
         courses_count <- first_row courses_result ;;
         r <- call (CountRows (py "articles") 20) ;;
         articles_result <- lift r ;;
         articles_count <- first_row articles_result ;;
         ret (bool_decide (courses_count = 0 ∨ articles_count = 0)))
        (λ _, ret true) ;;
    if no_data then ret ∅
    else
      try_except
        (r <- call (BasicJoin 30) ;;
         basic_data <- lift r ;;
         if bool_decide (basic_data = 0%nat) then ret ∅
         else
           r <- call (MappingJoin 10000 45) ;;
           results <- lift r ;;
           let mapping := build_mapping results in
           (if bool_decide (size mapping = 0%nat)
            then r <- call (DebugJoin 30) ;; lift r
            else ret tt) ;;;
           ret mapping)
        (λ _, ret ∅).

Definition match_urls_and_aggregate_optimized (self : GA4DataSync)
    (ga4_data : list GA4Row) (url_patterns : gmap str ArticleInfo)
    : M World (list Update) :=
  timed_out <- check_timeout self ;;
  if timed_out then raise (TimeoutError (py "matching"))
  else
    lift (reconcile bracketed_netloc_rejects nfkc_rejects ga4_data url_patterns).

(** The loop of [update_pageviews_individual_optimized]; it hands back
    [updated_count]. *)
Fixpoint individual_loop (self : GA4DataSync) (pageviews_updates : list Update)
    (updated_count : Z) : M World Z :=
  match pageviews_updates with
  | [] => ret updated_count
  | update :: rest =>
      timed_out <- check_timeout self ;;
      if timed_out then
        call (Log (IndividualTimeout updated_count)) ;;;
        ret updated_count
      else
        r <- call (RowUpdate update 20) ;;
        match r with
        | Ok _ => individual_loop self rest (updated_count + 1)
        | Raise _ =>
            call (Log (RowError (u_article_id update))) ;;;
            individual_loop self rest updated_count
        end
  end.

Definition update_pageviews_individual_optimized (self : GA4DataSync)
    (pageviews_updates : list Update) : M World unit :=
  updated_count <- individual_loop self pageviews_updates 0 ;;
  call (Log (IndividualUpdated updated_count)).

(** The body of the batch loop (lines 616-669); it hands back
    [total_updated]. [batch_no] is [i // batch_size + 1]. *)
Definition update_batch (self : GA4DataSync) (total : Z)
    (total_updated : Z) (numbered : Z * list Update) : M World Z :=
  let '(batch_no, batch) := numbered in
  try_except
    (r <- call (BulkUpdate batch 75) ;;
     lift r ;;;
     let total_updated := total_updated + zlen batch in
     call (Log (BatchUpdated total_updated total)) ;;;
     ret total_updated)
    (λ _,
       call (Log (BatchError batch_no)) ;;;
       update_pageviews_individual_optimized self batch ;;;
       ret (total_updated + zlen batch)).

Definition numbered_batches (pageviews_updates : list Update)
    : list (Z * list Update) :=
  let bs := batches BULK_INSERT_BATCH_SIZE pageviews_updates in
  zip ((λ k, Z.of_nat k + 1) <$> seq 0 (length bs)) bs.

Definition update_pageviews_batch_optimized (self : GA4DataSync)
    (pageviews_updates : list Update) : M World unit :=
  if bool_decide (pageviews_updates = []) then call (Log NoUpdateData)
  else
    timed_out <- check_timeout self ;;
    if timed_out then raise (TimeoutError (py "bulk update"))
    else
      total_updated <-
        for_each (update_batch self (zlen pageviews_updates))
                 (numbered_batches pageviews_updates) 0 ;;
      call (Log (AllUpdated total_updated)).

Definition sync_pageviews_optimized (self : GA4DataSync) : M World SyncResult :=
  try_except
    (mapping <- get_courses_articles_mapping_optimized self ;;
     if bool_decide (mapping = ∅) then ret (Failed (py "No mapping data"))
     else
       ga4_data <- get_ga4_pageviews_optimized self (Some GA4_DAYS_BACK) ;;
       if bool_decide (ga4_data = []) then ret (Failed (py "No GA4 data"))
       else
         pageviews_updates <-
           match_urls_and_aggregate_optimized self ga4_data mapping ;;
         (if bool_decide (pageviews_updates = []) then ret tt
          else update_pageviews_batch_optimized self pageviews_updates) ;;;
         now <- call Now ;;
         ret (Success (zlen ga4_data) (Z.of_nat (size mapping))
                      (zlen pageviews_updates) (now - start_time self)))
    (λ e,
       now <- call Now ;;
       match e with
       | TimeoutError _ => ret (TimedOut e (now - start_time self))
       | _ => ret (Errored e (now - start_time self))
       end).

End Pipeline.

(** ** Reading a trace *)

Definition is_update_statement (e : Event) : bool :=
  match e with
  | Ev (BulkUpdate _ _) _ | Ev (RowUpdate _ _) _ => true
  | _ => false
  end.

(** The calls of the metrics fetcher: everything sent to the GA4 client,
    and the sleeps of its polling loops. *)
Definition is_fetcher_call (e : Event) : bool :=
  match e with
  | Ev (GetTable _) _ | Ev (SubmitQuery _ _) _ | Ev (JobState _) _
  | Ev (JobCancel _) _ | Ev (JobResult _ _) _ | Ev (Sleep _) _ => true
  | _ => false
  end.

Definition update_rows (e : Event) : list Update :=
  match e with
  | Ev (RowUpdate update _) _ => [update]
  | _ => []
  end.

(** The per-row statements of a trace, in the order sent. *)
Definition rows_sent (evs : list Event) : list Update :=
  concat (update_rows <$> evs).

Definition is_individual_timeout (e : Event) : bool :=
  match e with
  | Ev (Log (IndividualTimeout _)) _ => true
  | _ => false
  end.

Definition fallback_tables (e : Event) : option (list str) :=
  match e with
  | Ev (SubmitQuery (FallbackQuery tables _) _) _ => Some tables
  | _ => None
  end.

(** The per-row statements that succeeded, and the totals reported on
    the last line of the batch dispatcher. *)
Definition rows_applied (evs : list Event) : list Update :=
  concat ((λ e, match e with
                | Ev (RowUpdate update _) (Ok _) => [update]
                | _ => []
                end) <$> evs).

Definition reported_totals (evs : list Event) : list Z :=
  concat ((λ e, match e with
                | Ev (Log (AllUpdated total_updated)) _ => [total_updated]
                | _ => []
                end) <$> evs).

(** Every run of [m] only appends to the trace, and what it appends
    satisfies [P]. *)
Definition emits {World A} (P : Event → Prop) (m : M World A) : Prop :=
  ∀ st, ∃ evs, trace (snd (m st)) = trace st ++ evs ∧ Forall P evs.

(** The entry check of a stage passes in [st]: the clock, read there, is
    within the budget. *)
Definition within_budget {World} (handle : ∀ R, Call R → World → R * World)
    (self : GA4DataSync) (st : State World) : Prop :=
  fst (handle Z Now (world st)) - start_time self ≤ TIMEOUT_SECONDS * 1000000.

(** ** A scripted world

    The world is the wall clock in microseconds; the replies are fixed by
    a [Behaviour] and every update statement takes [b_tick]. *)

Record Behaviour := mkBehaviour {
  b_tick : Z;
  b_table_exists : str → bool;
  b_submit : GA4Query → result job;
  b_job_done : bool;
  b_job_rows : result (list GA4Row);
  b_counts : str → result (list Z);
  b_basic : result nat;
  b_mapping_rows : result (list MappingRow);
  b_bulk : list Update → result unit;
  b_row : Update → result unit }.

Definition scripted (b : Behaviour) : ∀ R, Call R → Z → R * Z :=
  λ R c,
    match c in Call R return Z → R * Z with
    | Now => λ t, (t, t)
    | GetTable table_suffix =>
        λ t, (if b_table_exists b table_suffix then Ok tt
              else Raise (RemoteError (py "Not found")), t)
    | SubmitQuery q _ => λ t, (b_submit b q, t)
    | JobState _ => λ t, (b_job_done b, t)
    | Sleep seconds => λ t, (tt, t + seconds * 1000000)
    | JobCancel _ => λ t, (Ok tt, t)
    | JobResult _ _ => λ t, (b_job_rows b, t)
    | CountRows table _ => λ t, (b_counts b table, t)
    | BasicJoin _ => λ t, (b_basic b, t)
    | MappingJoin _ _ => λ t, (b_mapping_rows b, t)
    | DebugJoin _ => λ t, (Ok tt, t)
    | BulkUpdate batch _ => λ t, (b_bulk b batch, t + b_tick b)
    | RowUpdate update _ => λ t, (b_row b update, t + b_tick b)
    | Log _ => λ t, (tt, t)
    end.

Definition never : str → bool := λ _, false.

(** The scenario of the specification, on the host of the specification
    and on the content host. *)
Definition scenario_row (host : string) : GA4Row :=
  mkGA4Row (py "https://" ++ py host ++ py "/acct/column/intro/")
           120 40 30 900000 30.

Definition scenario_info : ArticleInfo :=
  mkArticleInfo (py "a1") (py "acct") (py "intro/") (py "Intro")
                100 0 0 (S754_zero false).

Definition scenario_mapping : gmap str ArticleInfo :=
  {[ py "acct/column/intro/" := scenario_info ]}.

Definition float_30 : float := S754_finite false 8444249301319680 (-48).
Definition float_10 : float := S754_finite false 5629499534213120 (-49).

Definition scenario_update : Update :=
  mkUpdate (py "a1") 120 40 30 (PyFloat float_30) (py "acct") (py "Intro").

Definition scenario_mapping_row : MappingRow :=
  mkMappingRow (py "acct") (py "a1") (py " intro") (py "Intro")
               100 0 0 (S754_zero false).

Definition query_link_row : MappingRow :=
  mkMappingRow (py "acct") (py "a2") (py "intro?ref=1#top") (py "Intro")
               0 0 0 (S754_zero false).

(** The scenario's entry after the update of the scenario was written. *)
Definition scenario_info_after : ArticleInfo :=
  mkArticleInfo (py "a1") (py "acct") (py "intro/") (py "Intro")
                120 40 30 float_30.

Definition scenario_mapping_after : gmap str ArticleInfo :=
  {[ py "acct/column/intro/" := scenario_info_after ]}.

(** A world where everything answers, in no time. *)
Definition calm : Behaviour :=
  {| b_tick := 0;
     b_table_exists := λ _, true;
     b_submit := λ _, Ok 0%nat;
     b_job_done := true;
     b_job_rows := Ok [scenario_row "www.foresight.jp"];
     b_counts := λ _, Ok [5];
     b_basic := Ok 1%nat;
     b_mapping_rows := Ok [scenario_mapping_row];
     b_bulk := λ _, Ok tt;
     b_row := λ _, Ok tt |}.

Definition self0 : GA4DataSync := mkSelf 0.
Definition state0 : State Z := mkState 0 [].

(** The reconciliation stage in the calm world. *)
Definition calm_match_urls (ga4_data : list GA4Row)
    (url_patterns : gmap str ArticleInfo) (st : State Z)
    : result (list Update) * State Z :=
  match_urls_and_aggregate_optimized (scripted calm) never never self0
    ga4_data url_patterns st.

(** A world whose [courses] table is empty, and one whose articles
    already carry the figures of the scenario. *)
Definition no_courses : Behaviour :=
  {| b_tick := 0;
     b_table_exists := λ _, true;
     b_submit := λ _, Ok 0%nat;
     b_job_done := true;
     b_job_rows := Ok [scenario_row "www.foresight.jp"];
     b_counts := λ table, if bool_decide (table = py "courses") then Ok [0]
                          else Ok [5];
     b_basic := Ok 1%nat;
     b_mapping_rows := Ok [scenario_mapping_row];
     b_bulk := λ _, Ok tt;
     b_row := λ _, Ok tt |}.

Definition settled_row : MappingRow :=
  mkMappingRow (py "acct") (py "a1") (py "intro/") (py "Intro")
               120 40 30 float_30.

Definition settled : Behaviour :=
  {| b_tick := 0;
     b_table_exists := λ _, true;
     b_submit := λ _, Ok 0%nat;
     b_job_done := true;
     b_job_rows := Ok [scenario_row "www.foresight.jp"];
     b_counts := λ _, Ok [5];
     b_basic := Ok 1%nat;
     b_mapping_rows := Ok [settled_row];
     b_bulk := λ _, Ok tt;
     b_row := λ _, Ok tt |}.

Definition day : Z → str := λ _, py "20250101".

Definition run_load (b : Behaviour) (st : State Z) :=
  get_courses_articles_mapping_optimized (scripted b) self0 st.

Definition run_fetch (b : Behaviour) (st : State Z) :=
  get_ga4_pageviews_optimized (scripted b) day 7 None self0 (Some 7) st.

Definition run_match_urls (b : Behaviour) (ga4_data : list GA4Row)
    (url_patterns : gmap str ArticleInfo) (st : State Z) :=
  match_urls_and_aggregate_optimized (scripted b) never never self0
    ga4_data url_patterns st.

Definition run_sync (b : Behaviour) (st : State Z) :=
  sync_pageviews_optimized (scripted b) day 7 None never never self0 st.

(** Three updates, the second of which the warehouse refuses; a world
    whose bulk statement fails on such a batch; and a world where, besides,
    every statement takes five minutes. *)
Definition update_for (id : string) : Update :=
  mkUpdate (py id) 1 1 1 (PyInt 0) (py "acct") (py id).

Definition three_updates : list Update :=
  [update_for "a1"; update_for "bad"; update_for "a3"].

Definition one_bad_row : Behaviour :=
  {| b_tick := 0;
     b_table_exists := λ _, true;
     b_submit := λ _, Ok 0%nat;
     b_job_done := true;
     b_job_rows := Ok [];
     b_counts := λ _, Ok [5];
     b_basic := Ok 1%nat;
     b_mapping_rows := Ok [];
     b_bulk := λ _, Raise (RemoteError (py "malformed row"));
     b_row := λ update, if bool_decide (u_article_id update = py "bad")
                        then Raise (RemoteError (py "malformed row"))
                        else Ok tt |}.

Definition slow : Behaviour :=
  {| b_tick := 300 * 1000000;
     b_table_exists := λ _, true;
     b_submit := λ _, Ok 0%nat;
     b_job_done := true;
     b_job_rows := Ok [];
     b_counts := λ _, Ok [5];
     b_basic := Ok 1%nat;
     b_mapping_rows := Ok [];
     b_bulk := λ _, Raise (RemoteError (py "malformed row"));
     b_row := λ update, if bool_decide (u_article_id update = py "bad")
                        then Raise (RemoteError (py "malformed row"))
                        else Ok tt |}.

Definition run_dispatch (b : Behaviour) (pageviews_updates : list Update) :=
  update_pageviews_batch_optimized (scripted b) self0 pageviews_updates state0.

(** ** What the aggregation is measured against *)

(** The raw rows whose URL normalises to [path], in the order fetched. *)
Definition rows_of_path (bracketed_netloc_rejects nfkc_rejects : str → bool)
    (path : str) (ga4_data : list GA4Row) : list GA4Row :=
  filter (λ row, normalize_ga4_url bracketed_netloc_rejects nfkc_rejects
                   (page_location row) = Some path) ga4_data.

Definition total (field : GA4Row → Z) (rows : list GA4Row) : Z :=
  foldr Z.add 0 (field <$> rows).

(** Counter by counter, the sums over a list of rows. *)
Definition sum_metrics (rows : list GA4Row) : Metrics :=
  {| m_pageviews := total pageviews rows;
     m_organic_sessions := total organic_sessions rows;
     m_engaged_sessions := total engaged_sessions rows;
     m_total_engagement_time_msec := total total_engagement_time_msec rows;
     m_total_sessions := total total_sessions rows |}.

(** The elements of a list in the order of their first occurrence. *)
Definition first_occurrences (l : list str) : list str :=
  reverse (remove_dups (reverse l)).

(** The normalised paths of the rows, one for each row that has one. *)
Definition normalized_paths (bracketed_netloc_rejects nfkc_rejects : str → bool)
    (ga4_data : list GA4Row) : list str :=
  omap (λ row, normalize_ga4_url bracketed_netloc_rejects nfkc_rejects
                 (page_location row)) ga4_data.

(** ** More of a trace: what was probed, queried, slept and sent *)

(** A table probe: the suffix asked for, and whether the table was found. *)
Definition probe (e : Event) : list (str * bool) :=
  match e with
  | Ev (GetTable table_suffix) (Ok _) => [(table_suffix, true)]
  | Ev (GetTable table_suffix) (Raise _) => [(table_suffix, false)]
  | _ => []
  end.

Definition probes (evs : list Event) : list (str * bool) :=
  concat (probe <$> evs).

(** The suffixes found by a list of probes, in the order probed. *)
Definition found (ps : list (str * bool)) : list str :=
  fst <$> filter (λ p, snd p = true) ps.

Definition query (e : Event) : list GA4Query :=
  match e with
  | Ev (SubmitQuery q _) _ => [q]
  | _ => []
  end.

(** The queries submitted to the GA4 client, in the order sent. *)
Definition queries (evs : list Event) : list GA4Query :=
  concat (query <$> evs).

Definition sleep_seconds (e : Event) : Z :=
  match e with
  | Ev (Sleep seconds) _ => seconds
  | _ => 0
  end.

(** The seconds spent in [time.sleep]. *)
Definition slept (evs : list Event) : Z :=
  foldr (λ e acc, sleep_seconds e + acc) 0 evs.


Definition bulk_batch (e : Event) : list (list Update) :=
  match e with
  | Ev (BulkUpdate batch _) _ => [batch]
  | _ => []
  end.

(** The batches of the bulk statements, in the order sent. *)
Definition bulk_batches (evs : list Event) : list (list Update) :=
  concat (bulk_batch <$> evs).


(** Every run of [m] only appends to the trace, and what it appends
    satisfies [Q]. *)
Definition traced {World A} (Q : list Event → Prop) (m : M World A) : Prop :=
  ∀ st, ∃ evs, trace (snd (m st)) = trace st ++ evs ∧ Q evs.

(** A stretch of trace without probe or query, sleeping at most
    [seconds]; and one without probe whose queries are a front of
    [expected]. *)
Definition quiet (seconds : Z) (evs : list Event) : Prop :=
  probes evs = [] ∧ queries evs = [] ∧ slept evs ≤ seconds.

Definition tiered (seconds : Z) (expected : list GA4Query) (evs : list Event)
    : Prop :=
  probes evs = [] ∧ slept evs ≤ seconds ∧ queries evs `prefix_of` expected.

(** The limits of the fallback and of the minimal query. *)
Definition fallback_limit_of (GA4_LIMIT : option Z) : Z :=
  match GA4_LIMIT with None => 2000 | Some l => l end.

Definition minimal_limit_of (GA4_LIMIT : option Z) : Z :=
  match GA4_LIMIT with None => 500 | Some l => l end.

(** The queries of the three tiers over [tables], in the order of the
    tiers. *)
Definition tiers (GA4_LIMIT : option Z) (tables : list str) : list GA4Query :=
  [StandardQuery tables GA4_LIMIT;
   FallbackQuery tables (Some (fallback_limit_of GA4_LIMIT));
   MinimalQuery (default [] (head tables)) (Some (minimal_limit_of GA4_LIMIT))].

(** ** The entry points: [GA4DataSync.__init__], [ga4_sync_handler],
    [ga4_sync_scheduler] *)

Definition SOURCE_PROJECT_ID : str := py "mcs-fs-pro".

(** The dicts returned by the HTTP handler, one constructor for each
    [statusCode]; [message] and [error] are the exception whose text the
    body carries. *)
Inductive Response :=
| Response200 (body : SyncResult)
| Response408 (message : exn)
| Response500 (error : exn).

Definition statusCode (r : Response) : Z :=
  match r with
  | Response200 _ => 200
  | Response408 _ => 408
  | Response500 _ => 500
  end.

Section EntryPoints.
Context {World : Type}.
Variable handle : ∀ R, Call R → World → R * World.
Variable strftime_Ymd : Z → str.
Variable GA4_DAYS_BACK : Z.
Variable GA4_LIMIT : option Z.
Variable bracketed_netloc_rejects : str → bool.
Variable nfkc_rejects : str → bool.
(** [os.environ.get('GCP_PROJECT', 'seo-optimize-464208')]. *)
Variable TARGET_PROJECT_ID : str.
(** [bigquery.Client(project=...)]: the constructor of the client
    library, which may call out and may raise. *)
Variable bigquery_Client : str → M World unit.

(** The two clients are what [Call]s are sent through; of the object
    built, the model keeps the start time. *)
Definition __init__ : M World GA4DataSync :=
  bigquery_Client SOURCE_PROJECT_ID ;;;
  bigquery_Client TARGET_PROJECT_ID ;;;
  start_time <- call handle Now ;;
  ret (mkSelf start_time).

(** The request is not looked at. *)
Definition ga4_sync_handler : M World Response :=
  try_except
    (sync_service <- __init__ ;;
     result <- sync_pageviews_optimized handle strftime_Ymd GA4_DAYS_BACK
                 GA4_LIMIT bracketed_netloc_rejects nfkc_rejects sync_service ;;
     ret (Response200 result))
    (λ e,
       match e with
       | TimeoutError _ => ret (Response408 e)
       | _ => ret (Response500 e)
       end).

Definition ga4_sync_scheduler : M World unit :=
  try_except
    (sync_service <- __init__ ;;
     result <- sync_pageviews_optimized handle strftime_Ymd GA4_DAYS_BACK
                 GA4_LIMIT bracketed_netloc_rejects nfkc_rejects sync_service ;;
     ret tt)
    (λ _, ret tt).

End EntryPoints.

(** ** More scripted worlds *)

(** A world whose GA4 client refuses every query, and one whose
    warehouse refuses every update statement. *)
Definition ga4_down : Behaviour :=
  {| b_tick := 0;
     b_table_exists := λ _, true;
     b_submit := λ _, Raise (RemoteError (py "Service unavailable"));
     b_job_done := true;
     b_job_rows := Ok [scenario_row "www.foresight.jp"];
     b_counts := λ _, Ok [5];
     b_basic := Ok 1%nat;
     b_mapping_rows := Ok [scenario_mapping_row];
     b_bulk := λ _, Ok tt;
     b_row := λ _, Ok tt |}.

Definition refusing : Behaviour :=
  {| b_tick := 0;
     b_table_exists := λ _, true;
     b_submit := λ _, Ok 0%nat;
     b_job_done := true;
     b_job_rows := Ok [scenario_row "www.foresight.jp"];
     b_counts := λ _, Ok [5];
     b_basic := Ok 1%nat;
     b_mapping_rows := Ok [scenario_mapping_row];
     b_bulk := λ _, Raise (RemoteError (py "Forbidden"));
     b_row := λ _, Raise (RemoteError (py "Forbidden")) |}.

(** * Properties *)

(** ** Facts about the string operations *)

Lemma has_true c s : has c s = true ↔ c ∈ s.
Proof. unfold has. apply bool_decide_eq_true. Qed.

Lemma has_false c s : has c s = false ↔ c ∉ s.
Proof. unfold has. apply bool_decide_eq_false. Qed.

Lemma lstrip_suffix chars s : ∃ l, s = l ++ lstrip chars s.
Proof.
  induction s as [|c s [l IH]]; simpl.
  - by exists [].
  - destruct (has c chars).
    + exists (c :: l). simpl. by f_equal.
    + by exists [].
Qed.

Lemma lstrip_head chars s c t : lstrip chars s = c :: t → c ∉ chars.
Proof.
  induction s as [|x s IH]; simpl; [done|].
  destruct (has x chars) eqn:E; [done|].
  intros [= -> ->]. by apply has_false.
Qed.

Lemma lstrip_id chars c s : c ∉ chars → lstrip chars (c :: s) = c :: s.
Proof. intros H. simpl. apply has_false in H. by rewrite H. Qed.

Lemma rstrip_prefix chars s : ∃ l, s = rstrip chars s ++ l.
Proof.
  unfold rstrip. destruct (lstrip_suffix chars (reverse s)) as [l E].
  exists (reverse l). rewrite <- reverse_app, <- E. by rewrite reverse_involutive.
Qed.

Lemma rstrip_last chars s t c : rstrip chars s = t ++ [c] → c ∉ chars.
Proof.
  unfold rstrip. intros E.
  apply (f_equal reverse) in E.
  rewrite reverse_involutive, reverse_app in E.
  change (reverse [c]) with [c] in E. simpl in E.
  exact (lstrip_head _ _ _ _ E).
Qed.

Lemma rstrip_id chars s c : c ∉ chars → rstrip chars (s ++ [c]) = s ++ [c].
Proof.
  intros H. unfold rstrip. rewrite reverse_app.
  change (reverse [c] ++ reverse s) with (c :: reverse s).
  rewrite lstrip_id by done.
  change (c :: reverse s) with (reverse [c] ++ reverse s).
  by rewrite <- reverse_app, reverse_involutive.
Qed.

(** What [strip] leaves neither starts nor ends with a stripped character. *)
Lemma strip_head chars s c t : strip chars s = c :: t → c ∉ chars.
Proof.
  unfold strip. intros E.
  destruct (rstrip_prefix chars (lstrip chars s)) as [l El].
  rewrite E in El. simpl in El.
  destruct (lstrip chars s) as [|x r] eqn:Es; [done|].
  injection El as -> _. exact (lstrip_head _ _ _ _ Es).
Qed.

Lemma strip_last chars s t c : strip chars s = t ++ [c] → c ∉ chars.
Proof. unfold strip. apply rstrip_last. Qed.

Lemma strip_sandwich chars a b s :
  a ∈ chars → b ∈ chars → s ≠ [] →
  (∀ c t, s = c :: t → c ∉ chars) → (∀ t c, s = t ++ [c] → c ∉ chars) →
  strip chars (a :: s ++ [b]) = s.
Proof.
  intros Ha Hb Hne Hh Hl. unfold strip. simpl.
  apply has_true in Ha. rewrite Ha.
  destruct s as [|c t]; [done|]. simpl.
  assert (Hc : has c chars = false) by (apply has_false; by eapply Hh).
  rewrite Hc.
  unfold rstrip. change (c :: t ++ [b]) with ((c :: t) ++ [b]).
  rewrite reverse_app. change (reverse [b]) with [b]. simpl.
  apply has_true in Hb. rewrite Hb.
  destruct (reverse (c :: t)) as [|x r] eqn:Er.
  { apply (f_equal reverse) in Er. by rewrite reverse_involutive in Er. }
  assert (E : c :: t = reverse r ++ [x]).
  { apply (f_equal reverse) in Er. rewrite reverse_involutive in Er.
    by rewrite Er, reverse_cons. }
  rewrite lstrip_id; [by rewrite <- Er, reverse_involutive|].
  exact (Hl _ _ E).
Qed.

Lemma startswith_app s t p : startswith s p = true → startswith (s ++ t) p = true.
Proof.
  revert s. induction p as [|a p IH]; intros [|b s]; simpl; try done.
  intros [H1 H2]%andb_true_iff. rewrite H1. simpl. by apply IH.
Qed.

Lemma contains_app sub s t : contains sub s = true → contains sub (s ++ t) = true.
Proof.
  induction s as [|c s IH]; simpl.
  - rewrite orb_false_r. destruct sub; [|done]. intros _. by destruct t.
  - intros [H|H]%orb_true_iff.
    + apply (startswith_app _ t) in H. simpl in H. by rewrite H.
    + rewrite (IH H). apply orb_true_r.
Qed.

Lemma contains_nonempty sub s : sub ≠ [] → contains sub s = true → s ≠ [].
Proof. intros Hs H ->. simpl in H. by destruct sub. Qed.

Lemma endswith_snoc s c : endswith (s ++ [c]) [c] = true.
Proof.
  unfold endswith. rewrite reverse_app.
  change (reverse [c]) with [c]. simpl.
  by rewrite bool_decide_eq_true_2.
Qed.

Lemma endswith_one s c : endswith s [c] = true ↔ ∃ t, s = t ++ [c].
Proof.
  unfold endswith. split.
  - destruct (reverse s) as [|x r] eqn:E; simpl; [done|].
    rewrite andb_true_r. intros ->%bool_decide_eq_true.
    exists (reverse r). apply (f_equal reverse) in E.
    by rewrite reverse_involutive, reverse_cons in E.
  - intros [t ->]. apply endswith_snoc.
Qed.

Lemma notin_sublist (c : char) (l1 l2 : str) :
  l1 `sublist_of` l2 → c ∉ l2 → c ∉ l1.
Proof. intros Hs Hn Hin. apply Hn. by eapply elem_of_sublist. Qed.

Lemma slice_sublist {A} (s : list A) lo hi : slice s lo hi `sublist_of` s.
Proof.
  unfold slice. etrans; [apply sublist_take|apply sublist_drop].
Qed.

Lemma lstrip_sublist chars s : lstrip chars s `sublist_of` s.
Proof.
  destruct (lstrip_suffix chars s) as [l E]. rewrite E at 2.
  by apply sublist_inserts_l.
Qed.

Lemma strip_sublist chars s : strip chars s `sublist_of` s.
Proof.
  unfold strip. etrans; [|apply lstrip_sublist].
  destruct (rstrip_prefix chars (lstrip chars s)) as [l E]. rewrite E at 2.
  by apply sublist_inserts_r.
Qed.

Lemma remove_char_sublist c s : remove_char c s `sublist_of` s.
Proof. apply sublist_filter. Qed.

Lemma remove_char_notin c s : c ∉ remove_char c s.
Proof. unfold remove_char. rewrite list_elem_of_filter. tauto. Qed.

Lemma remove_char_id c s : c ∉ s → remove_char c s = s.
Proof.
  unfold remove_char. induction s as [|x s IH]; [done|].
  rewrite not_elem_of_cons. intros [Hx Hs].
  rewrite filter_cons_True by congruence. by rewrite IH.
Qed.

Lemma clip_in_range len i : 0 ≤ i ≤ len → clip len i = i.
Proof. unfold clip. intros H. destruct (Z.ltb_spec i 0); lia. Qed.

Lemma zlen_app {A} (s t : list A) : zlen (s ++ t) = zlen s + zlen t.
Proof. unfold zlen. rewrite length_app. lia. Qed.

Lemma zlen_nonneg {A} (s : list A) : 0 ≤ zlen s.
Proof. unfold zlen. lia. Qed.

Lemma slice_app_mid {A} (l0 l1 l2 : list A) :
  slice (l0 ++ l1 ++ l2) (zlen l0) (zlen l0 + zlen l1) = l1.
Proof.
  unfold slice. pose proof (zlen_nonneg l0). pose proof (zlen_nonneg l1).
  pose proof (zlen_nonneg l2).
  rewrite !clip_in_range by (rewrite !zlen_app; lia).
  unfold zlen. rewrite Nat2Z.id, drop_app_length.
  replace (Z.to_nat _) with (length l1) by lia.
  apply take_app_length.
Qed.

Lemma slice_to_app {A} (l0 l1 : list A) : slice_to (l0 ++ l1) (zlen l0) = l0.
Proof.
  unfold slice_to.
  pose proof (slice_app_mid [] l0 l1) as H. simpl in H. exact H.
Qed.

Lemma slice_from_app {A} (l0 l1 : list A) :
  slice_from (l0 ++ l1) (zlen l0) = l1.
Proof.
  unfold slice_from.
  pose proof (slice_app_mid l0 l1 []) as H.
  rewrite app_nil_r in H. by rewrite zlen_app.
Qed.

Lemma index_of_None c s : index_of c s = None ↔ c ∉ s.
Proof.
  induction s as [|x s IH]; simpl.
  - split; [intros _; apply not_elem_of_nil|done].
  - rewrite not_elem_of_cons. destruct (decide (x = c)) as [->|Hx].
    + split; [done|]. intros [? _]. done.
    + rewrite fmap_None, IH. split; [intros ?; split; congruence|tauto].
Qed.

Lemma index_of_app c l1 l2 :
  c ∉ l1 → index_of c (l1 ++ c :: l2) = Some (length l1).
Proof.
  induction l1 as [|x l1 IH]; simpl.
  - intros _. by rewrite decide_True.
  - rewrite not_elem_of_cons. intros [Hx Hl].
    rewrite decide_False by congruence. by rewrite IH.
Qed.

Lemma index_of_split c s k :
  index_of c s = Some k → ∃ l2, s = take k s ++ c :: l2 ∧ c ∉ take k s.
Proof.
  revert k. induction s as [|x s IH]; intros k; simpl; [done|].
  destruct (decide (x = c)) as [->|Hx].
  - intros [= <-]. exists s. split; [done|]. apply not_elem_of_nil.
  - destruct (index_of c s) as [j|]; [|done]. simpl. intros [= <-].
    destruct (IH j eq_refl) as (l2 & E & Hn). exists l2. simpl.
    split; [by f_equal|]. rewrite not_elem_of_cons. split; [congruence|done].
Qed.

Lemma find_notin c s start : c ∉ s → find c s start = -1.
Proof.
  intros H. unfold find.
  assert (E : index_of c (drop (Z.to_nat (clip (zlen s) start)) s) = None).
  { apply index_of_None. eapply notin_sublist; [apply sublist_drop|done]. }
  by rewrite E.
Qed.

Lemma find_app c l0 l1 l2 :
  c ∉ l1 → find c (l0 ++ l1 ++ c :: l2) (zlen l0) = zlen l0 + zlen l1.
Proof.
  intros H. unfold find.
  pose proof (zlen_nonneg l0). pose proof (zlen_nonneg l1).
  pose proof (zlen_nonneg (c :: l2)).
  rewrite clip_in_range by (rewrite !zlen_app; lia).
  unfold zlen. rewrite Nat2Z.id, drop_app_length, index_of_app by done. lia.
Qed.

Lemma find_first c l1 l2 : c ∉ l1 → find c (l1 ++ c :: l2) 0 = zlen l1.
Proof. intros H. by apply (find_app c [] l1 l2). Qed.

Lemma find_in c s :
  c ∈ s → ∃ l1 l2, s = l1 ++ c :: l2 ∧ (c ∉ l1) ∧ find c s 0 = zlen l1.
Proof.
  intros Hin. destruct (index_of c s) as [k|] eqn:E.
  - destruct (index_of_split _ _ _ E) as (l2 & Es & Hn).
    exists (take k s), l2. split; [done|]. split; [done|].
    rewrite Es at 1. by apply find_first.
  - by apply index_of_None in E.
Qed.

(** The part before the separator holds no separator. *)
Lemma split_once_fst_notin c s : c ∈ s → c ∉ fst (split_once c s).
Proof.
  intros (l1 & l2 & -> & Hn & Ef)%find_in.
  unfold split_once. simpl. rewrite Ef. by rewrite slice_to_app.
Qed.

Lemma split_once_fst_sublist c s : fst (split_once c s) `sublist_of` s.
Proof. apply slice_sublist. Qed.

Lemma rfind_snoc c s : rfind c (s ++ [c]) = zlen s.
Proof.
  unfold rfind. rewrite reverse_snoc. simpl. rewrite decide_True by done.
  rewrite zlen_app. unfold zlen. simpl. lia.
Qed.

Lemma find_last_other c x s : x ≠ c → find c (s ++ [x]) (zlen s) = -1.
Proof.
  intros Hx. unfold find. pose proof (zlen_nonneg s).
  rewrite clip_in_range by (rewrite zlen_app; unfold zlen in *; simpl; lia).
  unfold zlen. rewrite Nat2Z.id, drop_app_length. simpl.
  by rewrite decide_False.
Qed.

(** ** The URL normaliser *)

Section NormalizerFacts.
Context (brk nfkc : str → bool).
Local Abbreviation normalize := (normalize_ga4_url brk nfkc).
Local Abbreviation parse := (urlparse brk nfkc).

Lemma strip_slash_not_endswith s : endswith (strip (py "/") s) (py "/") = false.
Proof.
  destruct (endswith _ _) eqn:E; [|done].
  apply endswith_one in E as [t E]. apply strip_last in E.
  exfalso. apply E. by left.
Qed.

Lemma strip_slash_not_startswith s : startswith (strip (py "/") s) (py "/") = false.
Proof.
  destruct (strip _ s) as [|c t] eqn:E; [done|].
  apply strip_head in E. simpl. rewrite andb_true_r.
  apply bool_decide_eq_false. intros <-. apply E. by left.
Qed.

Lemma split_scheme_sublist url : snd (split_scheme url) `sublist_of` url.
Proof.
  unfold split_scheme. destruct (_ && _); simpl; [apply slice_sublist|done].
Qed.

Lemma split_netloc_sublist url n u :
  split_netloc brk url = Some (n, u) → u `sublist_of` url.
Proof.
  unfold split_netloc. case_bool_decide.
  - unfold splitnetloc. simpl. repeat case_match; try done.
    all: intros [= <- <-]; apply slice_sublist.
  - by intros [= <- <-].
Qed.

Lemma cut_sublist c url : fst (cut c url) `sublist_of` url.
Proof.
  unfold cut. destruct (has c url); [apply split_once_fst_sublist|done].
Qed.

Lemma cut_notin c url : c ∉ fst (cut c url).
Proof.
  unfold cut. destruct (has c url) eqn:E.
  - apply split_once_fst_notin. by apply has_true.
  - by apply has_false.
Qed.

Lemma split_params_sublist sch url : fst (split_params sch url) `sublist_of` url.
Proof.
  unfold split_params. destruct (_ && _); [|done].
  unfold splitparams. repeat case_match; simpl; try done; apply slice_sublist.
Qed.

(** The path handed back by the parser holds no tab, carriage return or
    line feed (removed up front), no [#] and no [?] (split off). *)
Lemma urlsplit_path_clean url r :
  urlsplit brk nfkc url = Some r →
  Forall (λ c, c ∉ s_path r) [9; 13; 10; ch "#"; ch "?"]%N.
Proof.
  unfold urlsplit.
  set (url0 := lstrip _ url).
  set (url1 := foldl _ url0 _).
  assert (H1 : Forall (λ c, c ∉ url1) [9; 13; 10]%N).
  { subst url1. unfold UNSAFE_URL_BYTES_TO_REMOVE. simpl.
    repeat constructor.
    - do 2 (eapply notin_sublist; [apply remove_char_sublist|]).
      apply remove_char_notin.
    - eapply notin_sublist; [apply remove_char_sublist|].
      apply remove_char_notin.
    - apply remove_char_notin. }
  clearbody url1.
  pose proof (split_scheme_sublist url1) as H2.
  destruct (split_scheme url1) as [sch url2]. simpl in H2.
  destruct (split_netloc brk url2) as [[nl url3]|] eqn:E3; [|done].
  apply split_netloc_sublist in E3.
  pose proof (cut_sublist (ch "#") url3) as H4.
  pose proof (cut_notin (ch "#") url3) as H4'.
  destruct (cut (ch "#") url3) as [url4 frag]. simpl in H4, H4'.
  pose proof (cut_sublist (ch "?") url4) as H5.
  pose proof (cut_notin (ch "?") url4) as H5'.
  destruct (cut (ch "?") url4) as [url5 q]. simpl in H5, H5'.
  destruct (checknetloc_raises _ _); [done|]. intros [= <-]. simpl.
  assert (Hs : url5 `sublist_of` url1) by (do 3 (etrans; [eassumption|]); done).
  rewrite !Forall_cons in H1. destruct H1 as (Ha & Hb & Hc & _).
  repeat constructor; try by (eapply notin_sublist; [apply Hs|]).
  - eapply notin_sublist; [apply H5|done].
  - done.
Qed.

Lemma urlparse_path_clean url r :
  parse url = Some r →
  Forall (λ c, c ∉ path r) [9; 13; 10; ch "#"; ch "?"]%N.
Proof.
  unfold urlparse.
  destruct (urlsplit brk nfkc url) as [[sch nl p q f]|] eqn:E; [|done].
  apply urlsplit_path_clean in E. simpl in E.
  pose proof (split_params_sublist sch p) as H.
  destruct (split_params sch p) as [p' prm]. simpl in H. intros [= <-]. simpl.
  eapply Forall_impl; [exact E|]. simpl. intros c Hc.
  by eapply notin_sublist.
Qed.

(** The shape of every defined result: the stripped path of a URL on the
    content host, holding the section marker, with one slash appended. *)
Lemma normalize_inv url p :
  normalize url = Some p →
  ∃ r s, url ≠ [] ∧ parse url = Some r ∧ netloc r = py "www.foresight.jp" ∧
         s = strip (py "/") (path r) ∧
         contains (py "/column/") s = true ∧ p = s ++ py "/".
Proof.
  unfold normalize_ga4_url.
  case_bool_decide as Hu; [done|].
  destruct (parse url) as [r|] eqn:Er; [|done].
  case_bool_decide as Hn; [done|].
  destruct (contains _ _) eqn:Ec; [|done]. simpl.
  rewrite strip_slash_not_endswith.
  case_bool_decide as Hs.
  { rewrite Hs in Ec. done. }
  simpl. intros [= <-].
  exists r, (strip (py "/") (path r)). repeat split; try done.
Qed.

(** *** A result is shorter than the URL it comes from *)

Lemma find_bounds c (u : str) start :
  0 ≤ start ≤ zlen u → 0 ≤ find c u start → start ≤ find c u start.
Proof.
  intros Hs. unfold find. rewrite clip_in_range by done.
  destruct (index_of c _); lia.
Qed.

Lemma slice_lengths {A} (l : list A) a d :
  0 ≤ a ≤ d → d ≤ zlen l →
  zlen (slice l a d) + zlen (slice_from l d) + a = zlen l.
Proof.
  intros Ha Hd. unfold slice_from, slice.
  rewrite !clip_in_range by lia. unfold zlen in *.
  rewrite !length_take, !length_drop. lia.
Qed.

Lemma splitnetloc_lengths (url : str) :
  2 ≤ zlen url →
  zlen (fst (splitnetloc url 2)) + zlen (snd (splitnetloc url 2)) + 2 = zlen url.
Proof.
  intros Hlen. unfold splitnetloc. cbn [fst snd].
  apply slice_lengths; [|].
  - split; [lia|].
    change (py "/?#") with [ch "/"; ch "?"; ch "#"]. cbn [foldl].
    pose proof (find_bounds (ch "/") url 2) as H1.
    pose proof (find_bounds (ch "?") url 2) as H2.
    pose proof (find_bounds (ch "#") url 2) as H3.
    repeat match goal with
           | |- context [0 <=? ?x] => destruct (Z.leb_spec 0 x)
           end; lia.
  - change (py "/?#") with [ch "/"; ch "?"; ch "#"]. cbn [foldl].
    repeat match goal with
           | |- context [0 <=? ?x] => destruct (Z.leb_spec 0 x)
           end; lia.
Qed.

Lemma split_netloc_lengths url n u :
  split_netloc brk url = Some (n, u) → n ≠ [] →
  zlen n + zlen u + 2 ≤ zlen url.
Proof.
  unfold split_netloc. case_bool_decide as H2; [|by intros [= <- <-]].
  assert (Hlen : 2 ≤ zlen url).
  { destruct url as [|a [|b url]]; [done|done|].
    unfold zlen. simpl. lia. }
  pose proof (splitnetloc_lengths url Hlen) as Hs.
  destruct (splitnetloc url 2) as [n' u']. cbn [fst snd] in Hs.
  repeat case_match; try done; intros [= <- <-] _; lia.
Qed.

Lemma sublist_zlen {A} (l1 l2 : list A) : l1 `sublist_of` l2 → zlen l1 ≤ zlen l2.
Proof. intros H%sublist_length. unfold zlen. lia. Qed.

Lemma urlsplit_lengths url r :
  urlsplit brk nfkc url = Some r → s_netloc r ≠ [] →
  zlen (s_netloc r) + zlen (s_path r) + 2 ≤ zlen url.
Proof.
  unfold urlsplit.
  set (url0 := lstrip _ url).
  set (url1 := foldl _ url0 _).
  assert (H1 : zlen url1 ≤ zlen url).
  { apply sublist_zlen. subst url1 url0.
    unfold UNSAFE_URL_BYTES_TO_REMOVE. cbn [foldl].
    do 3 (etrans; [apply remove_char_sublist|]). apply lstrip_sublist. }
  clearbody url1.
  pose proof (sublist_zlen _ _ (split_scheme_sublist url1)) as H2.
  destruct (split_scheme url1) as [sch url2]. cbn [snd] in H2.
  destruct (split_netloc brk url2) as [[nl url3]|] eqn:E3; [|done].
  pose proof (sublist_zlen _ _ (cut_sublist (ch "#") url3)) as H4.
  destruct (cut (ch "#") url3) as [url4 frag]. cbn [fst] in H4.
  pose proof (sublist_zlen _ _ (cut_sublist (ch "?") url4)) as H5.
  destruct (cut (ch "?") url4) as [url5 q]. cbn [fst] in H5.
  destruct (checknetloc_raises _ _); [done|]. intros [= <-]. cbn [s_netloc s_path].
  intros Hn. pose proof (split_netloc_lengths _ _ _ E3 Hn). lia.
Qed.

Lemma normalize_shorter url p :
  normalize url = Some p → zlen p + 17 ≤ zlen url.
Proof.
  intros (r & s & _ & Hr & Hn & -> & _ & ->)%normalize_inv.
  unfold urlparse in Hr.
  destruct (urlsplit brk nfkc url) as [[sch nl pth q f]|] eqn:E; [|done].
  pose proof (sublist_zlen _ _ (split_params_sublist sch pth)) as Hp.
  destruct (split_params sch pth) as [pth' prm]. cbn [fst] in Hp.
  injection Hr as <-. cbn [netloc path] in *. subst nl.
  apply urlsplit_lengths in E; [|done]. cbn [s_netloc s_path] in E.
  change (zlen (py "www.foresight.jp")) with 16 in E.
  pose proof (sublist_zlen _ _ (strip_sublist (py "/") pth')).
  rewrite zlen_app. change (zlen (py "/")) with 1. lia.
Qed.

(** *** Parsing a normalised path put back on its host *)

Section Rehost.
Variable s : str.
Hypothesis s_clean : Forall (λ c, c ∉ s) [9; 13; 10; ch "#"; ch "?"]%N.
Hypothesis s_head : ∀ c t, s = c :: t → c ∉ py "/".
Hypothesis s_last : ∀ t c, s = t ++ [c] → c ∉ py "/".
Hypothesis s_marker : contains (py "/column/") s = true.

Local Abbreviation tail := (ch "/" :: s ++ [ch "/"]).
Local Abbreviation after_scheme := (py "//" ++ py "www.foresight.jp" ++ tail).
Local Abbreviation rehosted := (py "https" ++ ch ":" :: after_scheme).

Lemma rehosted_eq : py "https://www.foresight.jp/" ++ s ++ py "/" = rehosted.
Proof. reflexivity. Qed.

Lemma s_nonempty : s ≠ [].
Proof. apply (contains_nonempty (py "/column/")); [done|exact s_marker]. Qed.

Lemma tail_lacks c : c ≠ ch "/" → c ∉ s → c ∉ tail.
Proof.
  intros Hc Hs. rewrite not_elem_of_cons, not_elem_of_app, not_elem_of_cons.
  repeat split; try done. apply not_elem_of_nil.
Qed.

Lemma after_scheme_lacks c :
  has c (py "//www.foresight.jp/") = false → c ∉ s → c ∉ after_scheme.
Proof.
  intros Hc Hs. apply has_false in Hc.
  change (py "//www.foresight.jp/")
    with (py "//" ++ py "www.foresight.jp" ++ [ch "/"]) in Hc.
  rewrite !not_elem_of_app, not_elem_of_cons in Hc.
  destruct Hc as (? & ? & ? & _).
  rewrite !not_elem_of_app. repeat split; try done. by apply tail_lacks.
Qed.

Lemma rehosted_lacks c :
  has c (py "https://www.foresight.jp/") = false → c ∉ s → c ∉ rehosted.
Proof.
  intros Hc Hs. apply has_false in Hc.
  change (py "https://www.foresight.jp/")
    with (py "https" ++ ch ":" :: py "//www.foresight.jp/") in Hc.
  rewrite not_elem_of_app, not_elem_of_cons in Hc.
  destruct Hc as (? & ? & ?).
  rewrite not_elem_of_app, not_elem_of_cons. repeat split; try done.
  apply after_scheme_lacks; [by apply has_false|done].
Qed.

Lemma rehosted_prepared :
  foldl (λ u b, remove_char b u)
        (lstrip WHATWG_C0_CONTROL_OR_SPACE rehosted)
        UNSAFE_URL_BYTES_TO_REMOVE = rehosted.
Proof.
  change (py "https") with (ch "h" :: py "ttps").
  rewrite <- app_comm_cons, lstrip_id by (by apply has_false).
  change (ch "h" :: py "ttps" ++ ch ":" :: after_scheme) with rehosted.
  pose proof s_clean as Hcl. rewrite !Forall_cons in Hcl. destruct Hcl as (H9 & H13 & H10 & _).
  unfold UNSAFE_URL_BYTES_TO_REMOVE. cbn [foldl].
  rewrite (remove_char_id 9 rehosted) by (by apply rehosted_lacks).
  rewrite (remove_char_id 13 rehosted) by (by apply rehosted_lacks).
  rewrite (remove_char_id 10 rehosted) by (by apply rehosted_lacks).
  reflexivity.
Qed.

Lemma rehosted_scheme : split_scheme rehosted = (py "https", after_scheme).
Proof.
  unfold split_scheme.
  rewrite find_first by (by apply has_false).
  rewrite slice_to_app.
  replace (slice_from rehosted (zlen (py "https") + 1)) with after_scheme.
  - reflexivity.
  - pose proof (slice_from_app (py "https" ++ [ch ":"]) after_scheme) as H.
    rewrite <- app_assoc in H. symmetry. exact H.
Qed.

Lemma after_scheme_netloc :
  split_netloc brk after_scheme = Some (py "www.foresight.jp", tail).
Proof.
  pose proof s_clean as Hcl. rewrite !Forall_cons in Hcl.
  destruct Hcl as (_ & _ & _ & Hf & Hq & _).
  unfold split_netloc.
  rewrite (slice_to_app (py "//")). rewrite bool_decide_eq_true_2 by done.
  unfold splitnetloc.
  change (py "/?#") with [ch "/"; ch "?"; ch "#"]. cbn [foldl].
  rewrite (find_app (ch "/") (py "//") (py "www.foresight.jp"))
    by (by apply has_false).
  rewrite (find_notin (ch "?")) by (by apply after_scheme_lacks).
  rewrite (find_notin (ch "#")) by (by apply after_scheme_lacks).
  change (zlen (py "//") + zlen (py "www.foresight.jp")) with 18.
  change (0 <=? 18) with true. change (0 <=? -1) with false. cbv iota.
  assert (Hlen : Z.min (zlen after_scheme) 18 = 18).
  { rewrite !zlen_app. change (zlen (py "//")) with 2.
    change (zlen (py "www.foresight.jp")) with 16.
    pose proof (zlen_nonneg tail). lia. }
  rewrite Hlen.
  pose proof (slice_app_mid (py "//") (py "www.foresight.jp") tail) as Hn.
  change (zlen (py "//") + zlen (py "www.foresight.jp")) with 18 in Hn.
  change (zlen (py "//")) with 2 in Hn. rewrite Hn.
  pose proof (slice_from_app (py "//" ++ py "www.foresight.jp") tail) as Ht.
  rewrite <- app_assoc in Ht.
  change (zlen (py "//" ++ py "www.foresight.jp")) with 18 in Ht. rewrite Ht.
  reflexivity.
Qed.

Lemma tail_cut c : c ≠ ch "/" → c ∉ s → cut c tail = (tail, []).
Proof.
  intros Hc Hs. unfold cut.
  assert (E : has c tail = false) by (apply has_false; by apply tail_lacks).
  by rewrite E.
Qed.

Lemma tail_params : split_params (py "https") tail = (tail, []).
Proof.
  unfold split_params.
  change (bool_decide (py "https" ∈ uses_params)) with true.
  destruct (has (ch ";") tail); [|done]. simpl andb. cbv iota.
  unfold splitparams.
  assert (E : has (ch "/") tail = true) by (apply has_true; by left).
  rewrite E.
  change tail with ((ch "/" :: s) ++ [ch "/"]).
  rewrite rfind_snoc, find_last_other by done. reflexivity.
Qed.

Lemma rehosted_parse :
  parse rehosted =
  Some (mkParse (py "https") (py "www.foresight.jp") tail [] [] []).
Proof.
  pose proof s_clean as Hcl. rewrite !Forall_cons in Hcl.
  destruct Hcl as (_ & _ & _ & Hf & Hq & _).
  unfold urlparse, urlsplit.
  rewrite rehosted_prepared, rehosted_scheme, after_scheme_netloc.
  rewrite !tail_cut by done.
  change (checknetloc_raises nfkc (py "www.foresight.jp")) with false.
  cbv iota. by rewrite tail_params.
Qed.

Lemma rehosted_normalize :
  normalize (py "https://www.foresight.jp/" ++ s ++ py "/") = Some (s ++ py "/").
Proof.
  rewrite rehosted_eq. unfold normalize_ga4_url.
  rewrite bool_decide_eq_false_2 by done.
  rewrite rehosted_parse. cbn [netloc path].
  rewrite bool_decide_eq_false_2 by (intros H; by apply H).
  rewrite strip_sandwich; try done.
  - rewrite s_marker. cbn [negb].
    rewrite bool_decide_eq_false_2 by apply s_nonempty.
    destruct (endswith s (py "/")) eqn:E; [|done].
    apply endswith_one in E as [t E]. apply s_last in E.
    exfalso. apply E. by left.
  - by left.
  - by left.
  - apply s_nonempty.
Qed.

End Rehost.

(** C9. The normaliser is total: on every string it yields [None] or a
    path; the empty string gives [None], and so does a string on which the
    parser raises [ValueError]. Every path it yields contains the segment
    [/column/], ends with a slash and does not begin with one. *)
Theorem normalize_ga4_url_total_wellformed url :
  normalize [] = None ∧
  match parse url with
  | None => normalize url = None
  | Some _ => True
  end ∧
  (normalize url = None ∨
   ∃ p, normalize url = Some p ∧
        contains (py "/column/") p = true ∧
        endswith p (py "/") = true ∧
        startswith p (py "/") = false).
Proof.
  split; [done|]. split.
  { destruct (parse url) eqn:E; [done|].
    unfold normalize_ga4_url. rewrite E. by case_bool_decide. }
  destruct (normalize url) as [p|] eqn:E; [right|by left].
  exists p. split; [done|].
  apply normalize_inv in E as (r & s & _ & _ & _ & Hs & Hc & ->).
  split; [by apply contains_app|].
  split; [apply endswith_snoc|].
  pose proof (strip_slash_not_startswith (path r)) as Hh. rewrite <- Hs in Hh.
  destruct s as [|c t]; [done|]. exact Hh.
Qed.

(** C3, as amended. A path produced by the normaliser is a fixed point
    once it is put back on the content host: normalising
    [https://www.foresight.jp/] followed by the path returns the path
    unchanged. The bare path is never a fixed point: a result is at least
    17 characters shorter than the URL it comes from. *)
Theorem normalize_ga4_url_rehost_idempotent url p :
  normalize url = Some p →
  normalize (py "https://www.foresight.jp/" ++ p) = Some p
  ∧ normalize p ≠ Some p.
Proof.
  intros H. split; cycle 1.
  { intros H'%normalize_shorter. lia. }
  apply normalize_inv in H as (r & s & _ & Hr & _ & Hs & Hc & ->).
  apply rehosted_normalize; [| | |done].
  - eapply Forall_impl; [exact (urlparse_path_clean _ _ Hr)|].
    simpl. intros c Hn. eapply notin_sublist; [|exact Hn].
    rewrite Hs. apply strip_sublist.
  - intros c t E. rewrite Hs in E. exact (strip_head _ _ _ _ E).
  - intros t c E. rewrite Hs in E. exact (strip_last _ _ _ _ E).
Qed.

End NormalizerFacts.

(** C3, as stated, fails: the normaliser maps a URL of the content host to
    a relative path, and that path alone has no host, so normalising it
    again yields [None]. *)
Lemma normalize_ga4_url_not_idempotent :
  normalize_ga4_url never never (py "https://www.foresight.jp/acct/column/intro/")
    = Some (py "acct/column/intro/")
  ∧ normalize_ga4_url never never (py "acct/column/intro/") = None.
Proof. split; vm_compute; reflexivity. Qed.

Lemma normalize_ga4_url_rehost_witness :
  normalize_ga4_url never never (py "https://www.foresight.jp/acct/column/intro?utm=1#top")
    = Some (py "acct/column/intro/")
  ∧ normalize_ga4_url never never
      (py "https://www.foresight.jp/" ++ py "acct/column/intro/")
    = Some (py "acct/column/intro/")
  ∧ normalize_ga4_url never never (py "acct/column/intro/")
    ≠ Some (py "acct/column/intro/").
Proof.
  assert (H : normalize_ga4_url never never
                (py "https://www.foresight.jp/acct/column/intro?utm=1#top")
              = Some (py "acct/column/intro/")) by (vm_compute; reflexivity).
  split; [exact H|].
  exact (normalize_ga4_url_rehost_idempotent never never _ _ H).
Defined.

(** ** The keys of the article mapping *)

Lemma build_mapping_snoc rows row :
  build_mapping (rows ++ [row])
  = <[pattern_of row := info_of row]> (build_mapping rows).
Proof. unfold build_mapping. by rewrite foldl_app. Qed.

Lemma build_mapping_lookup rows pattern info :
  build_mapping rows !! pattern = Some info →
  ∃ row, row ∈ rows ∧ pattern = pattern_of row ∧ info = info_of row.
Proof.
  induction rows as [|row rows IH] using rev_ind.
  - unfold build_mapping. simpl. by rewrite lookup_empty.
  - rewrite build_mapping_snoc.
    destruct (decide (pattern_of row = pattern)) as [<-|Hne].
    + rewrite lookup_insert_eq. intros [= <-]. exists row.
      split; [|done]. apply elem_of_app. right. by left.
    + rewrite lookup_insert_ne by done. intros H.
      destruct (IH H) as (row' & Hin & -> & ->). exists row'.
      split; [|done]. apply elem_of_app. by left.
Qed.

Lemma normalized_link_endswith link :
  endswith (normalized_link link) (py "/") = true.
Proof.
  unfold normalized_link.
  destruct (endswith (strip_ws link) (py "/")) eqn:E; simpl; [done|].
  apply endswith_snoc.
Qed.

Lemma endswith_app_one s t c : endswith t [c] = true → endswith (s ++ t) [c] = true.
Proof.
  rewrite !endswith_one. intros [u ->]. exists (s ++ u). by rewrite app_assoc.
Qed.

Lemma normalized_link_elem c link :
  c ≠ ch "/" → c ∈ normalized_link link ↔ c ∈ strip_ws link.
Proof.
  intros Hc. unfold normalized_link. destruct (negb _); [|done].
  rewrite elem_of_app. split; [|by left].
  intros [H|H]; [done|]. apply list_elem_of_singleton in H. done.
Qed.

(** C8, as amended. Every key of the mapping is built from a row of the
    join as [slug + "/column/" + link'], [link'] being the link stripped of
    surrounding white space with a slash appended unless it ends with one.
    The key always ends with a slash. Nothing removes a query string or a
    fragment: the key holds [?] or [#] exactly when the slug or the
    stripped link does. *)
Theorem mapping_pattern_shape rows pattern info :
  build_mapping rows !! pattern = Some info →
  ∃ row, row ∈ rows ∧ info = info_of row ∧
    pattern = row_course_slug row ++ py "/column/" ++ article_link info ∧
    article_link info
    = (let link := strip_ws (row_article_link row) in
       if endswith link (py "/") then link else link ++ py "/") ∧
    endswith pattern (py "/") = true ∧
    ∀ c, c ∈ [ch "?"; ch "#"] →
         c ∈ pattern ↔ c ∈ row_course_slug row ∨ c ∈ strip_ws (row_article_link row).
Proof.
  intros (row & Hin & -> & ->)%build_mapping_lookup.
  exists row. split; [done|]. split; [done|]. split; [done|].
  split.
  { simpl. unfold normalized_link.
    by destruct (endswith (strip_ws (row_article_link row)) (py "/")). }
  split.
  { unfold pattern_of. rewrite app_assoc.
    apply endswith_app_one, normalized_link_endswith. }
  intros c Hc. unfold pattern_of.
  assert (Hq : c ≠ ch "/" ∧ c ∉ py "/column/").
  { rewrite !elem_of_cons in Hc. destruct Hc as [->|[->|Hc]].
    - split; [done|]. by apply has_false.
    - split; [done|]. by apply has_false.
    - by apply elem_of_nil in Hc. }
  destruct Hq as [Hs Hm].
  rewrite !elem_of_app, normalized_link_elem by done. tauto.
Qed.

Lemma NoDup_fmap_eq {A B} (f : A → B) (l : list A) x y :
  NoDup (f <$> l) → x ∈ l → y ∈ l → f x = f y → x = y.
Proof.
  induction l as [|a l IH]; [by intros _ ?%elem_of_nil|].
  rewrite fmap_cons, NoDup_cons. intros [Ha Hl].
  rewrite !elem_of_cons. intros [->|Hx] [->|Hy] E; try done.
  - exfalso. apply Ha. rewrite E. apply list_elem_of_fmap. by exists y.
  - exfalso. apply Ha. rewrite <- E. apply list_elem_of_fmap. by exists x.
  - by apply IH.
Qed.

(** Rows of distinct articles give a mapping with one pattern per
    article. *)
Lemma build_mapping_one_pattern rows :
  NoDup (row_article_id <$> rows) →
  one_pattern_per_article (build_mapping rows).
Proof.
  intros Hnd k1 k2 info1 info2 H1 H2 Hid.
  apply build_mapping_lookup in H1 as (row1 & Hin1 & -> & ->).
  apply build_mapping_lookup in H2 as (row2 & Hin2 & -> & ->).
  simpl in Hid. by rewrite (NoDup_fmap_eq _ _ _ _ Hnd Hin1 Hin2 Hid).
Qed.

(** ** The reconciler *)

Lemma batches_take {A} (n : nat) (l : list A) m :
  concat ((λ i, take n (drop i l)) <$> ((λ k, k * n)%nat <$> seq 0 m))
  = take (m * n) l.
Proof.
  induction m as [|m IH].
  - by rewrite take_0.
  - rewrite seq_S, !fmap_app, concat_app, IH. simpl. rewrite app_nil_r.
    rewrite take_take_drop. f_equal. lia.
Qed.

(** Cutting a list into batches and walking the batches in turn visits
    the list itself. *)
Lemma batches_concat {A} (n : nat) (l : list A) :
  (0 < n)%nat → concat (batches n l) = l.
Proof.
  intros Hn. unfold batches, range_step. rewrite batches_take.
  apply take_ge.
  pose proof (Nat.div_mod_eq (length l + n - 1) n) as Hd.
  pose proof (Nat.mod_upper_bound (length l + n - 1) n). nia.
Qed.

Lemma foldl_concat {A B} (f : B → A → B) (ls : list (list A)) b :
  foldl (λ acc batch, foldl f acc batch) b ls = foldl f b (concat ls).
Proof.
  revert b. induction ls as [|x ls IH]; intros b; simpl; [done|].
  by rewrite foldl_app, IH.
Qed.

Lemma dict_set_keys {V} (d : list (str * V)) k v :
  fst <$> dict_set d k v
  = if decide (k ∈ fst <$> d) then fst <$> d else (fst <$> d) ++ [k].
Proof.
  induction d as [|[k' v'] d IH].
  - cbn [dict_set fmap list_fmap fst].
    rewrite decide_False; [done|]. apply not_elem_of_nil.
  - cbn [dict_set]. destruct (decide (k' = k)) as [->|Hne].
    + rewrite !fmap_cons. cbn [fst]. rewrite decide_True; [done|]. by left.
    + rewrite !fmap_cons, IH. cbn [fst].
      destruct (decide (k ∈ fst <$> d)) as [Hin|Hnin].
      * rewrite decide_True; [done|]. by right.
      * rewrite decide_False; [done|].
        rewrite not_elem_of_cons. split; [congruence|done].
Qed.

Lemma dict_set_NoDup {V} (d : list (str * V)) k v :
  NoDup (fst <$> d) → NoDup (fst <$> dict_set d k v).
Proof.
  intros H. rewrite dict_set_keys. destruct (decide _) as [Hin|Hnin]; [done|].
  apply NoDup_app. split; [done|]. split.
  - intros x Hx ->%list_elem_of_singleton. done.
  - apply NoDup_singleton.
Qed.

Section ReconcilerFacts.
Context {World : Type}.
Variable handle : ∀ R, Call R → World → R * World.
Variables brk nfkc : str → bool.

Local Abbreviation match_urls :=
  (match_urls_and_aggregate_optimized handle brk nfkc).

(** Batching is a way of walking the rows, nothing more. *)
Lemma aggregate_paths_flat ga4_data :
  aggregate_paths brk nfkc ga4_data
  = foldl (aggregate_item brk nfkc) [] ga4_data.
Proof.
  unfold aggregate_paths. rewrite foldl_concat, batches_concat; [done|lia].
Qed.

Lemma aggregate_item_NoDup path_metrics ga4_item :
  NoDup (fst <$> path_metrics) →
  NoDup (fst <$> aggregate_item brk nfkc path_metrics ga4_item).
Proof.
  intros H. unfold aggregate_item.
  destruct (normalize_ga4_url _ _ _); [|done].
  case_bool_decide; [done|]. by apply dict_set_NoDup.
Qed.

(** [path_metrics] is a dict: no path occurs twice. *)
Lemma aggregate_paths_NoDup ga4_data :
  NoDup (fst <$> aggregate_paths brk nfkc ga4_data).
Proof.
  rewrite aggregate_paths_flat.
  assert (H : ∀ d, NoDup (fst <$> d) →
              NoDup (fst <$> foldl (aggregate_item brk nfkc) d ga4_data)).
  { induction ga4_data as [|x l IH]; intros d Hd; simpl; [done|].
    by apply IH, aggregate_item_NoDup. }
  apply H. constructor.
Qed.

(** The stage after its entry check: a time-out when the budget is
    exceeded, the reconciliation of the rows otherwise. *)
Lemma match_urls_run self ga4_data url_patterns st :
  match_urls self ga4_data url_patterns st
  = let now := fst (handle Z Now (world st)) in
    let st' := mkState (snd (handle Z Now (world st)))
                       (trace st ++ [Ev Now now]) in
    if TIMEOUT_SECONDS * 1000000 <? now - start_time self
    then (Raise (TimeoutError (py "matching")), st')
    else (reconcile brk nfkc ga4_data url_patterns, st').
Proof.
  unfold match_urls_and_aggregate_optimized, check_timeout, bind, call, ret.
  destruct (handle Z Now (world st)) as [now w]. simpl.
  destruct (_ <? _); [done|]. by destruct (reconcile _ _ _ _).
Qed.

Lemma match_urls_within self ga4_data url_patterns st :
  within_budget handle self st →
  ∃ st', match_urls self ga4_data url_patterns st
         = (reconcile brk nfkc ga4_data url_patterns, st').
Proof.
  intros H. rewrite match_urls_run. unfold within_budget in H. simpl.
  destruct (Z.ltb_spec (TIMEOUT_SECONDS * 1000000)
              (fst (handle Z Now (world st)) - start_time self)); [lia|].
  by eexists.
Qed.

Lemma match_urls_ok self ga4_data url_patterns st ups st' :
  match_urls self ga4_data url_patterns st = (Ok ups, st') →
  reconcile brk nfkc ga4_data url_patterns = Ok ups.
Proof.
  rewrite match_urls_run. simpl. destruct (_ <? _); [done|]. by intros [= -> _].
Qed.

(** The test of line 585 is the materiality rule. *)
Lemma differs_material article_info metrics avg :
  differs article_info metrics avg = true ↔ material article_info metrics avg.
Proof.
  unfold differs, material. rewrite !orb_true_iff, !Z.ltb_lt.
  pose proof (Z.abs_nonneg (current_pageviews article_info - m_pageviews metrics)).
  pose proof (Z.abs_nonneg
    (current_organic_sessions article_info - m_organic_sessions metrics)).
  pose proof (Z.abs_nonneg
    (current_engaged_sessions article_info - m_engaged_sessions metrics)).
  split.
  - intros [[[Hd|Hd]|Hd]|Hd]; [left|right; left|right; right; left|]; try lia.
    by right; right; right.
  - intros [Hd|[Hd|[Hd|Hd]]];
      [left; left; left|left; left; right|left; right|right]; try lia. done.
Qed.

Lemma match_path_spec url_patterns acc item ups :
  match_path url_patterns acc item = Ok ups →
  ∃ emitted, ups = acc ++ emitted ∧ emission_rule url_patterns item emitted.
Proof.
  unfold match_path, emission_rule. destruct item as [k metrics]. simpl.
  destruct (url_patterns !! k) as [info|].
  - destruct (avg_engagement_time_of metrics) as [avg|e]; [|done].
    destruct (differs info metrics avg) eqn:E; intros [= <-].
    + eexists. split; [done|]. exists avg. split; [done|]. left.
      split; [|done]. by apply differs_material.
    + exists []. rewrite app_nil_r. split; [done|]. exists avg.
      split; [done|]. right. split; [|done].
      rewrite <- differs_material. by rewrite E.
  - intros [= <-]. exists []. by rewrite app_nil_r.
Qed.

Lemma match_paths_raise url_patterns items e :
  foldl (λ acc item,
           match acc with
           | Ok pageviews_updates => match_path url_patterns pageviews_updates item
           | Raise e => Raise e
           end) (Raise e) items = Raise e.
Proof. induction items as [|x l IH]; simpl; [done|exact IH]. Qed.

Lemma match_paths_from url_patterns items acc ups :
  foldl (λ acc item,
           match acc with
           | Ok pageviews_updates => match_path url_patterns pageviews_updates item
           | Raise e => Raise e
           end) (Ok acc) items = Ok ups →
  ∃ emitted, ups = acc ++ concat emitted
             ∧ Forall2 (emission_rule url_patterns) items emitted.
Proof.
  revert acc. induction items as [|item items IH]; intros acc; simpl.
  - intros [= <-]. exists []. simpl. by rewrite app_nil_r.
  - destruct (match_path url_patterns acc item) as [acc'|e] eqn:E.
    + intros H. destruct (IH _ H) as (emitted & -> & Hall).
      destruct (match_path_spec _ _ _ _ E) as (e1 & -> & H1).
      exists (e1 :: emitted). simpl. rewrite app_assoc.
      split; [done|]. by constructor.
    + by rewrite match_paths_raise.
Qed.

(** The stage returns whenever every matched path has a finite average. *)
Lemma match_paths_returns url_patterns items :
  (∀ k metrics, (k, metrics) ∈ items → is_Some (url_patterns !! k) →
     ∃ avg, avg_engagement_time_of metrics = Ok avg) →
  ∀ acc, ∃ ups,
    foldl (λ acc item,
             match acc with
             | Ok pageviews_updates => match_path url_patterns pageviews_updates item
             | Raise e => Raise e
             end) (Ok acc) items = Ok ups.
Proof.
  induction items as [|[k metrics] items IH]; intros H acc; [by eexists|].
  cbn [foldl].
  assert (∃ acc', match_path url_patterns acc (k, metrics) = Ok acc') as [acc' ->].
  { unfold match_path. destruct (url_patterns !! k) as [info|] eqn:Hk.
    - destruct (H k metrics) as [avg ->]; [by left|by rewrite Hk|].
      destruct (differs _ _ _); by eexists.
    - by eexists. }
  apply IH. intros k' m' Hin. apply H. by right.
Qed.

(** C4. For every aggregated path, in the order of [path_metrics], the
    reconciler adds to its result the update of the matching entry if and
    only if the change is material: a counter differs by a non-zero
    amount, or the average engagement time by more than 0.1 seconds; a
    path without an entry adds nothing. *)
Theorem delta_iff_material self ga4_data url_patterns st ups st' :
  match_urls self ga4_data url_patterns st = (Ok ups, st') →
  ∃ emitted,
    ups = concat emitted
    ∧ Forall2 (emission_rule url_patterns)
              (aggregate_paths brk nfkc ga4_data) emitted.
Proof.
  intros H%match_urls_ok. unfold reconcile, match_paths in H.
  apply match_paths_from in H as (emitted & -> & Hall). by exists emitted.
Qed.

Lemma keys_NoDup_unique {V} (d : list (str * V)) k v1 v2 :
  NoDup (fst <$> d) → (k, v1) ∈ d → (k, v2) ∈ d → v1 = v2.
Proof.
  induction d as [|[k' v'] d IH]; [by intros _ ?%elem_of_nil|].
  rewrite fmap_cons, NoDup_cons. cbn [fst]. intros [Hk Hd].
  rewrite !elem_of_cons. intros [E1|H1] [E2|H2].
  - congruence.
  - injection E1 as -> ->. exfalso. apply Hk.
    apply list_elem_of_fmap. by exists (k', v2).
  - injection E2 as -> ->. exfalso. apply Hk.
    apply list_elem_of_fmap. by exists (k', v1).
  - by apply IH.
Qed.

(** Reading the result of a run back: every matched path has a finite
    average and its material update is in the result; every update in the
    result is the material update of a matched path. *)
Lemma emitted_updates url_patterns items emitted :
  Forall2 (emission_rule url_patterns) items emitted →
  (∀ k metrics info, (k, metrics) ∈ items → url_patterns !! k = Some info →
     ∃ avg, avg_engagement_time_of metrics = Ok avg
            ∧ (material info metrics avg →
               update_of info metrics avg ∈ concat emitted))
  ∧ (∀ u, u ∈ concat emitted →
       ∃ k metrics info avg,
         (k, metrics) ∈ items ∧ url_patterns !! k = Some info
         ∧ avg_engagement_time_of metrics = Ok avg
         ∧ material info metrics avg ∧ u = update_of info metrics avg).
Proof.
  induction 1 as [|[k0 m0] e0 items emitted Hrule Hall [IH1 IH2]].
  - split; [by intros ??? ?%elem_of_nil|by intros ? ?%elem_of_nil].
  - unfold emission_rule in Hrule. cbn [fst snd] in Hrule. split.
    + intros k metrics info [[= -> ->]|Hin]%elem_of_cons Hk.
      * rewrite Hk in Hrule. destruct Hrule as (avg & Ha & Hcase).
        exists avg. split; [done|]. intros Hm.
        destruct Hcase as [[_ ->]|[Hn _]]; [|done].
        simpl. by left.
      * destruct (IH1 _ _ _ Hin Hk) as (avg & Ha & Himp).
        exists avg. split; [done|]. intros Hm. simpl.
        apply elem_of_app. right. by apply Himp.
    + intros u. simpl. rewrite elem_of_app. intros [Hu|Hu].
      * destruct (url_patterns !! k0) as [info|] eqn:Hk.
        -- destruct Hrule as (avg & Ha & [[Hm ->]|[_ ->]]).
           ++ apply list_elem_of_singleton in Hu as ->.
              exists k0, m0, info, avg. repeat split; try done. by left.
           ++ by apply elem_of_nil in Hu.
        -- subst e0. by apply elem_of_nil in Hu.
      * destruct (IH2 u Hu) as (k & metrics & info & avg & Hin & Hrest).
        exists k, metrics, info, avg. split; [by right|done].
Qed.

Lemma match_paths_nothing url_patterns items :
  (∀ k metrics info, (k, metrics) ∈ items → url_patterns !! k = Some info →
     ∃ avg, avg_engagement_time_of metrics = Ok avg
            ∧ ¬ material info metrics avg) →
  match_paths url_patterns items = Ok [].
Proof.
  unfold match_paths. induction items as [|[k metrics] items IH]; [done|].
  intros H. cbn [foldl].
  assert (E : match_path url_patterns [] (k, metrics) = Ok []).
  { unfold match_path. destruct (url_patterns !! k) as [info|] eqn:Hk; [|done].
    destruct (H k metrics info) as (avg & -> & Hn); [by left|done|].
    destruct (differs info metrics avg) eqn:Ed; [|done].
    by apply differs_material in Ed. }
  rewrite E. apply IH. intros k' m' info' Hin. apply H. by right.
Qed.

(** C1, as amended. Once the snapshot has been brought up to date with
    the updates of a first run (and no two patterns name one article),
    reconciling the same rows again, within the time budget, yields no
    update at all; against the snapshot of the first run it yields the
    updates of the first run again. *)
Theorem second_run_after_refresh self ga4_data before after ups st1 st1' st2 :
  match_urls self ga4_data before st1 = (Ok ups, st1') →
  one_pattern_per_article before →
  brought_up_to_date ups before after →
  within_budget handle self st2 →
  (∃ st2', match_urls self ga4_data after st2 = (Ok [], st2'))
  ∧ (∃ st2', match_urls self ga4_data before st2 = (Ok ups, st2')).
Proof.
  intros Hrun Hinj Hfresh Hbudget.
  apply match_urls_ok in Hrun. split; cycle 1.
  { destruct (match_urls_within self ga4_data before st2 Hbudget) as [st2' ->].
    exists st2'. by rewrite Hrun. }
  destruct (match_urls_within self ga4_data after st2 Hbudget) as [st2' ->].
  exists st2'. f_equal.
  unfold reconcile, match_paths in Hrun.
  apply match_paths_from in Hrun as (emitted & -> & Hall).
  simpl in Hfresh.
  destruct (emitted_updates _ _ _ Hall) as [Hfwd Hbwd].
  pose proof (aggregate_paths_NoDup ga4_data) as Hnd.
  unfold reconcile. apply match_paths_nothing.
  intros k metrics info' Hin Hk'.
  specialize (Hfresh k). rewrite Hk' in Hfresh.
  destruct (before !! k) as [info|] eqn:Hk; [|done].
  destruct Hfresh as (Hid & Hnamed & Hother).
  destruct (Hfwd _ _ _ Hin Hk) as (avg & Havg & Hmat).
  exists avg. split; [done|].
  destruct (differs info metrics avg) eqn:Ed.
  - apply differs_material, Hmat in Ed.
    destruct (Hnamed _ Ed eq_refl) as (Hp & Ho & He & Hf).
    simpl in Hp, Ho, He, Hf. unfold material.
    rewrite Hp, Ho, He, Hf, !Z.sub_diag. simpl. intros [?|[?|[?|?]]]; done.
  - assert (Hnone : ∀ u, u ∈ concat emitted → u_article_id u ≠ article_id info).
    { intros u Hu Heq.
      destruct (Hbwd u Hu) as (k2 & m2 & info2 & avg2 & Hin2 & Hk2 & Ha2 & Hm2 & ->).
      simpl in Heq. assert (k2 = k) as -> by (by eapply Hinj).
      rewrite Hk in Hk2. injection Hk2 as <-.
      assert (m2 = metrics) as -> by (by eapply keys_NoDup_unique).
      rewrite Havg in Ha2. injection Ha2 as <-.
      apply differs_material in Hm2. congruence. }
    rewrite (Hother Hnone). rewrite <- differs_material. by rewrite Ed.
Qed.

(** C5, as amended. On the content host the scenario of the
    specification yields one update, for the entry of the pattern, with 120
    page views and an average engagement time of 900000 / (30 * 1000) =
    30.0 seconds, whatever the rest of the entry and of the mapping. The
    average is the true quotient of the total engagement time by a thousand
    times the sessions when there are sessions, and the integer 0
    otherwise. *)
Theorem scenario_update_on_content_host self url_patterns info st :
  url_patterns !! py "acct/column/intro/" = Some info →
  current_pageviews info = 100 →
  within_budget handle self st →
  ∃ u st',
    match_urls self [scenario_row "www.foresight.jp"] url_patterns st
    = (Ok [u], st')
    ∧ u_article_id u = article_id info
    ∧ u_pageviews u = 120
    ∧ u_avg_engagement_time u = PyFloat float_30
    ∧ avg_engagement_time_of (mkMetrics 120 40 30 900000 30)
      = Ok (u_avg_engagement_time u)
    ∧ int_truediv 900000 (30 * 1000) = Ok float_30
    ∧ ∀ metrics,
        avg_engagement_time_of metrics
        = if 0 <? m_total_sessions metrics
          then match int_truediv (m_total_engagement_time_msec metrics)
                                 (m_total_sessions metrics * 1000) with
               | Ok q => Ok (PyFloat q)
               | Raise e => Raise e
               end
          else Ok (PyInt 0).
Proof.
  intros Hk Hpv Hbudget.
  destruct (match_urls_within self [scenario_row "www.foresight.jp"]
              url_patterns st Hbudget) as [st' ->].
  exists (update_of info (mkMetrics 120 40 30 900000 30) (PyFloat float_30)), st'.
  split; [|by repeat split].
  f_equal. unfold reconcile.
  assert (Hagg : aggregate_paths brk nfkc [scenario_row "www.foresight.jp"]
                 = [(py "acct/column/intro/", mkMetrics 120 40 30 900000 30)])
    by (vm_compute; reflexivity).
  rewrite Hagg. unfold match_paths, match_path. cbn [foldl]. rewrite Hk.
  change (avg_engagement_time_of (mkMetrics 120 40 30 900000 30))
    with (Ok (A:=num) (PyFloat float_30)).
  cbv iota.
  assert (Hd : differs info (mkMetrics 120 40 30 900000 30) (PyFloat float_30)
               = true).
  { unfold differs. rewrite Hpv. reflexivity. }
  by rewrite Hd.
Qed.

End ReconcilerFacts.

(** ** Traces of the pipeline *)

Section Traces.
Context {World : Type}.
Variable handle : ∀ R, Call R → World → R * World.

Lemma emits_ret {A} P (a : A) : emits (World:=World) P (ret a).
Proof. intros st. exists []. by rewrite app_nil_r. Qed.

Lemma emits_raise {A} P e : emits (World:=World) (A:=A) P (raise e).
Proof. intros st. exists []. by rewrite app_nil_r. Qed.

Lemma emits_lift {A} P (r : result A) : emits (World:=World) P (lift r).
Proof. destruct r; [apply emits_ret|apply emits_raise]. Qed.

Lemma emits_call {R} (P : Event → Prop) (c : Call R) :
  (∀ r, P (Ev c r)) → emits P (call handle c).
Proof.
  intros H st. unfold call.
  destruct (handle R c (world st)) as [r w]. exists [Ev c r]. simpl.
  split; [done|]. by constructor.
Qed.

Lemma emits_bind {A B} P (m : M World A) (f : A → M World B) :
  emits P m → (∀ a, emits P (f a)) → emits P (bind m f).
Proof.
  intros Hm Hf st. unfold bind.
  destruct (Hm st) as (evs & E & HP).
  destruct (m st) as [[a|e] st1]; simpl in E.
  - destruct (Hf a st1) as (evs' & E' & HP').
    exists (evs ++ evs'). rewrite E', E, app_assoc.
    split; [done|]. by apply Forall_app.
  - by exists evs.
Qed.

Lemma emits_try_except {A} P (m : M World A) (h : exn → M World A) :
  emits P m → (∀ e, emits P (h e)) → emits P (try_except m h).
Proof.
  intros Hm Hh st. unfold try_except.
  destruct (Hm st) as (evs & E & HP).
  destruct (m st) as [[a|e] st1]; simpl in E.
  - by exists evs.
  - destruct (Hh e st1) as (evs' & E' & HP').
    exists (evs ++ evs'). rewrite E', E, app_assoc.
    split; [done|]. by apply Forall_app.
Qed.

Lemma emits_for_each {A B} P (f : B → A → M World B) l acc :
  (∀ acc x, emits P (f acc x)) → emits P (for_each f l acc).
Proof.
  intros Hf. revert acc. induction l as [|x l IH]; intros acc; simpl.
  - apply emits_ret.
  - apply emits_bind; [apply Hf|]. intros acc'. apply IH.
Qed.

(** A guarded block that starts with a call: the call is the first thing
    the run adds to the trace. *)
Lemma first_call {R A} (c : Call R) (f : R → M World A) (h : exn → M World A) :
  (∀ r, emits (λ _, True) (f r)) → (∀ e, emits (λ _, True) (h e)) →
  ∀ st, ∃ r evs,
    trace (snd (try_except (bind (call handle c) f) h st))
    = trace st ++ Ev c r :: evs.
Proof.
  intros Hf Hh st.
  destruct (handle R c (world st)) as [r w] eqn:Er.
  pose proof (emits_try_except _ _ _ (Hf r) Hh
                (mkState w (trace st ++ [Ev c r]))) as (evs & E & _).
  exists r, evs. unfold try_except, bind, call in *. rewrite Er.
  simpl in E. rewrite <- app_assoc in E. exact E.
Qed.

Lemma emits_impl {A} (P Q : Event → Prop) (m : M World A) :
  (∀ e, P e → Q e) → emits P m → emits Q m.
Proof.
  intros HPQ Hm st. destruct (Hm st) as (evs & E & HP).
  exists evs. split; [done|]. eapply Forall_impl; [exact HP|done].
Qed.

End Traces.

Ltac emits_step :=
  lazymatch goal with
  | |- emits _ (ret _) => apply emits_ret
  | |- emits _ (raise _) => apply emits_raise
  | |- emits _ (lift _) => apply emits_lift
  | |- emits _ (call _ _) => apply emits_call; intros; try done
  | |- emits _ (bind _ _) => apply emits_bind; [|intros]
  | |- emits _ (try_except _ _) => apply emits_try_except; [|intros]
  | |- emits _ (for_each _ _ _) => apply emits_for_each; intros
  | |- emits _ (if ?b then _ else _) => destruct b
  | |- emits _ (match ?x with _ => _ end) => destruct x
  end.

Ltac emits_auto := repeat (emits_step || eassumption).

Section FetcherTraces.
Context {World : Type}.
Variable handle : ∀ R, Call R → World → R * World.
Variable strftime_Ymd : Z → str.
Variable GA4_DAYS_BACK : Z.
Variable GA4_LIMIT : option Z.

Section Quiet.
(** [P] holds of every reply to the calls named in each hypothesis. *)
Variable P : Event → Prop.

Lemma check_timeout_emits self :
  (∀ r, P (Ev Now r)) → emits P (check_timeout handle self).
Proof. intros. unfold check_timeout. emits_auto. Qed.

Lemma wait_for_job_emits j n :
  (∀ r, P (Ev (JobState j) r)) → (∀ s r, P (Ev (Sleep s) r)) →
  (∀ r, P (Ev (JobCancel j) r)) →
  emits P (wait_for_job handle j n).
Proof. intros. induction n; simpl; emits_auto. Qed.

Lemma get_available_ga4_tables_emits self days_back :
  (∀ r, P (Ev Now r)) → (∀ t r, P (Ev (GetTable t) r)) →
  emits P (get_available_ga4_tables handle strftime_Ymd self days_back).
Proof. intros. unfold get_available_ga4_tables. emits_auto. Qed.

Lemma get_ga4_pageviews_minimal_emits self t :
  (∀ q b r, P (Ev (SubmitQuery (MinimalQuery q b) (500 * 10 ^ 6)) r)) →
  (∀ j s r, P (Ev (JobResult j s) r)) →
  emits P (get_ga4_pageviews_minimal handle GA4_LIMIT self t).
Proof. intros. unfold get_ga4_pageviews_minimal. emits_auto. Qed.

Lemma get_ga4_pageviews_multi_table_fallback_emits self available_tables :
  (∀ l r, P (Ev (SubmitQuery
                   (FallbackQuery
                      (slice_to available_tables (Z.max 3 GA4_DAYS_BACK)) l)
                   (1 * 10 ^ 9)) r)) →
  (∀ q b r, P (Ev (SubmitQuery (MinimalQuery q b) (500 * 10 ^ 6)) r)) →
  (∀ j r, P (Ev (JobState j) r)) → (∀ s r, P (Ev (Sleep s) r)) →
  (∀ j r, P (Ev (JobCancel j) r)) → (∀ j s r, P (Ev (JobResult j s) r)) →
  emits P (get_ga4_pageviews_multi_table_fallback
             handle GA4_DAYS_BACK GA4_LIMIT self available_tables).
Proof.
  intros. unfold get_ga4_pageviews_multi_table_fallback. emits_auto.
  - by apply wait_for_job_emits.
  - by apply get_ga4_pageviews_minimal_emits.
Qed.

End Quiet.

Lemma slice_to_take {A} (l : list A) n :
  0 ≤ n → slice_to l n = take (Z.to_nat n) l.
Proof.
  intros Hn. unfold slice_to, slice. pose proof (zlen_nonneg l).
  rewrite (clip_in_range _ 0) by lia. unfold clip.
  destruct (Z.ltb_spec n 0); [lia|]. simpl. rewrite drop_0, Z.sub_0_r.
  destruct (Z.le_ge_cases n (zlen l)).
  - by rewrite Z.min_l.
  - rewrite Z.min_r by done. unfold zlen in *.
    rewrite Nat2Z.id, !take_ge; [done|lia|lia].
Qed.

(** C7. The fallback tier sends its query over the first
    [max(3, GA4_DAYS_BACK)] entries of the list of available partitions,
    and over nothing else: every fallback query of the run names exactly
    that front of the list, so at most 3 partitions or the configured
    number of days. With an empty list no query is sent at all; otherwise
    the fallback query is the first thing sent. *)
Theorem fallback_queries_front_partitions self available_tables st :
  let k := Z.max 3 GA4_DAYS_BACK in
  ∃ evs,
    trace (snd (get_ga4_pageviews_multi_table_fallback
                  handle GA4_DAYS_BACK GA4_LIMIT self available_tables st))
    = trace st ++ evs
    ∧ Forall (λ e, ∀ tables, fallback_tables e = Some tables →
                   tables = take (Z.to_nat k) available_tables
                   ∧ tables `prefix_of` available_tables
                   ∧ zlen tables ≤ k) evs
    ∧ match available_tables with
      | [] => evs = []
      | _ :: _ => ∃ e rest, evs = e :: rest
                  ∧ fallback_tables e = Some (take (Z.to_nat k) available_tables)
      end.
Proof.
  intros k.
  assert (Hk : 0 ≤ k) by (unfold k; lia).
  assert (Hfront : ∀ tables, tables = slice_to available_tables k →
            tables = take (Z.to_nat k) available_tables
            ∧ tables `prefix_of` available_tables ∧ zlen tables ≤ k).
  { intros tables ->. rewrite slice_to_take by done.
    split; [done|]. split; [apply prefix_take|].
    unfold zlen. rewrite length_take. lia. }
  pose proof (get_ga4_pageviews_multi_table_fallback_emits
    (λ e, ∀ tables, fallback_tables e = Some tables →
          tables = take (Z.to_nat k) available_tables
          ∧ tables `prefix_of` available_tables ∧ zlen tables ≤ k)
    self available_tables) as Hem.
  destruct (Hem) with (st := st) as (evs & E & HP); try done.
  { intros l r tables [= <-]. by apply Hfront. }
  exists evs. split; [done|]. split; [done|].
  destruct available_tables as [|t ts].
  - simpl in E. apply (app_inv_head (trace st)). by rewrite app_nil_r.
  - revert E. unfold get_ga4_pageviews_multi_table_fallback.
    rewrite bool_decide_eq_false_2 by done. intros E.
    match type of E with
    | trace (snd (try_except (bind (call _ ?c) ?f) ?h _)) = _ =>
        pose proof (first_call handle c f h) as Hfc
    end.
    destruct Hfc with (st := st) as (r & evs' & E').
    + intros r. emits_auto. by apply wait_for_job_emits.
    + intros e. by apply get_ga4_pageviews_minimal_emits.
    + rewrite E' in E. apply app_inv_head in E. subst evs.
      eexists _, _. split; [done|]. simpl. by rewrite slice_to_take.
Qed.

End FetcherTraces.

(** C8, as stated, fails on a link that carries a query string and a
    fragment: both stay in the key. *)
Lemma mapping_pattern_keeps_query_and_fragment :
  build_mapping [query_link_row] !! py "acct/column/intro?ref=1#top/"
    = Some (info_of query_link_row)
  ∧ has (ch "?") (py "acct/column/intro?ref=1#top/") = true
  ∧ has (ch "#") (py "acct/column/intro?ref=1#top/") = true.
Proof. repeat split; vm_compute; reflexivity. Qed.

Lemma mapping_pattern_shape_witness :
  build_mapping [scenario_mapping_row] !! py "acct/column/intro/"
    = Some (info_of scenario_mapping_row)
  ∧ ∃ row, row ∈ [scenario_mapping_row]
    ∧ info_of scenario_mapping_row = info_of row
    ∧ py "acct/column/intro/"
      = row_course_slug row ++ py "/column/"
        ++ article_link (info_of scenario_mapping_row)
    ∧ article_link (info_of scenario_mapping_row)
      = (let link := strip_ws (row_article_link row) in
         if endswith link (py "/") then link else link ++ py "/")
    ∧ endswith (py "acct/column/intro/") (py "/") = true
    ∧ ∀ c, c ∈ [ch "?"; ch "#"] →
           c ∈ py "acct/column/intro/"
           ↔ c ∈ row_course_slug row ∨ c ∈ strip_ws (row_article_link row).
Proof.
  assert (H : build_mapping [scenario_mapping_row] !! py "acct/column/intro/"
              = Some (info_of scenario_mapping_row))
    by (vm_compute; reflexivity).
  split; [exact H|]. exact (mapping_pattern_shape _ _ _ H).
Defined.

(** ** The pipeline *)

Section PipelineFacts.
Context {World : Type}.
Variable handle : ∀ R, Call R → World → R * World.
Variable strftime_Ymd : Z → str.
Variable GA4_DAYS_BACK : Z.
Variable GA4_LIMIT : option Z.
Variables brk nfkc : str → bool.

Local Abbreviation load := (get_courses_articles_mapping_optimized handle).
Local Abbreviation fetch :=
  (get_ga4_pageviews_optimized handle strftime_Ymd GA4_DAYS_BACK GA4_LIMIT).
Local Abbreviation match_urls :=
  (match_urls_and_aggregate_optimized handle brk nfkc).
Local Abbreviation sync :=
  (sync_pageviews_optimized handle strftime_Ymd GA4_DAYS_BACK GA4_LIMIT brk nfkc).

Lemma load_emits P self :
  (∀ r, P (Ev Now r)) → (∀ t s r, P (Ev (CountRows t s) r)) →
  (∀ s r, P (Ev (BasicJoin s) r)) → (∀ l s r, P (Ev (MappingJoin l s) r)) →
  (∀ s r, P (Ev (DebugJoin s) r)) →
  emits P (load self).
Proof.
  intros. unfold get_courses_articles_mapping_optimized, check_timeout, first_row.
  emits_auto.
Qed.

Lemma fetch_emits P self days_back :
  (∀ r, P (Ev Now r)) → (∀ t r, P (Ev (GetTable t) r)) →
  (∀ q b r, P (Ev (SubmitQuery q b) r)) →
  (∀ j r, P (Ev (JobState j) r)) → (∀ s r, P (Ev (Sleep s) r)) →
  (∀ j r, P (Ev (JobCancel j) r)) → (∀ j s r, P (Ev (JobResult j s) r)) →
  emits P (fetch self days_back).
Proof.
  intros. unfold get_ga4_pageviews_optimized.
  apply emits_bind; [by apply check_timeout_emits|]. intros timed_out.
  destruct timed_out; [apply emits_raise|].
  apply emits_bind; [by apply get_available_ga4_tables_emits|].
  intros available_tables. emits_auto.
  - by apply wait_for_job_emits.
  - by apply get_ga4_pageviews_multi_table_fallback_emits.
Qed.

Lemma match_urls_emits P self ga4_data url_patterns :
  (∀ r, P (Ev Now r)) → emits P (match_urls self ga4_data url_patterns).
Proof.
  intros. unfold match_urls_and_aggregate_optimized, check_timeout. emits_auto.
Qed.

Lemma sync_on_empty_mapping self st st' :
  load self st = (Ok ∅, st') →
  sync self st = (Ok (Failed (py "No mapping data")), st').
Proof.
  intros H. unfold sync_pageviews_optimized, try_except, bind at 1.
  by rewrite H.
Qed.

(** The case the specification singles out: an existence probe that
    counts zero rows empties the mapping. *)
Lemma zero_probe_empties_mapping self st courses_count articles_count cs as_ w1 w2 w3 now :
  handle Z Now (world st) = (now, w1) →
  now - start_time self ≤ TIMEOUT_SECONDS * 1000000 →
  handle _ (CountRows (py "courses") 20) w1 = (Ok (courses_count :: cs), w2) →
  handle _ (CountRows (py "articles") 20) w2 = (Ok (articles_count :: as_), w3) →
  courses_count = 0 ∨ articles_count = 0 →
  load self st
  = (Ok ∅, mkState w3 (trace st ++ [Ev Now now;
                Ev (CountRows (py "courses") 20) (Ok (courses_count :: cs));
                Ev (CountRows (py "articles") 20) (Ok (articles_count :: as_))])).
Proof.
  intros Hn Hb Hc Ha Hz.
  unfold get_courses_articles_mapping_optimized, check_timeout, try_except,
    bind, call, ret, lift, first_row. simpl.
  rewrite Hn. simpl. destruct (Z.ltb_spec (TIMEOUT_SECONDS * 1000000)
                                 (now - start_time self)); [lia|].
  simpl. rewrite Hc. simpl. rewrite Ha. simpl.
  rewrite bool_decide_eq_true_2 by done. by rewrite <- !app_assoc.
Qed.

(** C6, as amended. When the mapping load returns an empty map the
    pipeline stops there: it returns the result [failed] with the error
    [No mapping data] and no counts, and nothing was sent to the GA4
    client. The load returns an empty map, in particular, when one of the
    two existence probes counts zero rows. *)
Theorem empty_mapping_fails_before_fetch self st :
  (∀ st', load self st = (Ok ∅, st') →
     ∃ r evs,
       sync self st = (Ok r, st')
       ∧ r = Failed (py "No mapping data")
       ∧ status r = py "failed"
       ∧ get_mapped_articles r = None
       ∧ trace st' = trace st ++ evs
       ∧ Forall (λ e, is_fetcher_call e = false) evs)
  ∧ (∀ now w1 courses_count cs w2 articles_count as_ w3,
       handle Z Now (world st) = (now, w1) →
       now - start_time self ≤ TIMEOUT_SECONDS * 1000000 →
       handle _ (CountRows (py "courses") 20) w1
       = (Ok (courses_count :: cs), w2) →
       handle _ (CountRows (py "articles") 20) w2
       = (Ok (articles_count :: as_), w3) →
       courses_count = 0 ∨ articles_count = 0 →
       fst (load self st) = Ok ∅).
Proof.
  split.
  - intros st' H.
    destruct (load_emits (λ e, is_fetcher_call e = false) self) with (st := st)
      as (evs & E & Hq); try done.
    rewrite H in E. simpl in E.
    exists (Failed (py "No mapping data")), evs.
    split; [by apply sync_on_empty_mapping|]. by repeat split.
  - intros now w1 c cs w2 a as_ w3 Hn Hb Hc Ha Hz.
    by erewrite zero_probe_empties_mapping.
Qed.

(** An empty fetch, like an empty mapping, is a failure. *)
Lemma sync_on_empty_fetch self st st1 st2 mapping :
  load self st = (Ok mapping, st1) → mapping ≠ ∅ →
  fetch self (Some GA4_DAYS_BACK) st1 = (Ok [], st2) →
  sync self st = (Ok (Failed (py "No GA4 data")), st2).
Proof.
  intros H1 Hm H2. unfold sync_pageviews_optimized, try_except, bind at 1.
  rewrite H1. rewrite bool_decide_eq_false_2 by done.
  unfold bind at 1. by rewrite H2.
Qed.

(** C10. When the mapping and the fetched rows are non-empty and the
    reconciler returns no update, the pipeline sends no update statement
    at all, reads the clock once more and returns the result [success],
    not [failed], with [updated_records = 0]. *)
Theorem no_updates_is_success self st st1 st2 st3 mapping ga4_data :
  load self st = (Ok mapping, st1) → mapping ≠ ∅ →
  fetch self (Some GA4_DAYS_BACK) st1 = (Ok ga4_data, st2) → ga4_data ≠ [] →
  match_urls self ga4_data mapping st2 = (Ok [], st3) →
  ∃ r st' evs,
    sync self st = (Ok r, st')
    ∧ r = Success (zlen ga4_data) (Z.of_nat (size mapping)) 0
                  (fst (handle Z Now (world st3)) - start_time self)
    ∧ status r = py "success"
    ∧ status r ≠ py "failed"
    ∧ get_updated_records r = Some 0
    ∧ trace st' = trace st ++ evs
    ∧ Forall (λ e, is_update_statement e = false) evs.
Proof.
  intros H1 Hm H2 Hd H3.
  destruct (load_emits (λ e, is_update_statement e = false) self)
    with (st := st) as (evs1 & E1 & Hq1); try done.
  destruct (fetch_emits (λ e, is_update_statement e = false) self
              (Some GA4_DAYS_BACK)) with (st := st1) as (evs2 & E2 & Hq2);
    try done.
  destruct (match_urls_emits (λ e, is_update_statement e = false) self
              ga4_data mapping) with (st := st2) as (evs3 & E3 & Hq3);
    try done.
  rewrite H1 in E1. rewrite H2 in E2. rewrite H3 in E3. simpl in E1, E2, E3.
  destruct (handle Z Now (world st3)) as [now w] eqn:En.
  eexists _, (mkState w (trace st3 ++ [Ev Now now])),
    (evs1 ++ evs2 ++ evs3 ++ [Ev Now now]).
  split; [|split; [reflexivity|]].
  - unfold sync_pageviews_optimized, try_except, bind at 1. rewrite H1.
    rewrite bool_decide_eq_false_2 by done.
    unfold bind at 1. rewrite H2.
    rewrite bool_decide_eq_false_2 by done.
    unfold bind at 1. rewrite H3.
    rewrite bool_decide_eq_true_2 by done.
    unfold bind, ret, call. by rewrite En.
  - split; [done|]. split; [done|]. split; [done|]. split.
    + simpl. rewrite E3, E2, E1. by rewrite <- !app_assoc.
    + rewrite !Forall_app. repeat split; try done. by constructor.
Qed.

End PipelineFacts.

(** ** The batch dispatcher *)

Lemma rows_sent_app evs1 evs2 : rows_sent (evs1 ++ evs2) = rows_sent evs1 ++ rows_sent evs2.
Proof. unfold rows_sent. by rewrite fmap_app, concat_app. Qed.

Lemma rows_sent_cons e evs : rows_sent (e :: evs) = update_rows e ++ rows_sent evs.
Proof. done. Qed.

Section DispatcherFacts.
Context {World : Type}.
Variable handle : ∀ R, Call R → World → R * World.

Local Abbreviation dispatch := (update_pageviews_batch_optimized handle).

Lemma run_call {R A} (c : Call R) (f : R → M World A) st :
  bind (call handle c) f st
  = f (fst (handle R c (world st)))
      (mkState (snd (handle R c (world st)))
               (trace st ++ [Ev c (fst (handle R c (world st)))])).
Proof. unfold bind, call. by destruct (handle R c (world st)). Qed.

Lemma run_check_timeout {A} self (f : bool → M World A) st :
  bind (check_timeout handle self) f st
  = f (TIMEOUT_SECONDS * 1000000
         <? fst (handle Z Now (world st)) - start_time self)
      (mkState (snd (handle Z Now (world st)))
               (trace st ++ [Ev Now (fst (handle Z Now (world st)))])).
Proof.
  unfold check_timeout, bind, call, ret. by destruct (handle Z Now (world st)).
Qed.

(** The per-row loop never raises; it sends the row statements of a front
    of the list, in order, and of the whole list unless it logged that it
    ran out of time. A row that fails is logged and the loop goes on. *)
Lemma individual_loop_run self updates :
  ∀ count st, ∃ count' st' evs,
    individual_loop handle self updates count st = (Ok count', st')
    ∧ trace st' = trace st ++ evs
    ∧ rows_sent evs `prefix_of` updates
    ∧ (Forall (λ e, is_individual_timeout e = false) evs →
       rows_sent evs = updates).
Proof.
  induction updates as [|update rest IH]; intros count st.
  - exists count, st, []. simpl. rewrite app_nil_r. by repeat split.
  - cbn [individual_loop]. rewrite run_check_timeout.
    set (now := fst (handle Z Now (world st))).
    set (st1 := mkState _ _).
    destruct (_ <? _).
    + rewrite run_call. unfold ret. eexists _, _, [_; _]. split; [done|].
      cbn [trace]. subst st1. cbn [trace]. rewrite <- app_assoc.
      split; [done|]. split; [apply prefix_nil|].
      intros H. rewrite !Forall_cons in H. by destruct H as (_ & H & _).
    + rewrite run_call.
      set (r := fst (handle _ (RowUpdate update 20) (world st1))).
      set (st2 := mkState _ _).
      destruct r as [[]|e] eqn:Er.
      * destruct (IH (count + 1) st2) as (c' & st' & evs & -> & E & Hp & Hall).
        exists c', st', (Ev Now now :: Ev (RowUpdate update 20) r :: evs).
        split; [done|]. split.
        { rewrite E. subst st2 st1. cbn [trace]. rewrite Er.
          by rewrite <- !app_assoc. }
        rewrite !rows_sent_cons. cbn [update_rows app].
        split; [by apply prefix_cons|].
        intros H. rewrite !Forall_cons in H. destruct H as (_ & _ & H).
        by rewrite Hall.
      * rewrite run_call. set (st3 := mkState _ _).
        destruct (IH count st3) as (c' & st' & evs & -> & E & Hp & Hall).
        exists c', st',
          (Ev Now now :: Ev (RowUpdate update 20) r
           :: Ev (Log (RowError (u_article_id update)))
                 (fst (handle _ (Log (RowError (u_article_id update)))
                         (world st2))) :: evs).
        split; [done|]. split.
        { rewrite E. subst st3 st2 st1. cbn [trace]. rewrite Er.
          by rewrite <- !app_assoc. }
        rewrite !rows_sent_cons. cbn [update_rows app].
        split; [by apply prefix_cons|].
        intros H. rewrite !Forall_cons in H. destruct H as (_ & _ & _ & H).
        by rewrite Hall.
Qed.

Lemma individual_run self updates st :
  ∃ st' evs,
    update_pageviews_individual_optimized handle self updates st = (Ok tt, st')
    ∧ trace st' = trace st ++ evs
    ∧ rows_sent evs `prefix_of` updates
    ∧ (Forall (λ e, is_individual_timeout e = false) evs →
       rows_sent evs = updates).
Proof.
  unfold update_pageviews_individual_optimized, bind at 1.
  destruct (individual_loop_run self updates 0 st)
    as (c' & st1 & evs & -> & E & Hp & Hall).
  unfold call. destruct (handle _ _ (world st1)) as [[] w] eqn:El.
  exists (mkState w (trace st1 ++ [Ev (Log (IndividualUpdated c')) tt])),
    (evs ++ [Ev (Log (IndividualUpdated c')) tt]).
  split; [done|]. cbn [trace]. rewrite E, <- app_assoc. split; [done|].
  rewrite rows_sent_app. cbn. rewrite app_nil_r. split; [done|].
  intros H. apply Forall_app in H as [H _]. by apply Hall.
Qed.

(** One pass of the batch loop never raises. *)
Lemma update_batch_ok self total n numbered st :
  ∃ n' st', update_batch handle self total n numbered st = (Ok n', st').
Proof.
  destruct numbered as [batch_no batch]. unfold update_batch, try_except.
  rewrite run_call.
  destruct (fst (handle _ (BulkUpdate batch 75) (world st))) as [[]|e].
  - cbn [lift]. unfold bind at 1, ret at 1. rewrite run_call. by eexists _, _.
  - cbn [lift]. unfold bind at 1, raise. rewrite run_call.
    unfold bind at 1.
    edestruct individual_run as (st' & evs & -> & _). by eexists _, _.
Qed.

Lemma batch_loop_ok self total batches n st :
  ∃ n' st', for_each (update_batch handle self total) batches n st = (Ok n', st').
Proof.
  revert n st. induction batches as [|b bs IH]; intros n st.
  - by eexists _, _.
  - cbn [for_each]. unfold bind.
    destruct (update_batch_ok self total n b st) as (n1 & st1 & ->). apply IH.
Qed.

(** C2, as amended. Whatever statements the warehouse refuses, the batch
    dispatcher returns normally, unless the time budget is already spent
    when it starts on a non-empty list: then it raises [TimeoutError]
    before sending anything. When the bulk statement of a batch fails, one
    statement per update of that batch is sent, in list order, a failing
    row being passed over; the rows stop short of the whole batch only when
    the time budget runs out in between. *)
Theorem dispatcher_survives_failed_statements self :
  (∀ ups st, ups = [] ∨ within_budget handle self st →
     ∃ st', dispatch self ups st = (Ok tt, st'))
  ∧ (∀ ups st, ups ≠ [] → ¬ within_budget handle self st →
       dispatch self ups st
       = (Raise (TimeoutError (py "bulk update")),
          mkState (snd (handle Z Now (world st)))
                  (trace st ++ [Ev Now (fst (handle Z Now (world st)))])))
  ∧ (∀ total n batch_no batch st e,
       fst (handle _ (BulkUpdate batch 75) (world st)) = Raise e →
       ∃ n' st' evs,
         update_batch handle self total n (batch_no, batch) st = (Ok n', st')
         ∧ trace st' = trace st ++ Ev (BulkUpdate batch 75) (Raise e) :: evs
         ∧ rows_sent evs `prefix_of` batch
         ∧ (Forall (λ e, is_individual_timeout e = false) evs →
            rows_sent evs = batch)).
Proof.
  split; [|split].
  - intros ups st H. unfold update_pageviews_batch_optimized.
    case_bool_decide as Hu.
    { unfold call. destruct (handle _ _ (world st)) as [[] w]. by eexists. }
    destruct H as [?|H]; [done|].
    rewrite run_check_timeout. unfold within_budget in H.
    destruct (Z.ltb_spec (TIMEOUT_SECONDS * 1000000)
                (fst (handle Z Now (world st)) - start_time self)); [lia|].
    unfold bind.
    edestruct batch_loop_ok as (n' & st1 & ->).
    unfold call. destruct (handle _ _ (world st1)) as [[] w]. by eexists.
  - intros ups st Hu H. unfold update_pageviews_batch_optimized.
    rewrite bool_decide_eq_false_2 by done.
    rewrite run_check_timeout. unfold within_budget in H.
    destruct (Z.ltb_spec (TIMEOUT_SECONDS * 1000000)
                (fst (handle Z Now (world st)) - start_time self)); [done|lia].
  - intros total n batch_no batch st e Hr.
    unfold update_batch, try_except. rewrite run_call, Hr.
    cbn [lift]. unfold bind at 1, raise. rewrite run_call. cbn [world trace].
    set (lg := fst (handle _ (Log (BatchError batch_no)) _)).
    set (st2 := mkState _ _).
    unfold bind at 1.
    destruct (individual_run self batch st2) as (st' & evs & -> & E & Hp & Hall).
    unfold ret.
    exists (n + zlen batch), st', (Ev (Log (BatchError batch_no)) lg :: evs).
    split; [done|]. split.
    { rewrite E. subst st2. cbn [trace]. by rewrite <- !app_assoc. }
    rewrite rows_sent_cons. cbn [update_rows app]. split; [done|].
    intros H. apply Forall_cons in H as [_ H]. by apply Hall.
Qed.

End DispatcherFacts.

(** ** The reconciler on the scenario of the specification *)

Lemma calm_within_budget st :
  world st ≤ 480000000 → within_budget (scripted calm) self0 st.
Proof. unfold within_budget. simpl. unfold TIMEOUT_SECONDS. lia. Qed.

(** C1, as stated, fails: the stage is a function of its two arguments,
    so the second run on identical rows and an identical snapshot repeats
    the update of the first. *)
Lemma second_run_repeats_first :
  fst (calm_match_urls [scenario_row "www.foresight.jp"] scenario_mapping state0)
    = Ok [scenario_update]
  ∧ fst (calm_match_urls [scenario_row "www.foresight.jp"] scenario_mapping
           (snd (calm_match_urls [scenario_row "www.foresight.jp"]
                   scenario_mapping state0)))
    = Ok [scenario_update].
Proof. split; vm_compute; reflexivity. Qed.

Lemma scenario_one_pattern : one_pattern_per_article scenario_mapping.
Proof.
  intros k1 k2 i1 i2 H1 H2 _. unfold scenario_mapping in *.
  apply lookup_singleton_Some in H1 as [<- _].
  by apply lookup_singleton_Some in H2 as [<- _].
Qed.

Lemma scenario_brought_up_to_date :
  brought_up_to_date [scenario_update] scenario_mapping scenario_mapping_after.
Proof.
  intros k. unfold scenario_mapping, scenario_mapping_after.
  destruct (decide (k = py "acct/column/intro/")) as [->|Hne].
  - rewrite !lookup_singleton_eq. split; [done|]. split.
    + intros u ->%list_elem_of_singleton _. by vm_compute.
    + intros H. exfalso. by apply (H scenario_update); [left|].
  - by rewrite !lookup_singleton_ne.
Qed.

Lemma second_run_after_refresh_witness :
  calm_match_urls [scenario_row "www.foresight.jp"] scenario_mapping state0
    = (Ok [scenario_update], mkState 0 [Ev Now 0])
  ∧ one_pattern_per_article scenario_mapping
  ∧ brought_up_to_date [scenario_update] scenario_mapping scenario_mapping_after
  ∧ within_budget (scripted calm) self0 (mkState 0 [Ev Now 0])
  ∧ (∃ st2', calm_match_urls [scenario_row "www.foresight.jp"]
               scenario_mapping_after (mkState 0 [Ev Now 0]) = (Ok [], st2'))
  ∧ (∃ st2', calm_match_urls [scenario_row "www.foresight.jp"]
               scenario_mapping (mkState 0 [Ev Now 0])
             = (Ok [scenario_update], st2')).
Proof.
  assert (H1 : calm_match_urls [scenario_row "www.foresight.jp"]
                 scenario_mapping state0
               = (Ok [scenario_update], mkState 0 [Ev Now 0]))
    by (vm_compute; reflexivity).
  assert (H4 : within_budget (scripted calm) self0 (mkState 0 [Ev Now 0]))
    by (apply calm_within_budget; simpl; lia).
  split; [exact H1|]. split; [exact scenario_one_pattern|].
  split; [exact scenario_brought_up_to_date|]. split; [exact H4|].
  exact (second_run_after_refresh (scripted calm) never never self0 _ _ _ _ _ _ _
           H1 scenario_one_pattern scenario_brought_up_to_date H4).
Defined.

Lemma delta_iff_material_witness :
  calm_match_urls [scenario_row "www.foresight.jp"] scenario_mapping state0
    = (Ok [scenario_update], mkState 0 [Ev Now 0])
  ∧ ∃ emitted,
      [scenario_update] = concat emitted
      ∧ Forall2 (emission_rule scenario_mapping)
                (aggregate_paths never never [scenario_row "www.foresight.jp"])
                emitted.
Proof.
  assert (H1 : calm_match_urls [scenario_row "www.foresight.jp"]
                 scenario_mapping state0
               = (Ok [scenario_update], mkState 0 [Ev Now 0]))
    by (vm_compute; reflexivity).
  split; [exact H1|].
  exact (delta_iff_material (scripted calm) never never self0 _ _ _ _ _ H1).
Defined.

(** C5, as stated, fails twice over. The host of the scenario is not the
    content host, so its row is dropped and no update comes out; and on the
    content host the average is 900000 / 30000 = 30.0, not 10.0. *)
Lemma scenario_on_example_host_yields_nothing :
  fst (calm_match_urls [scenario_row "example.com"] scenario_mapping state0)
    = Ok []
  ∧ fst (calm_match_urls [scenario_row "www.foresight.jp"] scenario_mapping state0)
    = Ok [scenario_update]
  ∧ u_avg_engagement_time scenario_update = PyFloat float_30
  ∧ SFcompare float_30 float_10 = Some Gt
  ∧ int_truediv 100 10 = Ok float_10.
Proof. repeat split; vm_compute; reflexivity. Qed.

Lemma scenario_update_on_content_host_witness :
  scenario_mapping !! py "acct/column/intro/" = Some scenario_info
  ∧ current_pageviews scenario_info = 100
  ∧ within_budget (scripted calm) self0 state0
  ∧ ∃ u st',
      calm_match_urls [scenario_row "www.foresight.jp"] scenario_mapping state0
      = (Ok [u], st')
      ∧ u_article_id u = article_id scenario_info
      ∧ u_pageviews u = 120
      ∧ u_avg_engagement_time u = PyFloat float_30
      ∧ avg_engagement_time_of (mkMetrics 120 40 30 900000 30)
        = Ok (u_avg_engagement_time u)
      ∧ int_truediv 900000 (30 * 1000) = Ok float_30
      ∧ ∀ metrics,
          avg_engagement_time_of metrics
          = if 0 <? m_total_sessions metrics
            then match int_truediv (m_total_engagement_time_msec metrics)
                                   (m_total_sessions metrics * 1000) with
                 | Ok q => Ok (PyFloat q)
                 | Raise e => Raise e
                 end
            else Ok (PyInt 0).
Proof.
  assert (H1 : scenario_mapping !! py "acct/column/intro/" = Some scenario_info)
    by (vm_compute; reflexivity).
  assert (H3 : within_budget (scripted calm) self0 state0)
    by (apply calm_within_budget; simpl; lia).
  split; [exact H1|]. split; [reflexivity|]. split; [exact H3|].
  exact (scenario_update_on_content_host (scripted calm) never never self0
           scenario_mapping scenario_info state0 H1 eq_refl H3).
Defined.

(** ** The pipeline in scripted worlds *)

(** C6, as stated, fails on the count: the result of the failed run has
    no [mapped_articles] entry, so it does not report 0. *)
Lemma failed_result_reports_no_count :
  fst (run_load no_courses state0) = Ok ∅
  ∧ fst (run_sync no_courses state0) = Ok (Failed (py "No mapping data"))
  ∧ get_mapped_articles (Failed (py "No mapping data")) = None.
Proof. repeat split; vm_compute; reflexivity. Qed.

Lemma empty_mapping_fails_before_fetch_witness :
  run_load no_courses state0 = (Ok ∅, snd (run_load no_courses state0))
  ∧ ∃ r evs,
      run_sync no_courses state0 = (Ok r, snd (run_load no_courses state0))
      ∧ r = Failed (py "No mapping data")
      ∧ status r = py "failed"
      ∧ get_mapped_articles r = None
      ∧ trace (snd (run_load no_courses state0)) = trace state0 ++ evs
      ∧ Forall (λ e, is_fetcher_call e = false) evs.
Proof.
  assert (H : run_load no_courses state0
              = (Ok ∅, snd (run_load no_courses state0)))
    by (vm_compute; reflexivity).
  split; [exact H|].
  exact (proj1 (empty_mapping_fails_before_fetch (scripted no_courses) day 7
                  None never never self0 state0) _ H).
Defined.

Lemma settled_mapping_nonempty : scenario_mapping_after ≠ ∅.
Proof.
  intros E.
  assert (H : scenario_mapping_after !! py "acct/column/intro/"
              = Some scenario_info_after) by (vm_compute; reflexivity).
  rewrite E in H. by rewrite lookup_empty in H.
Qed.

Lemma no_updates_is_success_witness :
  let st1 := snd (run_load settled state0) in
  let st2 := snd (run_fetch settled st1) in
  let st3 := snd (run_match_urls settled [scenario_row "www.foresight.jp"]
                    scenario_mapping_after st2) in
  run_load settled state0 = (Ok scenario_mapping_after, st1)
  ∧ scenario_mapping_after ≠ ∅
  ∧ run_fetch settled st1 = (Ok [scenario_row "www.foresight.jp"], st2)
  ∧ [scenario_row "www.foresight.jp"] ≠ []
  ∧ run_match_urls settled [scenario_row "www.foresight.jp"]
      scenario_mapping_after st2 = (Ok [], st3)
  ∧ ∃ r st' evs,
      run_sync settled state0 = (Ok r, st')
      ∧ r = Success (zlen [scenario_row "www.foresight.jp"])
                    (Z.of_nat (size scenario_mapping_after)) 0
                    (fst (scripted settled Z Now (world st3)) - start_time self0)
      ∧ status r = py "success"
      ∧ status r ≠ py "failed"
      ∧ get_updated_records r = Some 0
      ∧ trace st' = trace state0 ++ evs
      ∧ Forall (λ e, is_update_statement e = false) evs.
Proof.
  intros st1 st2 st3.
  assert (H1 : run_load settled state0 = (Ok scenario_mapping_after, st1))
    by (vm_compute; reflexivity).
  assert (H2 : run_fetch settled st1
               = (Ok [scenario_row "www.foresight.jp"], st2))
    by (vm_compute; reflexivity).
  assert (H3 : run_match_urls settled [scenario_row "www.foresight.jp"]
                 scenario_mapping_after st2 = (Ok [], st3))
    by (vm_compute; reflexivity).
  assert (H4 : [scenario_row "www.foresight.jp"] ≠ []) by done.
  split; [exact H1|]. split; [exact settled_mapping_nonempty|].
  split; [exact H2|]. split; [exact H4|]. split; [exact H3|].
  exact (no_updates_is_success (scripted settled) day 7 None never never self0
           state0 st1 st2 st3 _ _ H1 settled_mapping_nonempty H2 H4 H3).
Defined.

(** C2, as stated, fails. The dispatcher returns nothing; the total it
    reports counts every update of a batch that went through the fallback,
    refused rows included (3 reported, 2 applied); and when the time budget
    runs out during the fallback the remaining rows are not sent at all
    (1 of 3 sent, the third would have been accepted). *)
Lemma reported_total_counts_refused_rows :
  fst (run_dispatch one_bad_row three_updates) = Ok tt
  ∧ rows_applied (trace (snd (run_dispatch one_bad_row three_updates)))
    = [update_for "a1"; update_for "a3"]
  ∧ reported_totals (trace (snd (run_dispatch one_bad_row three_updates))) = [3]
  ∧ fst (run_dispatch slow three_updates) = Ok tt
  ∧ rows_sent (trace (snd (run_dispatch slow three_updates)))
    = [update_for "a1"]
  ∧ reported_totals (trace (snd (run_dispatch slow three_updates))) = [3].
Proof. repeat split; vm_compute; reflexivity. Qed.

Lemma dispatcher_survives_failed_statements_witness :
  within_budget (scripted one_bad_row) self0 state0
  ∧ (∃ st', run_dispatch one_bad_row three_updates = (Ok tt, st'))
  ∧ fst (scripted one_bad_row _ (BulkUpdate three_updates 75) (world state0))
    = Raise (RemoteError (py "malformed row"))
  ∧ ∃ n' st' evs,
      update_batch (scripted one_bad_row) self0 3 0 (1, three_updates) state0
      = (Ok n', st')
      ∧ trace st'
        = trace state0
          ++ Ev (BulkUpdate three_updates 75)
                (Raise (RemoteError (py "malformed row"))) :: evs
      ∧ rows_sent evs `prefix_of` three_updates
      ∧ (Forall (λ e, is_individual_timeout e = false) evs →
         rows_sent evs = three_updates).
Proof.
  assert (H1 : within_budget (scripted one_bad_row) self0 state0)
    by (unfold within_budget; simpl; unfold TIMEOUT_SECONDS; lia).
  assert (H2 : fst (scripted one_bad_row _ (BulkUpdate three_updates 75)
                      (world state0))
               = Raise (RemoteError (py "malformed row"))) by reflexivity.
  pose proof (dispatcher_survives_failed_statements (scripted one_bad_row) self0)
    as (Hok & _ & Hfallback).
  split; [exact H1|]. split; [exact (Hok three_updates state0 (or_intror H1))|].
  split; [exact H2|]. exact (Hfallback 3 0 1 three_updates state0 _ H2).
Defined.

(** * Further properties of the code *)

(** ** The mapping built by the loader *)

Lemma build_mapping_from (back : list MappingRow) (mapping : gmap str ArticleInfo) k :
  (∀ row, row ∈ back → pattern_of row ≠ k) →
  foldl (λ mapping row, <[pattern_of row := info_of row]> mapping) mapping back !! k
  = mapping !! k.
Proof.
  revert mapping. induction back as [|row back IH]; intros mapping H; [done|].
  cbn [foldl]. rewrite IH.
  - apply lookup_insert_ne, H. by left.
  - intros row' Hin. apply H. by right.
Qed.

Lemma build_mapping_size rows : (size (build_mapping rows) ≤ length rows)%nat.
Proof.
  induction rows as [|row rows IH] using rev_ind; [done|].
  rewrite build_mapping_snoc, length_app. simpl.
  destruct (build_mapping rows !! pattern_of row) eqn:E.
  - rewrite map_size_insert_Some by done. lia.
  - rewrite map_size_insert_None by done. lia.
Qed.

(** The mapping is a dict filled row by row: its keys are exactly the
    patterns of the rows, a pattern that several rows share keeps the entry
    of the last of them, so the mapping has at most as many entries as
    there are rows, and it is empty only when there are no rows. *)
Theorem build_mapping_last_row_wins rows :
  (∀ pattern, is_Some (build_mapping rows !! pattern)
              ↔ ∃ row, row ∈ rows ∧ pattern = pattern_of row)
  ∧ (∀ front row back,
       rows = front ++ row :: back →
       (∀ row', row' ∈ back → pattern_of row' ≠ pattern_of row) →
       build_mapping rows !! pattern_of row = Some (info_of row))
  ∧ (size (build_mapping rows) ≤ length rows)%nat
  ∧ (build_mapping rows = ∅ ↔ rows = []).
Proof.
  split; [|split; [|split]].
  - intros pattern. split.
    + intros [info H]. apply build_mapping_lookup in H as (row & Hin & -> & _).
      by exists row.
    + intros (row & Hin & ->).
      induction rows as [|row' rows IH] using rev_ind;
        [by apply elem_of_nil in Hin|].
      rewrite build_mapping_snoc.
      destruct (decide (pattern_of row' = pattern_of row)) as [E|Hne].
      * rewrite E, lookup_insert_eq. by eexists.
      * rewrite lookup_insert_ne by done. apply IH.
        apply elem_of_app in Hin as [Hin|Hin]; [done|].
        apply list_elem_of_singleton in Hin. congruence.
  - intros front row back -> Hback. unfold build_mapping.
    rewrite foldl_app. cbn [foldl]. rewrite build_mapping_from by done.
    apply lookup_insert_eq.
  - apply build_mapping_size.
  - split; [|by intros ->].
    destruct rows as [|row rows _] using rev_ind; [done|].
    rewrite build_mapping_snoc. intros H. by apply insert_non_empty in H.
Qed.

(** ** The aggregation of the raw rows *)

Lemma dict_get_set {V} (d : list (str * V)) k v k' :
  dict_get (dict_set d k v) k'
  = if decide (k = k') then Some v else dict_get d k'.
Proof.
  induction d as [|[k0 v0] d IH]; cbn [dict_set dict_get].
  - done.
  - destruct (decide (k0 = k)) as [->|Hne]; cbn [dict_get].
    + by destruct (decide (k = k')).
    + rewrite IH. destruct (decide (k0 = k')) as [->|]; [|done].
      by rewrite decide_False.
Qed.

Lemma dict_get_elem {V} (d : list (str * V)) k v :
  NoDup (fst <$> d) → (k, v) ∈ d → dict_get d k = Some v.
Proof.
  induction d as [|[k0 v0] d IH]; [by intros _ ?%elem_of_nil|].
  rewrite fmap_cons, NoDup_cons. cbn [fst dict_get].
  intros [Hk Hd] [[= -> ->]|Hin]%elem_of_cons.
  - by rewrite decide_True.
  - rewrite decide_False; [by apply IH|].
    intros ->. apply Hk. apply list_elem_of_fmap. by exists (k, v).
Qed.

Lemma total_snoc field rows row :
  total field (rows ++ [row]) = total field rows + field row.
Proof.
  unfold total. rewrite fmap_app, foldr_app.
  induction (field <$> rows) as [|z zs IH]; simpl in *; lia.
Qed.

Lemma sum_metrics_snoc rows row :
  sum_metrics (rows ++ [row]) = add_item (sum_metrics rows) row.
Proof. unfold sum_metrics, add_item. cbn -[total]. by rewrite !total_snoc. Qed.

Lemma first_occurrences_snoc l k :
  first_occurrences (l ++ [k])
  = if decide (k ∈ first_occurrences l) then first_occurrences l
    else first_occurrences l ++ [k].
Proof.
  unfold first_occurrences. rewrite reverse_snoc. cbn [remove_dups].
  destruct (decide_rel elem_of k (reverse l)) as [Hin|Hnin].
  - rewrite decide_True; [done|].
    by rewrite elem_of_reverse, elem_of_remove_dups.
  - rewrite decide_False.
    + by rewrite reverse_cons.
    + by rewrite elem_of_reverse, elem_of_remove_dups.
Qed.

Section AggregationFacts.
Variables brk nfkc : str → bool.

Local Abbreviation normalize := (normalize_ga4_url brk nfkc).

Lemma normalize_nonempty url : normalize url ≠ Some [].
Proof.
  intros (r & s & _ & _ & _ & _ & _ & H)%normalize_inv.
  by destruct s.
Qed.

Lemma aggregate_snoc ga4_data row :
  foldl (aggregate_item brk nfkc) [] (ga4_data ++ [row])
  = aggregate_item brk nfkc (foldl (aggregate_item brk nfkc) [] ga4_data) row.
Proof. by rewrite foldl_app. Qed.

Lemma aggregate_lookup ga4_data path :
  dict_get (foldl (aggregate_item brk nfkc) [] ga4_data) path
  = match rows_of_path brk nfkc path ga4_data with
    | [] => None
    | _ :: _ => Some (sum_metrics (rows_of_path brk nfkc path ga4_data))
    end.
Proof.
  induction ga4_data as [|row ga4_data IH] using rev_ind; [done|].
  rewrite aggregate_snoc. unfold rows_of_path in *. rewrite filter_app.
  set (d := foldl (aggregate_item brk nfkc) [] ga4_data) in *.
  set (rows := filter _ ga4_data) in *.
  unfold aggregate_item.
  destruct (normalize (page_location row)) as [p|] eqn:Ep; cycle 1.
  { rewrite filter_cons_False by (by rewrite Ep).
    rewrite filter_nil, app_nil_r. exact IH. }
  rewrite bool_decide_eq_false_2
    by (intros ->; by apply (normalize_nonempty (page_location row))).
  rewrite dict_get_set.
  destruct (decide (p = path)) as [->|Hne].
  - rewrite filter_cons_True by done. rewrite filter_nil.
    rewrite IH. rewrite sum_metrics_snoc.
    destruct rows as [|r rows']; [done|]. done.
  - rewrite filter_cons_False by (rewrite Ep; congruence).
    rewrite filter_nil, app_nil_r. exact IH.
Qed.

Lemma aggregate_keys ga4_data :
  fst <$> foldl (aggregate_item brk nfkc) [] ga4_data
  = first_occurrences (normalized_paths brk nfkc ga4_data).
Proof.
  induction ga4_data as [|row ga4_data IH] using rev_ind; [done|].
  rewrite aggregate_snoc. unfold normalized_paths in *. rewrite omap_app.
  set (d := foldl (aggregate_item brk nfkc) [] ga4_data) in *.
  unfold aggregate_item. cbn [omap list_omap].
  destruct (normalize (page_location row)) as [p|] eqn:Ep; cycle 1.
  { by rewrite app_nil_r. }
  rewrite bool_decide_eq_false_2
    by (intros ->; by apply (normalize_nonempty (page_location row))).
  rewrite dict_set_keys, first_occurrences_snoc, IH.
  by destruct (decide _).
Qed.

(** [path_metrics] holds, for each path that some raw row normalises to,
    the sums of the five counters over all the rows of that path, and
    nothing for any other path; its paths come in the order in which they
    first occur among the rows. The batches of 1000 play no part. *)
Theorem aggregate_paths_sums ga4_data :
  (∀ path,
     dict_get (aggregate_paths brk nfkc ga4_data) path
     = match rows_of_path brk nfkc path ga4_data with
       | [] => None
       | _ :: _ => Some (sum_metrics (rows_of_path brk nfkc path ga4_data))
       end)
  ∧ fst <$> aggregate_paths brk nfkc ga4_data
    = first_occurrences (normalized_paths brk nfkc ga4_data).
Proof.
  rewrite aggregate_paths_flat. split.
  - intros path. apply aggregate_lookup.
  - apply aggregate_keys.
Qed.

End AggregationFacts.

(** ** What the reconciler hands to the dispatcher *)

Lemma dict_set_length {V} (d : list (str * V)) k v :
  (length (dict_set d k v) ≤ S (length d))%nat.
Proof.
  induction d as [|[k0 v0] d IH]; cbn [dict_set length]; [lia|].
  destruct (decide (k0 = k)); cbn [length]; lia.
Qed.

Lemma title_excerpt_length title : zlen (title_excerpt title) ≤ 53.
Proof.
  unfold title_excerpt. destruct (Z.ltb_spec 50 (zlen title)); [|lia].
  rewrite zlen_app, slice_to_take by lia.
  change (zlen (py "...")) with 3. unfold zlen in *. rewrite length_take. lia.
Qed.

Lemma emitted_length url_patterns items emitted :
  Forall2 (emission_rule url_patterns) items emitted →
  (length (concat emitted) ≤ length items)%nat.
Proof.
  induction 1 as [|item e items emitted Hrule Hall IH]; [done|].
  cbn [concat]. rewrite length_app. cbn [length].
  assert (length e ≤ 1)%nat; [|lia].
  unfold emission_rule in Hrule. destruct (url_patterns !! item.1).
  - destruct Hrule as (avg & _ & [[_ ->]|[_ ->]]); simpl; lia.
  - subst e. simpl. lia.
Qed.

Section ReconcilerOutput.
Context {World : Type}.
Variable handle : ∀ R, Call R → World → R * World.
Variables brk nfkc : str → bool.

Local Abbreviation match_urls :=
  (match_urls_and_aggregate_optimized handle brk nfkc).

Lemma aggregate_length ga4_data :
  (length (aggregate_paths brk nfkc ga4_data) ≤ length ga4_data)%nat.
Proof.
  rewrite aggregate_paths_flat.
  induction ga4_data as [|row ga4_data IH] using rev_ind; [done|].
  rewrite aggregate_snoc, length_app. cbn [length].
  set (d := foldl (aggregate_item brk nfkc) [] ga4_data) in *.
  unfold aggregate_item. destruct (normalize_ga4_url _ _ _); [|lia].
  case_bool_decide; [lia|].
  etrans; [apply dict_set_length|lia].
Qed.

(** Every update that the reconciler returns is for an entry of the
    mapping whose pattern some raw row normalises to: it names the article
    and the course of that entry, carries the sums of the page views and of
    the two session counters over all the rows of that pattern, and the
    average computed from the summed engagement time and sessions; its
    title has at most 53 characters. There are no more updates than raw
    rows. *)
Theorem updates_carry_the_sums self ga4_data url_patterns st ups st' :
  match_urls self ga4_data url_patterns st = (Ok ups, st') →
  (length ups ≤ length ga4_data)%nat
  ∧ ∀ u, u ∈ ups →
      ∃ path info,
        let rows := rows_of_path brk nfkc path ga4_data in
        url_patterns !! path = Some info
        ∧ rows ≠ []
        ∧ u_article_id u = article_id info
        ∧ u_course_slug u = course_slug info
        ∧ u_pageviews u = total pageviews rows
        ∧ u_organic_sessions u = total organic_sessions rows
        ∧ u_engaged_sessions u = total engaged_sessions rows
        ∧ avg_engagement_time_of (sum_metrics rows)
          = Ok (u_avg_engagement_time u)
        ∧ zlen (u_article_title u) ≤ 53.
Proof.
  intros H%match_urls_ok. unfold reconcile, match_paths in H.
  apply match_paths_from in H as (emitted & -> & Hall). cbn [app].
  split.
  { etrans; [by eapply emitted_length|apply aggregate_length]. }
  intros u Hu.
  destruct (emitted_updates _ _ _ Hall) as [_ Hbwd].
  destruct (Hbwd u Hu) as (k & metrics & info & avg & Hin & Hk & Ha & _ & ->).
  apply dict_get_elem in Hin; [|apply aggregate_paths_NoDup].
  rewrite aggregate_paths_flat, aggregate_lookup in Hin.
  exists k, info. cbn zeta.
  destruct (rows_of_path brk nfkc k ga4_data) as [|r rows] eqn:Er; [done|].
  injection Hin as <-. cbn [update_of u_article_id u_course_slug u_pageviews
    u_organic_sessions u_engaged_sessions u_avg_engagement_time u_article_title].
  repeat split; try done. apply title_excerpt_length.
Qed.


End ReconcilerOutput.

Lemma updates_carry_the_sums_witness :
  calm_match_urls [scenario_row "www.foresight.jp"] scenario_mapping state0
    = (Ok [scenario_update], mkState 0 [Ev Now 0])
  ∧ (length [scenario_update] ≤ length [scenario_row "www.foresight.jp"])%nat
  ∧ ∀ u, u ∈ [scenario_update] →
      ∃ path info,
        let rows := rows_of_path never never path
                      [scenario_row "www.foresight.jp"] in
        scenario_mapping !! path = Some info
        ∧ rows ≠ []
        ∧ u_article_id u = article_id info
        ∧ u_course_slug u = course_slug info
        ∧ u_pageviews u = total pageviews rows
        ∧ u_organic_sessions u = total organic_sessions rows
        ∧ u_engaged_sessions u = total engaged_sessions rows
        ∧ avg_engagement_time_of (sum_metrics rows)
          = Ok (u_avg_engagement_time u)
        ∧ zlen (u_article_title u) ≤ 53.
Proof.
  assert (H1 : calm_match_urls [scenario_row "www.foresight.jp"]
                 scenario_mapping state0
               = (Ok [scenario_update], mkState 0 [Ev Now 0]))
    by (vm_compute; reflexivity).
  split; [exact H1|].
  exact (updates_carry_the_sums (scripted calm) never never self0 _ _ _ _ _ H1).
Defined.

(** ** The normaliser and the keys of the mapping *)

Lemma startswith_two_one (s : str) c :
  startswith s [c; c] = true → startswith s [c] = true.
Proof.
  destruct s as [|x s]; [done|]. cbn [startswith].
  intros [-> _]%andb_true_iff. done.
Qed.

Lemma startswith_cons (s p : str) a b :
  startswith (b :: s) (a :: p) = bool_decide (a = b) && startswith s p.
Proof. done. Qed.

Section NormalizerOutput.
Variables brk nfkc : str → bool.

Local Abbreviation normalize := (normalize_ga4_url brk nfkc).

Lemma normalize_clean url p c :
  normalize url = Some p → c ∈ [9; 13; 10; ch "#"; ch "?"]%N → c ∉ p.
Proof.
  intros (r & s & _ & Hr & _ & -> & _ & ->)%normalize_inv Hc.
  apply (urlparse_path_clean brk nfkc) in Hr.
  rewrite Forall_forall in Hr. specialize (Hr c Hc).
  assert (Hs : ch "/" ∉ [9; 13; 10; ch "#"; ch "?"]%N) by (by apply has_false).
  rewrite elem_of_app. intros [Hin|Hin].
  - revert Hin. eapply notin_sublist; [apply strip_sublist|done].
  - apply list_elem_of_singleton in Hin. by subst c.
Qed.

(** A path that the normaliser returns holds no [?] and no [#], so the
    query string and the fragment of the URL are gone, and no tab, carriage
    return or line feed. *)
Theorem normalize_ga4_url_drops_query_and_fragment url p :
  normalize url = Some p →
  Forall (λ c, c ∉ p) [9; 13; 10; ch "#"; ch "?"]%N.
Proof.
  intros H. apply Forall_forall. intros c Hc. by eapply normalize_clean.
Qed.

(** A key of the mapping that the normaliser can ever produce comes from
    a clean row: neither its course slug nor its stripped link holds [?],
    [#], a tab, a carriage return or a line feed; the slug is not empty and
    does not begin with a slash; the stripped link is neither empty nor a
    lone slash, and does not end with two slashes. The article of any
    other row is never matched by a raw URL. *)
Theorem matched_pattern_is_clean url row :
  normalize url = Some (pattern_of row) →
  let link := strip_ws (row_article_link row) in
  (∀ c, c ∈ [9; 13; 10; ch "#"; ch "?"]%N →
        (c ∉ row_course_slug row) ∧ (c ∉ link))
  ∧ row_course_slug row ≠ []
  ∧ startswith (row_course_slug row) (py "/") = false
  ∧ link ≠ [] ∧ link ≠ py "/" ∧ endswith link (py "//") = false.
Proof.
  intros H link. split.
  { intros c Hc. pose proof (normalize_clean _ _ _ H Hc) as Hn.
    assert (Hs : c ≠ ch "/").
    { intros ->. revert Hc. by apply has_false. }
    unfold pattern_of in Hn. rewrite !elem_of_app in Hn.
    rewrite normalized_link_elem in Hn by done. fold link in Hn. tauto. }
  apply normalize_inv in H as (r & s & _ & _ & _ & Hs & Hc & Hp).
  pose proof (strip_slash_not_startswith (path r)) as Hhead.
  pose proof (strip_slash_not_endswith (path r)) as Hlast.
  rewrite <- Hs in Hhead, Hlast. clear Hs.
  assert (Hne : s ≠ []) by (by apply (contains_nonempty (py "/column/"))).
  unfold pattern_of in Hp.
  split; [|split].
  - intros E. rewrite E in Hp. destruct s as [|c s']; [done|].
    injection Hp as <- _. done.
  - destruct (row_course_slug row) as [|c slug]; [done|].
    destruct s as [|c' s']; [done|]. injection Hp as <- _. exact Hhead.
  - (* the link: what precedes the final slash of the key is [s] *)
    pose proof (normalized_link_endswith (row_article_link row)) as Hnl.
    apply endswith_one in Hnl as [t Ht].
    assert (Est : s = row_course_slug row ++ py "/column/" ++ t).
    { rewrite Ht in Hp. rewrite !app_assoc in Hp.
      apply app_inj_tail in Hp as [Hp _]. by rewrite <- !app_assoc in Hp. }
    assert (Ht1 : endswith t (py "/") = false).
    { destruct (endswith t (py "/")) eqn:E; [|done].
      rewrite Est, app_assoc in Hlast.
      by rewrite (endswith_app_one _ _ _ E) in Hlast. }
    assert (Ht0 : t ≠ []).
    { intros ->. rewrite Est, app_nil_r in Hlast.
      assert (endswith (row_course_slug row ++ py "/column/") (py "/") = true)
        by (by apply (endswith_app_one _ _ (ch "/"))).
      congruence. }
    unfold normalized_link in Ht. fold link in Ht.
    destruct (endswith link (py "/")) eqn:El; cbn [negb] in Ht.
    + rewrite Ht. split; [by destruct t|]. split.
      * intros E. destruct t as [|c [|c' t']]; done.
      * unfold endswith in *. rewrite reverse_snoc.
        change (reverse (py "//")) with [ch "/"; ch "/"].
        change (reverse (py "/")) with [ch "/"] in Ht1.
        by rewrite startswith_cons, Ht1, andb_false_r.
    + apply app_inj_tail in Ht as [-> _]. split; [done|]. split.
      * intros E. by rewrite E in El.
      * destruct (endswith t (py "//")) eqn:E; [|done].
        unfold endswith in *.
        change (reverse (py "//")) with [ch "/"; ch "/"] in E.
        change (reverse (py "/")) with [ch "/"] in El.
        by rewrite (startswith_two_one _ _ E) in El.
Qed.

End NormalizerOutput.

Lemma normalize_ga4_url_drops_query_and_fragment_witness :
  normalize_ga4_url never never
    (py "https://www.foresight.jp/acct/column/intro?utm=1#top")
  = Some (py "acct/column/intro/")
  ∧ Forall (λ c, c ∉ py "acct/column/intro/") [9; 13; 10; ch "#"; ch "?"]%N.
Proof.
  assert (H : normalize_ga4_url never never
                (py "https://www.foresight.jp/acct/column/intro?utm=1#top")
              = Some (py "acct/column/intro/")) by (vm_compute; reflexivity).
  split; [exact H|].
  exact (normalize_ga4_url_drops_query_and_fragment never never _ _ H).
Defined.

Lemma matched_pattern_is_clean_witness :
  normalize_ga4_url never never (py "https://www.foresight.jp/acct/column/intro")
  = Some (pattern_of scenario_mapping_row)
  ∧ let link := strip_ws (row_article_link scenario_mapping_row) in
    (∀ c, c ∈ [9; 13; 10; ch "#"; ch "?"]%N →
          (c ∉ row_course_slug scenario_mapping_row) ∧ (c ∉ link))
    ∧ row_course_slug scenario_mapping_row ≠ []
    ∧ startswith (row_course_slug scenario_mapping_row) (py "/") = false
    ∧ link ≠ [] ∧ link ≠ py "/" ∧ endswith link (py "//") = false.
Proof.
  assert (H : normalize_ga4_url never never
                (py "https://www.foresight.jp/acct/column/intro")
              = Some (pattern_of scenario_mapping_row))
    by (vm_compute; reflexivity).
  split; [exact H|].
  exact (matched_pattern_is_clean never never _ _ H).
Defined.

(** ** The metrics fetcher *)

Lemma probes_app evs1 evs2 : probes (evs1 ++ evs2) = probes evs1 ++ probes evs2.
Proof. unfold probes. by rewrite fmap_app, concat_app. Qed.

Lemma queries_app evs1 evs2 : queries (evs1 ++ evs2) = queries evs1 ++ queries evs2.
Proof. unfold queries. by rewrite fmap_app, concat_app. Qed.

Lemma bulk_batches_app evs1 evs2 :
  bulk_batches (evs1 ++ evs2) = bulk_batches evs1 ++ bulk_batches evs2.
Proof. unfold bulk_batches. by rewrite fmap_app, concat_app. Qed.

Lemma slept_app evs1 evs2 : slept (evs1 ++ evs2) = slept evs1 + slept evs2.
Proof.
  unfold slept. induction evs1 as [|e evs1 IH]; cbn [app foldr]; [done|].
  rewrite IH. lia.
Qed.

Lemma found_length ps : (length (found ps) ≤ length ps)%nat.
Proof. unfold found. rewrite length_fmap. apply length_filter. Qed.

Section FetcherFacts.
Context {World : Type}.
Variable handle : ∀ R, Call R → World → R * World.
Variable strftime_Ymd : Z → str.
Variable GA4_DAYS_BACK : Z.
Variable GA4_LIMIT : option Z.

Local Abbreviation fetch :=
  (get_ga4_pageviews_optimized handle strftime_Ymd GA4_DAYS_BACK GA4_LIMIT).

(** The probe loop: one probe for each day of the list, in order; the
    suffixes found are appended to the list. *)
Lemma probe_loop end_date days :
  ∀ available_tables st, ∃ st' evs,
    for_each
      (λ available_tables i,
         r <- call handle (GetTable (strftime_Ymd (end_date - i * 86400000000))) ;;
         match r with
         | Ok _ => ret (available_tables
                        ++ [strftime_Ymd (end_date - i * 86400000000)])
         | Raise _ => ret available_tables
         end) days available_tables st
    = (Ok (available_tables ++ found (probes evs)), st')
    ∧ trace st' = trace st ++ evs
    ∧ fst <$> probes evs
      = (λ i, strftime_Ymd (end_date - i * 86400000000)) <$> days
    ∧ length (probes evs) = length evs.
Proof.
  induction days as [|i days IH]; intros available_tables st.
  - exists st, []. cbn. by rewrite !app_nil_r.
  - cbn [for_each]. unfold bind at 1. rewrite run_call.
    set (table_suffix := strftime_Ymd (end_date - i * 86400000000)).
    set (r := fst (handle _ (GetTable table_suffix) (world st))).
    set (st1 := mkState _ _).
    destruct r as [[]|e] eqn:Er; unfold ret at 1.
    + destruct (IH (available_tables ++ [table_suffix]) st1)
        as (st' & evs & -> & E & Hp & Hl).
      exists st', (Ev (GetTable table_suffix) (Ok tt) :: evs).
      split; [|split; [|split]].
      * f_equal. f_equal. by rewrite <- app_assoc.
      * rewrite E. subst st1. cbn [trace]. by rewrite <- app_assoc.
      * change (probes (?e :: ?l)) with (probe e ++ probes l).
        cbn [probe app fmap list_fmap fst]. by rewrite Hp.
      * change (probes (?e :: ?l)) with (probe e ++ probes l).
        cbn [probe app length]. by rewrite Hl.
    + destruct (IH available_tables st1) as (st' & evs & -> & E & Hp & Hl).
      exists st', (Ev (GetTable table_suffix) (Raise e) :: evs).
      split; [|split; [|split]].
      * done.
      * rewrite E. subst st1. cbn [trace]. by rewrite <- app_assoc.
      * change (probes (?e :: ?l)) with (probe e ++ probes l).
        cbn [probe app fmap list_fmap fst]. by rewrite Hp.
      * change (probes (?e :: ?l)) with (probe e ++ probes l).
        cbn [probe app length]. by rewrite Hl.
Qed.

Lemma get_available_run self days_back st :
  ∃ available_tables st' evs,
    get_available_ga4_tables handle strftime_Ymd self days_back st
    = (Ok available_tables, st')
    ∧ trace st' = trace st ++ Ev Now (fst (handle Z Now (world st))) :: evs
    ∧ available_tables = found (probes evs)
    ∧ zlen available_tables ≤ Z.max 0 days_back.
Proof.
  unfold get_available_ga4_tables. rewrite run_call.
  set (end_date := fst (handle Z Now (world st))). set (st1 := mkState _ _).
  destruct (probe_loop end_date (Z.of_nat <$> seq 0 (Z.to_nat days_back)) [] st1)
    as (st' & evs & E0 & E & Hp & Hl).
  exists (found (probes evs)), st', evs.
  split; [exact E0|]. split.
  { rewrite E. subst st1. cbn [trace]. by rewrite <- app_assoc. }
  split; [done|].
  pose proof (found_length (probes evs)) as Hf.
  apply (f_equal length) in Hp. rewrite !length_fmap, length_seq in Hp.
  unfold zlen. lia.
Qed.



End FetcherFacts.

(** ** Runs that are described by what they add to the trace *)

Section Traced.
Context {World : Type}.
Variable handle : ∀ R, Call R → World → R * World.

Lemma traced_ret {A} (Q : list Event → Prop) (a : A) :
  Q [] → traced (World:=World) Q (ret a).
Proof. intros H st. exists []. by rewrite app_nil_r. Qed.

Lemma traced_raise {A} (Q : list Event → Prop) e :
  Q [] → traced (World:=World) (A:=A) Q (raise e).
Proof. intros H st. exists []. by rewrite app_nil_r. Qed.

Lemma traced_lift {A} (Q : list Event → Prop) (r : result A) :
  Q [] → traced (World:=World) Q (lift r).
Proof. destruct r; [apply traced_ret|apply traced_raise]. Qed.

Lemma traced_call {R} (Q : list Event → Prop) (c : Call R) :
  (∀ r, Q [Ev c r]) → traced Q (call handle c).
Proof.
  intros H st. unfold call.
  destruct (handle R c (world st)) as [r w]. by exists [Ev c r].
Qed.

Lemma traced_bind {A B} (Q1 Q2 Q : list Event → Prop)
    (m : M World A) (f : A → M World B) :
  traced Q1 m → (∀ a, traced Q2 (f a)) →
  (∀ evs1, Q1 evs1 → Q evs1) →
  (∀ evs1 evs2, Q1 evs1 → Q2 evs2 → Q (evs1 ++ evs2)) →
  traced Q (bind m f).
Proof.
  intros Hm Hf H1 H2 st. unfold bind.
  destruct (Hm st) as (evs & E & HQ).
  destruct (m st) as [[a|e] st1]; simpl in E.
  - destruct (Hf a st1) as (evs' & E' & HQ').
    exists (evs ++ evs'). rewrite E', E, app_assoc. split; [done|]. by apply H2.
  - exists evs. split; [done|]. by apply H1.
Qed.

Lemma traced_try_except {A} (Q1 Q2 Q : list Event → Prop)
    (m : M World A) (h : exn → M World A) :
  traced Q1 m → (∀ e, traced Q2 (h e)) →
  (∀ evs1, Q1 evs1 → Q evs1) →
  (∀ evs1 evs2, Q1 evs1 → Q2 evs2 → Q (evs1 ++ evs2)) →
  traced Q (try_except m h).
Proof.
  intros Hm Hh H1 H2 st. unfold try_except.
  destruct (Hm st) as (evs & E & HQ).
  destruct (m st) as [[a|e] st1]; simpl in E.
  - exists evs. split; [done|]. by apply H1.
  - destruct (Hh e st1) as (evs' & E' & HQ').
    exists (evs ++ evs'). rewrite E', E, app_assoc. split; [done|]. by apply H2.
Qed.

End Traced.

(** ** The tiers of the metrics fetcher *)

Lemma quiet_nil seconds : 0 ≤ seconds → quiet seconds [].
Proof. by intros H. Qed.

Lemma quiet_app s1 s2 evs1 evs2 :
  quiet s1 evs1 → quiet s2 evs2 → quiet (s1 + s2) (evs1 ++ evs2).
Proof.
  intros (Hp1 & Hq1 & Hs1) (Hp2 & Hq2 & Hs2). unfold quiet.
  rewrite probes_app, queries_app, slept_app, Hp1, Hp2, Hq1, Hq2.
  repeat split; [done..|lia].
Qed.

Lemma quiet_mono s1 s2 evs : s1 ≤ s2 → quiet s1 evs → quiet s2 evs.
Proof. intros H (Hp & Hq & Hs). repeat split; [done..|lia]. Qed.

Section FetcherTiers.
Context {World : Type}.
Variable handle : ∀ R, Call R → World → R * World.
Variable strftime_Ymd : Z → str.
Variable GA4_DAYS_BACK : Z.
Variable GA4_LIMIT : option Z.

Local Abbreviation fetch :=
  (get_ga4_pageviews_optimized handle strftime_Ymd GA4_DAYS_BACK GA4_LIMIT).

Lemma quiet_call {R} (c : Call R) seconds :
  (∀ r, probe (Ev c r) = []) → (∀ r, query (Ev c r) = []) →
  (∀ r, sleep_seconds (Ev c r) ≤ seconds) →
  traced (quiet seconds) (call handle c).
Proof.
  intros Hp Hq Hs. apply traced_call. intros r. unfold quiet, probes, queries, slept.
  cbn [fmap list_fmap concat foldr]. rewrite Hp, Hq. specialize (Hs r).
  repeat split; [done..|lia].
Qed.

Lemma quiet_bind {A B} s1 s2 (m : M World A) (f : A → M World B) :
  0 ≤ s2 → traced (quiet s1) m → (∀ a, traced (quiet s2) (f a)) →
  traced (quiet (s1 + s2)) (bind m f).
Proof.
  intros H2 Hm Hf. eapply traced_bind; [exact Hm|exact Hf|..].
  - intros evs. apply quiet_mono. lia.
  - intros evs1 evs2. apply quiet_app.
Qed.

Lemma quiet_lift {A} (r : result A) : traced (World:=World) (quiet 0) (lift r).
Proof. by apply traced_lift. Qed.

Lemma quiet_result j timeout :
  traced (quiet 0) (r <- call handle (JobResult j timeout) ;; lift r).
Proof.
  change 0 with (0 + 0). apply quiet_bind; [done| |intros; apply quiet_lift].
  by apply quiet_call.
Qed.

Lemma wait_for_job_quiet j n :
  traced (quiet (6 * Z.of_nat n)) (wait_for_job handle j n).
Proof.
  induction n as [|n IH]; cbn [wait_for_job].
  - change (6 * Z.of_nat 0) with (0 + 0).
    apply quiet_bind; [done|by apply quiet_call|]. intros done.
    destruct done; [by apply traced_ret|].
    change 0 with (0 + 0). apply quiet_bind; [done|by apply quiet_call|].
    intros r. change 0 with (0 + 0).
    apply quiet_bind; [done|apply quiet_lift|]. intros _. by apply traced_raise.
  - replace (6 * Z.of_nat (S n)) with (0 + (6 + 6 * Z.of_nat n)) by lia.
    apply quiet_bind; [lia|by apply quiet_call|]. intros done.
    destruct done; [apply traced_ret, quiet_nil; lia|].
    apply quiet_bind; [lia|by apply quiet_call|]. intros _. exact IH.
Qed.

(** A guarded block that submits [q] and then sends no further query:
    [q] is the first query of the run, and those of the handler follow. *)
Lemma tier_block q b (rest : job → M World (list GA4Row))
    (h : exn → M World (list GA4Row)) s1 s2 expected :
  0 ≤ s1 → 0 ≤ s2 →
  (∀ j, traced (quiet s1) (rest j)) →
  (∀ e, traced (tiered s2 expected) (h e)) →
  traced (tiered (s1 + s2) (q :: expected))
    (try_except
       (r <- call handle (SubmitQuery q b) ;;
        query_job <- lift r ;;
        rest query_job) h).
Proof.
  intros H1 H2 Hrest Hh.
  eapply traced_try_except
    with (Q1 := λ evs, probes evs = [] ∧ queries evs = [q] ∧ slept evs ≤ s1);
    [|exact Hh|..].
  - eapply traced_bind
      with (Q1 := λ evs, ∃ r, evs = [Ev (SubmitQuery q b) r]) (Q2 := quiet s1).
    + apply traced_call. intros r. by exists r.
    + intros [j|e]; cbn [lift].
      * intros st. exact (Hrest j st).
      * by apply traced_raise.
    + intros evs [r ->]. by repeat split.
    + intros evs1 evs2 [r ->] (Hp & Hq & Hs).
      rewrite probes_app, queries_app, slept_app, Hp, Hq.
      by repeat split.
  - intros evs (Hp & Hq & Hs). split; [done|]. split; [lia|].
    rewrite Hq. by apply prefix_cons, prefix_nil.
  - intros evs1 evs2 (Hp1 & Hq1 & Hs1) (Hp2 & Hs2 & Hq2).
    unfold tiered. rewrite probes_app, queries_app, slept_app, Hp1, Hp2, Hq1.
    split; [done|]. split; [lia|]. by apply prefix_cons.
Qed.

Lemma get_ga4_pageviews_minimal_tiered self table_suffix :
  traced (tiered 0 [MinimalQuery (default [] table_suffix)
                      (Some (minimal_limit_of GA4_LIMIT))])
    (get_ga4_pageviews_minimal handle GA4_LIMIT self table_suffix).
Proof.
  unfold get_ga4_pageviews_minimal.
  assert (Hret : traced (World:=World)
            (tiered 0 [MinimalQuery (default [] table_suffix)
                         (Some (minimal_limit_of GA4_LIMIT))])
            (ret ([] : list GA4Row))).
  { apply traced_ret. repeat split; [done..|apply prefix_nil]. }
  destruct table_suffix as [[|c t]|]; [exact Hret| |exact Hret].
  change 0 with (0 + 0) at 1. apply tier_block; [done..| |].
  - intros j. apply quiet_result.
  - intros e. apply traced_ret. by repeat split.
Qed.

Lemma get_ga4_pageviews_multi_table_fallback_tiered self available_tables :
  traced (tiered 54
            [FallbackQuery (slice_to available_tables (Z.max 3 GA4_DAYS_BACK))
               (Some (fallback_limit_of GA4_LIMIT));
             MinimalQuery (default [] (head available_tables))
               (Some (minimal_limit_of GA4_LIMIT))])
    (get_ga4_pageviews_multi_table_fallback
       handle GA4_DAYS_BACK GA4_LIMIT self available_tables).
Proof.
  unfold get_ga4_pageviews_multi_table_fallback.
  case_bool_decide.
  { apply traced_ret. repeat split; [done..|apply prefix_nil]. }
  change 54 with (54 + 0). apply tier_block; [done..| |].
  - intros j. change 54 with (6 * Z.of_nat 9 + 0).
    apply quiet_bind; [done|apply wait_for_job_quiet|].
    intros _. apply quiet_result.
  - intros e. apply get_ga4_pageviews_minimal_tiered.
Qed.

Lemma quiet_events (evs : list Event) :
  Forall (λ e, query e = [] ∧ sleep_seconds e = 0) evs →
  queries evs = [] ∧ slept evs = 0.
Proof.
  induction 1 as [|e evs [Hq Hs] _ [IHq IHs]]; [done|].
  unfold queries, slept in *. cbn [fmap list_fmap concat foldr].
  rewrite Hq, Hs, IHq. split; [done|lia].
Qed.

(** The whole fetch: its result, and what it adds to the trace. The
    tables found by the probes are [available]; the standard tier queries
    [available[:days_back]], the other tiers work on
    [available[:GA4_DAYS_BACK]]. *)
Lemma fetch_run self days_back st :
  let days := default GA4_DAYS_BACK days_back in
  ∃ r st' evs,
    fetch self days_back st = (r, st')
    ∧ trace st' = trace st ++ evs
    ∧ slept evs ≤ 120
    ∧ zlen (found (probes evs)) ≤ Z.max 0 (days + 2)
    ∧ queries evs `prefix_of`
        [StandardQuery (slice_to (found (probes evs)) days) GA4_LIMIT;
         FallbackQuery
           (slice_to (slice_to (found (probes evs)) GA4_DAYS_BACK)
                     (Z.max 3 GA4_DAYS_BACK))
           (Some (fallback_limit_of GA4_LIMIT));
         MinimalQuery
           (default [] (head (slice_to (found (probes evs)) GA4_DAYS_BACK)))
           (Some (minimal_limit_of GA4_LIMIT))]
    ∧ (queries evs ≠ [] → slice_to (found (probes evs)) days ≠ []).
Proof.
  intros days. unfold get_ga4_pageviews_optimized. fold days.
  rewrite run_check_timeout.
  set (now := fst (handle Z Now (world st))). set (st0 := mkState _ _).
  destruct (_ <? _).
  { exists (Raise (TimeoutError (py "ga4"))), st0, [Ev Now now].
    split; [done|]. split; [done|]. split; [done|].
    split; [change (zlen (found (probes [Ev Now now]))) with 0; lia|].
    split; [apply prefix_nil|done]. }
  unfold bind at 1.
  destruct (get_available_run handle strftime_Ymd self (days + 2) st0)
    as (available & st1 & evs1 & Erun & E1 & Ha & Hz).
  destruct (get_available_ga4_tables_emits handle strftime_Ymd
              (λ e, query e = [] ∧ sleep_seconds e = 0) self (days + 2))
    with (st := st0) as (evs1' & E1' & Hquiet); [done..|].
  rewrite Erun in E1' |- *. cbn [snd] in E1'.
  assert (Hsame : evs1' = Ev Now (fst (handle Z Now (world st0))) :: evs1).
  { apply (app_inv_head (trace st0)). by rewrite <- E1, <- E1'. }
  subst evs1'. apply Forall_cons in Hquiet as [_ Hquiet].
  apply quiet_events in Hquiet as [Hq1 Hs1].
  set (end_date := fst (handle Z Now (world st0))) in *.
  assert (Hfront : ∀ rest,
            probes rest = [] →
            found (probes (Ev Now now :: Ev Now end_date :: evs1 ++ rest))
            = available).
  { intros rest Hr.
    change (probes (Ev Now now :: Ev Now end_date :: evs1 ++ rest))
      with (probes (evs1 ++ rest)).
    by rewrite probes_app, Hr, app_nil_r. }
  assert (Hpre : ∀ rest,
            slept (Ev Now now :: Ev Now end_date :: evs1 ++ rest) = slept rest
            ∧ queries (Ev Now now :: Ev Now end_date :: evs1 ++ rest)
              = queries rest).
  { intros rest.
    change (slept (Ev Now now :: Ev Now end_date :: evs1 ++ rest))
      with (0 + (0 + slept (evs1 ++ rest))).
    change (queries (Ev Now now :: Ev Now end_date :: evs1 ++ rest))
      with (queries (evs1 ++ rest)).
    rewrite slept_app, queries_app, Hq1, Hs1. split; [lia|done]. }
  assert (Htrace : ∀ (st' : State World) rest,
            trace st' = trace st1 ++ rest →
            trace st' = trace st ++ Ev Now now :: Ev Now end_date :: evs1 ++ rest).
  { intros st' rest ->. rewrite E1. subst st0. cbn [trace].
    by rewrite <- !app_assoc. }
  assert (Hstop : ∃ r st' evs,
            (ret [] : M World (list GA4Row)) st1 = (r, st')
            ∧ trace st' = trace st ++ evs
            ∧ slept evs ≤ 120
            ∧ zlen (found (probes evs)) ≤ Z.max 0 (days + 2)
            ∧ queries evs `prefix_of`
                [StandardQuery (slice_to (found (probes evs)) days) GA4_LIMIT;
                 FallbackQuery
                   (slice_to (slice_to (found (probes evs)) GA4_DAYS_BACK)
                             (Z.max 3 GA4_DAYS_BACK))
                   (Some (fallback_limit_of GA4_LIMIT));
                 MinimalQuery
                   (default [] (head (slice_to (found (probes evs))
                                               GA4_DAYS_BACK)))
                   (Some (minimal_limit_of GA4_LIMIT))]
            ∧ (queries evs ≠ [] → slice_to (found (probes evs)) days ≠ [])).
  { exists (Ok []), st1, (Ev Now now :: Ev Now end_date :: evs1 ++ []).
    split; [done|]. split; [apply Htrace; by rewrite app_nil_r|].
    destruct (Hpre []) as [-> ->]. rewrite Hfront by done.
    split; [done|]. split; [lia|]. split; [apply prefix_nil|done]. }
  case_bool_decide as Hav; [exact Hstop|].
  case_bool_decide as Htab; [exact Hstop|]. clear Hstop.
  match goal with
  | |- ∃ r st' evs, ?m st1 = _ ∧ _ =>
      assert (Hm : traced (tiered (66 + 54)
                [StandardQuery (slice_to available days) GA4_LIMIT;
                 FallbackQuery
                   (slice_to (slice_to available GA4_DAYS_BACK)
                             (Z.max 3 GA4_DAYS_BACK))
                   (Some (fallback_limit_of GA4_LIMIT));
                 MinimalQuery
                   (default [] (head (slice_to available GA4_DAYS_BACK)))
                   (Some (minimal_limit_of GA4_LIMIT))]) m)
  end.
  { apply tier_block; [done..| |].
    - intros j. change 66 with (6 * Z.of_nat 11 + 0).
      apply quiet_bind; [done|apply wait_for_job_quiet|].
      intros _. apply quiet_result.
    - intros e. apply get_ga4_pageviews_multi_table_fallback_tiered. }
  destruct (Hm st1) as (rest & Er & Hp & Hs & Hq).
  match type of Er with
  | trace (snd (?m st1)) = _ => destruct (m st1) as [r st'] eqn:Em
  end.
  cbn [snd] in Er.
  exists r, st', (Ev Now now :: Ev Now end_date :: evs1 ++ rest).
  split; [done|]. split; [by apply Htrace|].
  destruct (Hpre rest) as [-> ->]. rewrite Hfront by done.
  split; [lia|]. split; [lia|]. split; [exact Hq|]. by intros _.
Qed.

Lemma slice_to_nonempty_pos {A} (l : list A) days :
  zlen l ≤ Z.max 0 (days + 2) → slice_to l days ≠ [] → 0 < days.
Proof.
  intros Hl Hne. destruct (Z.lt_ge_cases 0 days) as [|Hd]; [done|].
  exfalso. apply Hne. pose proof (zlen_nonneg l).
  destruct (Z.eq_dec days 0) as [->|].
  { by rewrite slice_to_take. }
  unfold slice_to, slice, clip.
  destruct (Z.ltb_spec 0 0); [lia|]. destruct (Z.ltb_spec days 0); [|lia].
  replace (Z.max 0 (zlen l + days) - Z.min 0 (zlen l)) with 0 by lia.
  done.
Qed.

(** In the pipeline, which fetches [GA4_DAYS_BACK] days, the queries of
    a fetch are a front of: the standard query, the fallback query, the
    minimal query, in that order. A tier is tried once, after the tier
    before it, and never again. The standard and the fallback query range
    over the same tables, the first [GA4_DAYS_BACK] of the tables found by
    the probes, and the minimal query over the first of them; a query is
    sent only when there is such a table. *)
Theorem fetch_queries_in_tier_order self st :
  ∃ r st' evs,
    fetch self (Some GA4_DAYS_BACK) st = (r, st')
    ∧ trace st' = trace st ++ evs
    ∧ let tables := take (Z.to_nat GA4_DAYS_BACK) (found (probes evs)) in
      queries evs `prefix_of` tiers GA4_LIMIT tables
      ∧ (queries evs ≠ [] → tables ≠ []).
Proof.
  destruct (fetch_run self (Some GA4_DAYS_BACK) st)
    as (r & st' & evs & E & Et & _ & Hz & Hq & Hne).
  cbn [from_option id] in Hz, Hq, Hne.
  exists r, st', evs. split; [done|]. split; [done|]. cbv zeta.
  destruct (queries evs) as [|q qs] eqn:Eq.
  { split; [apply prefix_nil|done]. }
  assert (Hn : slice_to (found (probes evs)) GA4_DAYS_BACK ≠ []) by (by apply Hne).
  pose proof (slice_to_nonempty_pos _ _ Hz Hn) as Hpos.
  rewrite (slice_to_take (found (probes evs))) in Hq, Hn by lia.
  set (tables := take (Z.to_nat GA4_DAYS_BACK) (found (probes evs))) in *.
  assert (Hsame : slice_to tables (Z.max 3 GA4_DAYS_BACK) = tables).
  { rewrite slice_to_take by lia. apply take_ge. subst tables.
    rewrite length_take. lia. }
  rewrite Hsame in Hq. split; [exact Hq|done].
Qed.

(** A fetch sleeps at most 120 seconds in all: at most 66 while it polls
    the standard query and at most 54 while it polls the fallback query;
    the probes and the minimal tier do not sleep. *)
Theorem fetch_sleeps_at_most_two_minutes self days_back st :
  ∃ evs,
    trace (snd (fetch self days_back st)) = trace st ++ evs
    ∧ slept evs ≤ 120.
Proof.
  destruct (fetch_run self days_back st) as (r & st' & evs & E & Et & Hs & _).
  exists evs. by rewrite E.
Qed.

(** A guarded block whose handler always returns: so does the block. If
    every submission of a query is refused, what the block returns is what
    its handler returns. *)
Lemma guarded_query_returns q b (rest : job → M World (list GA4Row))
    (h : exn → M World (list GA4Row)) :
  (∀ e st, ∃ rows st',
     h e st = (Ok rows, st')
     ∧ ((∀ q b w, ∃ e, fst (handle _ (SubmitQuery q b) w) = Raise e) →
        rows = [])) →
  ∀ st, ∃ rows st',
    try_except
      (r <- call handle (SubmitQuery q b) ;;
       query_job <- lift r ;;
       rest query_job) h st = (Ok rows, st')
    ∧ ((∀ q b w, ∃ e, fst (handle _ (SubmitQuery q b) w) = Raise e) →
       rows = []).
Proof.
  intros Hh st. unfold try_except. rewrite run_call.
  set (st1 := mkState _ _).
  destruct (fst (handle _ (SubmitQuery q b) (world st))) as [j|e] eqn:Er;
    cbn [lift].
  - unfold bind, ret.
    destruct (rest j st1) as [[rows|e] st2].
    + exists rows, st2. split; [done|]. intros Hfail.
      destruct (Hfail q b (world st)) as [e He]. congruence.
    + destruct (Hh e st2) as (rows & st' & -> & HP). by exists rows, st'.
  - unfold bind, raise.
    destruct (Hh e st1) as (rows & st' & -> & HP). by exists rows, st'.
Qed.

Lemma get_ga4_pageviews_minimal_returns self table_suffix st :
  ∃ rows st',
    get_ga4_pageviews_minimal handle GA4_LIMIT self table_suffix st
    = (Ok rows, st')
    ∧ ((∀ q b w, ∃ e, fst (handle _ (SubmitQuery q b) w) = Raise e) →
       rows = []).
Proof.
  unfold get_ga4_pageviews_minimal.
  destruct table_suffix as [[|c t]|]; [by eexists _, _| |by eexists _, _].
  apply guarded_query_returns. intros e st0. by eexists _, _.
Qed.

Lemma get_ga4_pageviews_multi_table_fallback_returns self available_tables st :
  ∃ rows st',
    get_ga4_pageviews_multi_table_fallback
      handle GA4_DAYS_BACK GA4_LIMIT self available_tables st
    = (Ok rows, st')
    ∧ ((∀ q b w, ∃ e, fst (handle _ (SubmitQuery q b) w) = Raise e) →
       rows = []).
Proof.
  unfold get_ga4_pageviews_multi_table_fallback.
  case_bool_decide; [by eexists _, _|].
  apply guarded_query_returns. intros e st0.
  apply get_ga4_pageviews_minimal_returns.
Qed.

Lemma fetch_within self days_back st :
  within_budget handle self st →
  ∃ rows st',
    fetch self days_back st = (Ok rows, st')
    ∧ ((∀ q b w, ∃ e, fst (handle _ (SubmitQuery q b) w) = Raise e) →
       rows = []).
Proof.
  intros Hb. unfold get_ga4_pageviews_optimized. rewrite run_check_timeout.
  unfold within_budget in Hb.
  destruct (Z.ltb_spec (TIMEOUT_SECONDS * 1000000)
              (fst (handle Z Now (world st)) - start_time self)); [lia|].
  set (st0 := mkState _ _). unfold bind at 1.
  destruct (get_available_run handle strftime_Ymd self
              (default GA4_DAYS_BACK days_back + 2) st0)
    as (available & st1 & evs1 & -> & _).
  case_bool_decide; [by eexists _, _|].
  case_bool_decide; [by eexists _, _|].
  apply guarded_query_returns. intros e st2.
  apply get_ga4_pageviews_multi_table_fallback_returns.
Qed.

Lemma fetch_beyond self days_back st :
  ¬ within_budget handle self st →
  fetch self days_back st
  = (Raise (TimeoutError (py "ga4")),
     mkState (snd (handle Z Now (world st)))
             (trace st ++ [Ev Now (fst (handle Z Now (world st)))])).
Proof.
  intros Hb. unfold get_ga4_pageviews_optimized. rewrite run_check_timeout.
  unfold within_budget in Hb.
  by destruct (Z.ltb_spec (TIMEOUT_SECONDS * 1000000)
                 (fst (handle Z Now (world st)) - start_time self)); [|lia].
Qed.

(** The only way a fetch fails is its entry check: beyond the time budget
    it raises [TimeoutError] having read the clock and done nothing else;
    within the budget it returns a list of rows, whatever the GA4 client
    refuses or raises and however long a query stays pending. When every
    submission of a query is refused, the list is empty. *)
Theorem fetch_fails_only_by_timeout self days_back st :
  (within_budget handle self st →
     ∃ rows st',
       fetch self days_back st = (Ok rows, st')
       ∧ ((∀ q b w, ∃ e, fst (handle _ (SubmitQuery q b) w) = Raise e) →
          rows = []))
  ∧ (¬ within_budget handle self st →
       fetch self days_back st
       = (Raise (TimeoutError (py "ga4")),
          mkState (snd (handle Z Now (world st)))
                  (trace st ++ [Ev Now (fst (handle Z Now (world st)))]))).
Proof. split; [apply fetch_within|apply fetch_beyond]. Qed.

End FetcherTiers.

(** ** The mapping loader *)

Section LoaderFacts.
Context {World : Type}.
Variable handle : ∀ R, Call R → World → R * World.

Local Abbreviation load := (get_courses_articles_mapping_optimized handle).

Lemma try_except_default {A} (m : M World A) (a : A) st :
  emits (λ _, True) m →
  ∃ a' st' evs,
    try_except m (λ _, ret a) st = (Ok a', st')
    ∧ trace st' = trace st ++ evs.
Proof.
  intros Hm. destruct (Hm st) as (evs & E & _). unfold try_except.
  destruct (m st) as [[a'|e] st1]; cbn [snd] in E.
  - by exists a', st1, evs.
  - by exists a, st1, evs.
Qed.

Lemma load_within self st :
  within_budget handle self st →
  ∃ mapping st' evs,
    load self st = (Ok mapping, st')
    ∧ trace st' = trace st ++ evs
    ∧ (mapping = ∅
       ∨ ∃ rows, Ev (MappingJoin 10000 45) (Ok rows) ∈ evs
                 ∧ mapping = build_mapping rows).
Proof.
  intros Hb. unfold get_courses_articles_mapping_optimized.
  rewrite run_check_timeout. unfold within_budget in Hb.
  destruct (Z.ltb_spec (TIMEOUT_SECONDS * 1000000)
              (fst (handle Z Now (world st)) - start_time self)); [lia|].
  set (now := fst (handle Z Now (world st))). set (st0 := mkState _ _).
  unfold bind at 1.
  match goal with
  | |- context [try_except ?m (λ _, ret true) st0] =>
      destruct (try_except_default m true st0)
        as (no_data & st1 & evs1 & -> & E1)
  end.
  { unfold first_row. emits_auto. }
  assert (Hempty : ∀ (st' : State World) evs,
            trace st' = trace st1 ++ evs →
            ∃ mapping st'' evs',
              (Ok (∅ : gmap str ArticleInfo), st') = (Ok mapping, st'')
              ∧ trace st'' = trace st ++ evs'
              ∧ (mapping = ∅
                 ∨ ∃ rows, Ev (MappingJoin 10000 45) (Ok rows) ∈ evs'
                           ∧ mapping = build_mapping rows)).
  { intros st' evs E. exists ∅, st', (Ev Now now :: evs1 ++ evs).
    split; [done|]. split; [|by left].
    rewrite E, E1. subst st0. cbn [trace]. by rewrite <- !app_assoc. }
  destruct no_data.
  { apply (Hempty st1 []). by rewrite app_nil_r. }
  unfold try_except. rewrite run_call.
  set (r1 := fst (handle _ (BasicJoin 30) (world st1))).
  set (st2 := mkState _ _).
  assert (E2 : trace st2 = trace st1 ++ [Ev (BasicJoin 30) r1]) by done.
  destruct r1 as [basic_data|e] eqn:Er1; cbn [lift]; unfold bind at 1;
    [|by apply (Hempty st2 [Ev (BasicJoin 30) (Raise e)])].
  unfold ret at 1. case_bool_decide.
  { by apply (Hempty st2 [Ev (BasicJoin 30) (Ok basic_data)]). }
  rewrite run_call.
  set (r2 := fst (handle _ (MappingJoin 10000 45) (world st2))).
  set (st3 := mkState _ _).
  assert (E3 : trace st3 = trace st1 ++ [Ev (BasicJoin 30) (Ok basic_data);
                                         Ev (MappingJoin 10000 45) r2]).
  { subst st3. cbn [trace]. rewrite E2. by rewrite <- app_assoc. }
  destruct r2 as [rows|e] eqn:Er2; cbn [lift]; unfold bind at 1;
    [|by apply (Hempty st3 [Ev (BasicJoin 30) (Ok basic_data);
                            Ev (MappingJoin 10000 45) (Raise e)])].
  unfold ret at 1. unfold bind at 1.
  assert (Hfull : ∀ (st' : State World) evs,
            trace st' = trace st3 ++ evs →
            ∃ mapping st'' evs',
              (Ok (build_mapping rows), st') = (Ok mapping, st'')
              ∧ trace st'' = trace st ++ evs'
              ∧ (mapping = ∅
                 ∨ ∃ rows, Ev (MappingJoin 10000 45) (Ok rows) ∈ evs'
                           ∧ mapping = build_mapping rows)).
  { intros st' evs E. exists (build_mapping rows), st',
      (Ev Now now :: evs1 ++ [Ev (BasicJoin 30) (Ok basic_data);
                              Ev (MappingJoin 10000 45) (Ok rows)] ++ evs).
    split; [done|]. split.
    - rewrite E, E3, E1. subst st0. cbn [trace]. by rewrite <- !app_assoc.
    - right. exists rows. split; [|done].
      apply elem_of_cons. right. apply elem_of_app. right.
      apply elem_of_app. left. apply elem_of_cons. right. by left. }
  case_bool_decide as Hsize.
  - rewrite run_call.
    set (r3 := fst (handle _ (DebugJoin 30) (world st3))).
    set (st4 := mkState _ _).
    destruct r3 as [[]|e] eqn:Er3; cbn [lift]; unfold ret, raise.
    + by apply (Hfull st4 [Ev (DebugJoin 30) (Ok tt)]).
    + apply (Hempty st4 [Ev (BasicJoin 30) (Ok basic_data);
                         Ev (MappingJoin 10000 45) (Ok rows);
                         Ev (DebugJoin 30) (Raise e)]).
      subst st4. cbn [trace]. rewrite E3. by rewrite <- app_assoc.
  - unfold ret. apply (Hfull st3 []). by rewrite app_nil_r.
Qed.

Lemma load_beyond self st :
  ¬ within_budget handle self st →
  load self st
  = (Raise (TimeoutError (py "mapping")),
     mkState (snd (handle Z Now (world st)))
             (trace st ++ [Ev Now (fst (handle Z Now (world st)))])).
Proof.
  intros Hb. unfold get_courses_articles_mapping_optimized.
  rewrite run_check_timeout. unfold within_budget in Hb.
  by destruct (Z.ltb_spec (TIMEOUT_SECONDS * 1000000)
                 (fst (handle Z Now (world st)) - start_time self)); [|lia].
Qed.

(** The only way the mapping load fails is its entry check: beyond the
    time budget it raises [TimeoutError] having read the clock and done
    nothing else. Within the budget it returns a mapping whatever the
    warehouse answers or raises: the empty one, or the mapping built from
    the rows that the join returned in this very run. *)
Theorem mapping_load_fails_soft self st :
  (within_budget handle self st →
     ∃ mapping st' evs,
       load self st = (Ok mapping, st')
       ∧ trace st' = trace st ++ evs
       ∧ (mapping = ∅
          ∨ ∃ rows, Ev (MappingJoin 10000 45) (Ok rows) ∈ evs
                    ∧ mapping = build_mapping rows))
  ∧ (¬ within_budget handle self st →
       load self st
       = (Raise (TimeoutError (py "mapping")),
          mkState (snd (handle Z Now (world st)))
                  (trace st ++ [Ev Now (fst (handle Z Now (world st)))]))).
Proof. split; [apply load_within|apply load_beyond]. Qed.

End LoaderFacts.

(** ** The update statements *)

Lemma reported_totals_app evs1 evs2 :
  reported_totals (evs1 ++ evs2) = reported_totals evs1 ++ reported_totals evs2.
Proof. unfold reported_totals. by rewrite fmap_app, concat_app. Qed.

Lemma batches_bounds {A} (n : nat) (l : list A) :
  (0 < n)%nat →
  Forall (λ batch, batch ≠ [] ∧ (length batch ≤ n)%nat) (batches n l).
Proof.
  intros Hn. unfold batches, range_step.
  rewrite <- list_fmap_compose. apply Forall_fmap, Forall_forall.
  intros k Hk. apply elem_of_seq in Hk. cbn [compose].
  split.
  - intros E. apply (f_equal length) in E.
    rewrite length_take, length_drop in E. cbn [length] in E.
    pose proof (Nat.div_mod_eq (length l + n - 1) n) as Hd.
    pose proof (Nat.mod_upper_bound (length l + n - 1) n). nia.
  - rewrite length_take. lia.
Qed.

Section StatementFacts.
Context {World : Type}.
Variable handle : ∀ R, Call R → World → R * World.

Local Abbreviation dispatch := (update_pageviews_batch_optimized handle).
Local Abbreviation individual := (update_pageviews_individual_optimized handle).

(** The per-row loop counts the statements that went through. *)
Lemma individual_loop_counts self updates :
  ∀ count st, ∃ st' evs,
    individual_loop handle self updates count st
    = (Ok (count + zlen (rows_applied evs)), st')
    ∧ trace st' = trace st ++ evs
    ∧ rows_applied evs `sublist_of` rows_sent evs
    ∧ rows_sent evs `prefix_of` updates
    ∧ bulk_batches evs = [] ∧ reported_totals evs = [].
Proof.
  induction updates as [|update rest IH]; intros count st.
  - exists st, []. cbn. rewrite app_nil_r, Z.add_0_r. by repeat split.
  - cbn [individual_loop]. rewrite run_check_timeout.
    set (now := fst (handle Z Now (world st))).
    set (st1 := mkState _ _).
    destruct (_ <? _).
    + rewrite run_call. unfold ret.
      set (lg := fst (handle _ (Log (IndividualTimeout count)) (world st1))).
      set (st2 := mkState _ _).
      exists st2, [Ev Now now; Ev (Log (IndividualTimeout count)) lg].
      split; [by rewrite Z.add_0_r|]. split.
      { subst st2 st1. cbn [trace]. by rewrite <- app_assoc. }
      split; [done|]. split; [apply prefix_nil|done].
    + rewrite run_call.
      set (r := fst (handle _ (RowUpdate update 20) (world st1))).
      set (st2 := mkState _ _).
      destruct r as [[]|e] eqn:Er.
      * destruct (IH (count + 1) st2) as (st' & evs & -> & E & Ha & Hp & Hb & Hr).
        exists st', (Ev Now now :: Ev (RowUpdate update 20) (Ok tt) :: evs).
        split.
        { f_equal. f_equal.
          change (rows_applied (Ev Now now :: Ev (RowUpdate update 20) (Ok tt)
                                :: evs))
            with (update :: rows_applied evs).
          unfold zlen. cbn [length]. lia. }
        split.
        { rewrite E. subst st2 st1. cbn [trace]. by rewrite <- !app_assoc. }
        change (rows_applied (Ev Now now :: Ev (RowUpdate update 20) (Ok tt)
                              :: evs))
          with (update :: rows_applied evs).
        change (rows_sent (Ev Now now :: Ev (RowUpdate update 20) (Ok tt)
                           :: evs))
          with (update :: rows_sent evs).
        split; [by apply sublist_skip|]. split; [by apply prefix_cons|done].
      * rewrite run_call. set (st3 := mkState _ _).
        destruct (IH count st3) as (st' & evs & -> & E & Ha & Hp & Hb & Hr).
        set (lg := fst (handle _ (Log (RowError (u_article_id update)))
                          (world st2))) in *.
        exists st', (Ev Now now :: Ev (RowUpdate update 20) (Raise e)
                     :: Ev (Log (RowError (u_article_id update))) lg :: evs).
        split; [done|]. split.
        { rewrite E. subst st3 st2 st1. cbn [trace]. by rewrite <- !app_assoc. }
        change (rows_applied (Ev Now now :: Ev (RowUpdate update 20) (Raise e)
                  :: Ev (Log (RowError (u_article_id update))) lg :: evs))
          with (rows_applied evs).
        change (rows_sent (Ev Now now :: Ev (RowUpdate update 20) (Raise e)
                  :: Ev (Log (RowError (u_article_id update))) lg :: evs))
          with (update :: rows_sent evs).
        split; [by apply sublist_cons|]. split; [by apply prefix_cons|done].
Qed.

Lemma individual_counts self updates st :
  ∃ st' evs,
    individual self updates st = (Ok tt, st')
    ∧ trace st'
      = trace st ++ evs
        ++ [Ev (Log (IndividualUpdated (zlen (rows_applied evs)))) tt]
    ∧ rows_applied evs `sublist_of` rows_sent evs
    ∧ rows_sent evs `prefix_of` updates
    ∧ bulk_batches evs = [] ∧ reported_totals evs = [].
Proof.
  unfold update_pageviews_individual_optimized, bind at 1.
  destruct (individual_loop_counts self updates 0 st)
    as (st1 & evs & -> & E & Ha & Hp & Hb & Hr).
  unfold call. rewrite Z.add_0_l.
  destruct (handle _ _ (world st1)) as [[] w].
  eexists _, evs. split; [done|]. cbn [trace]. rewrite E, <- app_assoc.
  by repeat split.
Qed.

(** The per-row fallback never raises, sends its statements for a front
    of the list in list order, and the count on its last log line is the
    number of statements that the warehouse accepted: an update whose
    statement failed, or was not sent because time ran out, is not
    counted. *)
Theorem individual_updates_log_their_count self updates st :
  ∃ st' evs,
    individual self updates st = (Ok tt, st')
    ∧ trace st'
      = trace st ++ evs
        ++ [Ev (Log (IndividualUpdated (zlen (rows_applied evs)))) tt]
    ∧ rows_applied evs `sublist_of` rows_sent evs
    ∧ rows_sent evs `prefix_of` updates.
Proof.
  destruct (individual_counts self updates st)
    as (st' & evs & E & Et & Ha & Hp & _).
  by exists st', evs.
Qed.

(** One pass of the batch loop: one bulk statement, for the batch, and
    the running total grows by the size of the batch whether or not the
    statement went through. *)
Lemma update_batch_run self total n batch_no batch st :
  ∃ st' evs,
    update_batch handle self total n (batch_no, batch) st
    = (Ok (n + zlen batch), st')
    ∧ trace st' = trace st ++ evs
    ∧ bulk_batches evs = [batch] ∧ reported_totals evs = [].
Proof.
  unfold update_batch, try_except. rewrite run_call.
  set (r := fst (handle _ (BulkUpdate batch 75) (world st))).
  set (st1 := mkState _ _).
  destruct r as [[]|e] eqn:Er; cbn [lift].
  - unfold bind at 1, ret at 1. rewrite run_call. unfold ret.
    set (lg := fst (handle _ (Log (BatchUpdated (n + zlen batch) total))
                      (world st1))).
    eexists _, [Ev (BulkUpdate batch 75) (Ok tt);
                Ev (Log (BatchUpdated (n + zlen batch) total)) lg].
    split; [done|]. cbn [trace]. subst st1. cbn [trace].
    rewrite <- app_assoc. by repeat split.
  - unfold bind at 1, raise. rewrite run_call.
    set (lg := fst (handle _ (Log (BatchError batch_no)) (world st1))).
    set (st2 := mkState _ _). unfold bind at 1.
    destruct (individual_counts self batch st2)
      as (st' & evs & -> & E & _ & _ & Hb & Hr).
    unfold ret.
    exists st', (Ev (BulkUpdate batch 75) (Raise e)
                 :: Ev (Log (BatchError batch_no)) lg
                 :: evs ++ [Ev (Log (IndividualUpdated
                                       (zlen (rows_applied evs)))) tt]).
    split; [done|]. split.
    { rewrite E. subst st2 st1. cbn [trace]. by rewrite <- !app_assoc. }
    change (bulk_batches (Ev (BulkUpdate batch 75) (Raise e) :: ?x :: ?l))
      with (batch :: bulk_batches l).
    change (reported_totals (Ev (BulkUpdate batch 75) (Raise e) :: ?x :: ?l))
      with (reported_totals l).
    rewrite bulk_batches_app, reported_totals_app, Hb, Hr. done.
Qed.

Lemma batch_loop_run self total numbered :
  ∀ n st, ∃ st' evs,
    for_each (update_batch handle self total) numbered n st
    = (Ok (n + zlen (concat (snd <$> numbered))), st')
    ∧ trace st' = trace st ++ evs
    ∧ bulk_batches evs = snd <$> numbered ∧ reported_totals evs = [].
Proof.
  induction numbered as [|[batch_no batch] numbered IH]; intros n st.
  - exists st, []. cbn. rewrite app_nil_r, Z.add_0_r. by repeat split.
  - cbn [for_each]. unfold bind.
    destruct (update_batch_run self total n batch_no batch st)
      as (st1 & evs1 & -> & E1 & Hb1 & Hr1).
    destruct (IH (n + zlen batch) st1) as (st' & evs & -> & E & Hb & Hr).
    exists st', (evs1 ++ evs). split.
    { f_equal. f_equal. rewrite fmap_cons. cbn [snd concat].
      rewrite zlen_app. lia. }
    split; [by rewrite E, E1, app_assoc|].
    rewrite bulk_batches_app, reported_totals_app, Hb1, Hr1, Hb, Hr. done.
Qed.

Lemma numbered_batches_snd pageviews_updates :
  snd <$> numbered_batches pageviews_updates
  = batches BULK_INSERT_BATCH_SIZE pageviews_updates.
Proof.
  unfold numbered_batches. apply snd_zip. by rewrite length_fmap, length_seq.
Qed.

Lemma dispatch_within self ups st :
  ups ≠ [] → within_budget handle self st →
  ∃ st' evs,
    dispatch self ups st = (Ok tt, st')
    ∧ trace st' = trace st ++ evs
    ∧ bulk_batches evs = batches BULK_INSERT_BATCH_SIZE ups
    ∧ reported_totals evs = [zlen ups].
Proof.
  intros Hne Hb. unfold update_pageviews_batch_optimized.
  rewrite bool_decide_eq_false_2 by done. rewrite run_check_timeout.
  unfold within_budget in Hb.
  destruct (Z.ltb_spec (TIMEOUT_SECONDS * 1000000)
              (fst (handle Z Now (world st)) - start_time self)); [lia|].
  set (now := fst (handle Z Now (world st))). set (st0 := mkState _ _).
  unfold bind.
  destruct (batch_loop_run self (zlen ups) (numbered_batches ups) 0 st0)
    as (st1 & evs & -> & E & Hbulk & Hr).
  rewrite numbered_batches_snd in *.
  rewrite batches_concat, Z.add_0_l by (unfold BULK_INSERT_BATCH_SIZE; lia).
  unfold call. destruct (handle _ _ (world st1)) as [[] w].
  eexists _, (Ev Now now :: evs ++ [Ev (Log (AllUpdated (zlen ups))) tt]).
  split; [done|]. cbn [trace]. split.
  { rewrite E. subst st0. cbn [trace]. by rewrite <- !app_assoc. }
  change (bulk_batches (Ev Now now :: ?l)) with (bulk_batches l).
  change (reported_totals (Ev Now now :: ?l)) with (reported_totals l).
  rewrite bulk_batches_app, reported_totals_app, Hbulk, Hr.
  split; [by rewrite app_nil_r|done].
Qed.


(** Started within the time budget on a non-empty list, the batch
    dispatcher sends exactly one bulk statement for each batch of the list,
    in order: the batches are the list cut into consecutive pieces of at
    most 500 updates, none of them empty, so every update is in exactly one
    bulk statement. Its last line reports the length of the list as the
    total, whatever became of the statements. *)
Theorem dispatcher_sends_one_bulk_statement_per_batch self ups st :
  ups ≠ [] → within_budget handle self st →
  ∃ st' evs,
    dispatch self ups st = (Ok tt, st')
    ∧ trace st' = trace st ++ evs
    ∧ bulk_batches evs = batches BULK_INSERT_BATCH_SIZE ups
    ∧ concat (bulk_batches evs) = ups
    ∧ Forall (λ batch, batch ≠ [] ∧ (length batch ≤ 500)%nat) (bulk_batches evs)
    ∧ reported_totals evs = [zlen ups].
Proof.
  intros Hne Hb.
  destruct (dispatch_within self ups st Hne Hb) as (st' & evs & E & Et & Hbulk & Hr).
  exists st', evs. split; [done|]. split; [done|]. split; [done|].
  rewrite Hbulk. split; [|split; [|done]].
  - apply batches_concat. unfold BULK_INSERT_BATCH_SIZE. lia.
  - apply (batches_bounds BULK_INSERT_BATCH_SIZE).
    unfold BULK_INSERT_BATCH_SIZE. lia.
Qed.

End StatementFacts.

Lemma dispatcher_sends_one_bulk_statement_per_batch_witness :
  three_updates ≠ []
  ∧ within_budget (scripted one_bad_row) self0 state0
  ∧ ∃ st' evs,
      run_dispatch one_bad_row three_updates = (Ok tt, st')
      ∧ trace st' = trace state0 ++ evs
      ∧ bulk_batches evs = batches BULK_INSERT_BATCH_SIZE three_updates
      ∧ concat (bulk_batches evs) = three_updates
      ∧ Forall (λ batch, batch ≠ [] ∧ (length batch ≤ 500)%nat)
               (bulk_batches evs)
      ∧ reported_totals evs = [zlen three_updates].
Proof.
  assert (H1 : three_updates ≠ []) by done.
  assert (H2 : within_budget (scripted one_bad_row) self0 state0)
    by (unfold within_budget; simpl; unfold TIMEOUT_SECONDS; lia).
  split; [exact H1|]. split; [exact H2|].
  exact (dispatcher_sends_one_bulk_statement_per_batch
           (scripted one_bad_row) self0 three_updates state0 H1 H2).
Defined.

(** ** The outcomes of a run *)



Section Outcomes.
Context {World : Type}.
Variable handle : ∀ R, Call R → World → R * World.
Variable strftime_Ymd : Z → str.
Variable GA4_DAYS_BACK : Z.
Variable GA4_LIMIT : option Z.
Variables brk nfkc : str → bool.

Local Abbreviation load := (get_courses_articles_mapping_optimized handle).
Local Abbreviation fetch :=
  (get_ga4_pageviews_optimized handle strftime_Ymd GA4_DAYS_BACK GA4_LIMIT).
Local Abbreviation match_urls :=
  (match_urls_and_aggregate_optimized handle brk nfkc).
Local Abbreviation dispatch := (update_pageviews_batch_optimized handle).
Local Abbreviation sync :=
  (sync_pageviews_optimized handle strftime_Ymd GA4_DAYS_BACK GA4_LIMIT brk nfkc).







(** What the handler of the run makes of an exception. *)
Lemma sync_handler_run self e (st : State World) :
  (now <- call handle Now ;;
   match e with
   | TimeoutError _ => ret (TimedOut e (now - start_time self))
   | _ => ret (Errored e (now - start_time self))
   end) st
  = (Ok (match e with
         | TimeoutError _ =>
             TimedOut e (fst (handle Z Now (world st)) - start_time self)
         | _ => Errored e (fst (handle Z Now (world st)) - start_time self)
         end),
     mkState (snd (handle Z Now (world st)))
             (trace st ++ [Ev Now (fst (handle Z Now (world st)))])).
Proof. rewrite run_call. by destruct e. Qed.


End Outcomes.

(** ** The entry points *)

Section EntryFacts.
Context {World : Type}.
Variable handle : ∀ R, Call R → World → R * World.
Variable strftime_Ymd : Z → str.
Variable GA4_DAYS_BACK : Z.
Variable GA4_LIMIT : option Z.
Variables brk nfkc : str → bool.
Variable TARGET_PROJECT_ID : str.
Variable bigquery_Client : str → M World unit.

Local Abbreviation sync :=
  (sync_pageviews_optimized handle strftime_Ymd GA4_DAYS_BACK GA4_LIMIT brk nfkc).
Local Abbreviation init := (__init__ handle TARGET_PROJECT_ID bigquery_Client).
Local Abbreviation handler :=
  (ga4_sync_handler handle strftime_Ymd GA4_DAYS_BACK GA4_LIMIT brk nfkc
     TARGET_PROJECT_ID bigquery_Client).
Local Abbreviation scheduler :=
  (ga4_sync_scheduler handle strftime_Ymd GA4_DAYS_BACK GA4_LIMIT brk nfkc
     TARGET_PROJECT_ID bigquery_Client).

Lemma sync_returns self st : ∃ r st', sync self st = (Ok r, st').
Proof.
  unfold sync_pageviews_optimized, try_except.
  match goal with
  | |- context [match ?m st with _ => _ end] =>
      destruct (m st) as [[r|e] st1]
  end.
  - by eexists _, _.
  - rewrite sync_handler_run. by eexists _, _.
Qed.

(** Neither entry point raises. Once the service object is built, the
    HTTP handler answers 200 with the result of the run as its body,
    whatever that result is: a run that timed out or failed is answered
    200, with the status [timeout], [error] or [failed] in the body. The
    answers 408 and 500 are given only when building the object raises,
    408 for a [TimeoutError] and 500 for anything else. The scheduler entry
    point returns normally in every case. *)
Theorem entry_points_never_raise st :
  (∃ resp st',
     handler st = (Ok resp, st')
     ∧ match init st with
       | (Ok sync_service, st1) =>
           ∃ r, fst (sync sync_service st1) = Ok r
                ∧ resp = Response200 r ∧ statusCode resp = 200
       | (Raise (TimeoutError site), _) =>
           resp = Response408 (TimeoutError site)
       | (Raise e, _) => resp = Response500 e
       end)
  ∧ ∃ st', scheduler st = (Ok tt, st').
Proof.
  split.
  - unfold ga4_sync_handler, try_except. unfold bind at 1.
    destruct (init st) as [[sync_service|e] st1].
    + unfold bind.
      destruct (sync_returns sync_service st1) as (r & st2 & ->).
      unfold ret. eexists _, _. split; [done|]. by exists r.
    + destruct e; by eexists _, _.
  - unfold ga4_sync_scheduler, try_except. unfold bind at 1.
    destruct (init st) as [[sync_service|e] st1].
    + unfold bind.
      destruct (sync_returns sync_service st1) as (r & st2 & ->).
      by eexists.
    + by eexists.
Qed.

End EntryFacts.

(** ** Runs that the services let down *)

Section Outages.
Context {World : Type}.
Variable handle : ∀ R, Call R → World → R * World.
Variable strftime_Ymd : Z → str.
Variable GA4_DAYS_BACK : Z.
Variable GA4_LIMIT : option Z.
Variables brk nfkc : str → bool.

Local Abbreviation load := (get_courses_articles_mapping_optimized handle).
Local Abbreviation fetch :=
  (get_ga4_pageviews_optimized handle strftime_Ymd GA4_DAYS_BACK GA4_LIMIT).
Local Abbreviation match_urls :=
  (match_urls_and_aggregate_optimized handle brk nfkc).
Local Abbreviation sync :=
  (sync_pageviews_optimized handle strftime_Ymd GA4_DAYS_BACK GA4_LIMIT brk nfkc).

(** When the GA4 client refuses every query, a run that loaded a
    non-empty mapping and reaches the fetch within the time budget ends
    with the result [failed] and the error [No GA4 data], and sends no
    update statement. *)
Theorem ga4_outage_fails_without_writes self st st1 mapping :
  load self st = (Ok mapping, st1) → mapping ≠ ∅ →
  within_budget handle self st1 →
  (∀ q b w, ∃ e, fst (handle _ (SubmitQuery q b) w) = Raise e) →
  ∃ st' evs,
    sync self st = (Ok (Failed (py "No GA4 data")), st')
    ∧ trace st' = trace st ++ evs
    ∧ Forall (λ e, is_update_statement e = false) evs.
Proof.
  intros H1 Hm Hb Hdown.
  destruct (fetch_within handle strftime_Ymd GA4_DAYS_BACK GA4_LIMIT self
              (Some GA4_DAYS_BACK) st1 Hb) as (rows & st2 & H2 & Hrows).
  rewrite (Hrows Hdown) in H2.
  destruct (load_emits handle (λ e, is_update_statement e = false) self)
    with (st := st) as (evs1 & E1 & Hq1); [done..|].
  destruct (fetch_emits handle strftime_Ymd GA4_DAYS_BACK GA4_LIMIT
              (λ e, is_update_statement e = false) self (Some GA4_DAYS_BACK))
    with (st := st1) as (evs2 & E2 & Hq2); [done..|].
  rewrite H1 in E1. rewrite H2 in E2. cbn [snd] in E1, E2.
  exists st2, (evs1 ++ evs2).
  split; [by eapply sync_on_empty_fetch|].
  split; [by rewrite E2, E1, app_assoc|]. by apply Forall_app.
Qed.

(** The [updated_records] of a successful run is the number of updates
    that the reconciler returned, not the number of rows written: when the
    dispatcher starts within the time budget the run ends with [success]
    and that count whatever the warehouse does with the statements. *)
Theorem updated_records_counts_the_updates self st st1 st2 st3 mapping
    ga4_data ups :
  load self st = (Ok mapping, st1) → mapping ≠ ∅ →
  fetch self (Some GA4_DAYS_BACK) st1 = (Ok ga4_data, st2) → ga4_data ≠ [] →
  match_urls self ga4_data mapping st2 = (Ok ups, st3) →
  ups = [] ∨ within_budget handle self st3 →
  ∃ st' execution_time,
    sync self st
    = (Ok (Success (zlen ga4_data) (Z.of_nat (size mapping)) (zlen ups)
                   execution_time), st').
Proof.
  intros H1 Hm H2 Hd H3 Hb.
  unfold sync_pageviews_optimized, try_except, bind at 1. rewrite H1.
  rewrite bool_decide_eq_false_2 by done.
  unfold bind at 1. rewrite H2.
  rewrite bool_decide_eq_false_2 by done.
  unfold bind at 1. rewrite H3. unfold bind at 1.
  assert (∃ st4, (if bool_decide (ups = []) then ret tt
                  else update_pageviews_batch_optimized handle self ups) st3
                 = (Ok tt, st4)) as [st4 ->].
  { case_bool_decide as Hu; [by eexists|].
    destruct Hb as [?|Hb]; [done|].
    destruct (dispatch_within handle self ups st3 Hu Hb) as (st4 & evs & -> & _).
    by eexists. }
  rewrite run_call. unfold ret. by eexists _, _.
Qed.

End Outages.

Lemma ga4_outage_fails_without_writes_witness :
  let st1 := snd (run_load ga4_down state0) in
  run_load ga4_down state0 = (Ok scenario_mapping, st1)
  ∧ scenario_mapping ≠ ∅
  ∧ within_budget (scripted ga4_down) self0 st1
  ∧ (∀ q b w, ∃ e, fst (scripted ga4_down _ (SubmitQuery q b) w) = Raise e)
  ∧ ∃ st' evs,
      run_sync ga4_down state0 = (Ok (Failed (py "No GA4 data")), st')
      ∧ trace st' = trace state0 ++ evs
      ∧ Forall (λ e, is_update_statement e = false) evs.
Proof.
  intros st1.
  assert (H1 : run_load ga4_down state0 = (Ok scenario_mapping, st1))
    by (vm_compute; reflexivity).
  assert (Hm : scenario_mapping ≠ ∅).
  { intros E.
    assert (H : scenario_mapping !! py "acct/column/intro/" = Some scenario_info)
      by (vm_compute; reflexivity).
    rewrite E in H. by rewrite lookup_empty in H. }
  assert (Hb : within_budget (scripted ga4_down) self0 st1)
    by (vm_compute; discriminate).
  assert (Hdown : ∀ q b w,
            ∃ e, fst (scripted ga4_down _ (SubmitQuery q b) w) = Raise e)
    by (intros q b w; by eexists).
  split; [exact H1|]. split; [exact Hm|]. split; [exact Hb|].
  split; [exact Hdown|].
  exact (ga4_outage_fails_without_writes (scripted ga4_down) day 7 None
           never never self0 state0 st1 scenario_mapping H1 Hm Hb Hdown).
Defined.

Lemma updated_records_counts_the_updates_witness :
  let st1 := snd (run_load refusing state0) in
  let st2 := snd (run_fetch refusing st1) in
  let st3 := snd (run_match_urls refusing [scenario_row "www.foresight.jp"]
                    scenario_mapping st2) in
  run_load refusing state0 = (Ok scenario_mapping, st1)
  ∧ scenario_mapping ≠ ∅
  ∧ run_fetch refusing st1 = (Ok [scenario_row "www.foresight.jp"], st2)
  ∧ [scenario_row "www.foresight.jp"] ≠ []
  ∧ run_match_urls refusing [scenario_row "www.foresight.jp"]
      scenario_mapping st2 = (Ok [scenario_update], st3)
  ∧ ([scenario_update] = [] ∨ within_budget (scripted refusing) self0 st3)
  ∧ rows_applied (trace (snd (run_sync refusing state0))) = []
  ∧ ∃ st' execution_time,
      run_sync refusing state0
      = (Ok (Success (zlen [scenario_row "www.foresight.jp"])
                     (Z.of_nat (size scenario_mapping))
                     (zlen [scenario_update]) execution_time), st').
Proof.
  intros st1 st2 st3.
  assert (H1 : run_load refusing state0 = (Ok scenario_mapping, st1))
    by (vm_compute; reflexivity).
  assert (Hm : scenario_mapping ≠ ∅).
  { intros E.
    assert (H : scenario_mapping !! py "acct/column/intro/" = Some scenario_info)
      by (vm_compute; reflexivity).
    rewrite E in H. by rewrite lookup_empty in H. }
  assert (H2 : run_fetch refusing st1
               = (Ok [scenario_row "www.foresight.jp"], st2))
    by (vm_compute; reflexivity).
  assert (H3 : run_match_urls refusing [scenario_row "www.foresight.jp"]
                 scenario_mapping st2 = (Ok [scenario_update], st3))
    by (vm_compute; reflexivity).
  assert (Hd : [scenario_row "www.foresight.jp"] ≠ []) by done.
  assert (Hb : [scenario_update] = []
               ∨ within_budget (scripted refusing) self0 st3)
    by (right; vm_compute; discriminate).
  split; [exact H1|]. split; [exact Hm|]. split; [exact H2|].
  split; [exact Hd|]. split; [exact H3|]. split; [exact Hb|].
  split; [vm_compute; reflexivity|].
  exact (updated_records_counts_the_updates (scripted refusing) day 7 None
           never never self0 state0 st1 st2 st3 _ _ _ H1 Hm H2 Hd H3 Hb).
Defined.

(** ** The URL of a clean row *)

Lemma startswith_refl (s : str) : startswith s s = true.
Proof.
  induction s as [|c s IH]; [done|]. cbn [startswith].
  by rewrite bool_decide_eq_true_2, IH.
Qed.

Lemma contains_refl (sub : str) : contains sub sub = true.
Proof. destruct sub; cbn [contains]; by rewrite startswith_refl. Qed.

Lemma contains_app_l (sub a s : str) :
  contains sub s = true → contains sub (a ++ s) = true.
Proof.
  intros H. induction a as [|c a IH]; [done|].
  cbn [app contains]. by rewrite IH, orb_true_r.
Qed.

Section CanonicalUrl.
Variables brk nfkc : str → bool.

Local Abbreviation normalize := (normalize_ga4_url brk nfkc).

(** The converse: the article of a clean row is found. For a row whose
    course slug and stripped link hold no [?], [#], tab, carriage return or
    line feed, whose slug is not empty and does not begin with a slash, and
    whose stripped link is neither empty nor a lone slash and does not end
    with two slashes, the URL made of the content host and the key of the
    row normalises to that very key. *)
Theorem clean_row_is_matched_by_its_url row :
  let slug := row_course_slug row in
  let link := strip_ws (row_article_link row) in
  (∀ c, c ∈ [9; 13; 10; ch "#"; ch "?"]%N → (c ∉ slug) ∧ (c ∉ link)) →
  slug ≠ [] → startswith slug (py "/") = false →
  link ≠ [] → link ≠ py "/" → endswith link (py "//") = false →
  normalize (py "https://www.foresight.jp/" ++ pattern_of row)
  = Some (pattern_of row).
Proof.
  intros slug link Hclean Hslug Hhead Hl0 Hl1 Hl2.
  assert (∃ t, normalized_link (row_article_link row) = t ++ py "/"
               ∧ t ≠ [] ∧ endswith t (py "/") = false
               ∧ t `sublist_of` link) as (t & Ht & Ht0 & Ht1 & Hsub).
  { unfold normalized_link. fold link.
    destruct (endswith link (py "/")) eqn:El; cbn [negb].
    - apply endswith_one in El as [t El]. exists t.
      split; [done|]. split.
      { intros ->. by rewrite El in Hl1. }
      split.
      + rewrite El in Hl2. unfold endswith in *. rewrite reverse_snoc in Hl2.
        change (reverse (py "//")) with [ch "/"; ch "/"] in Hl2.
        change (reverse (py "/")) with [ch "/"].
        rewrite startswith_cons in Hl2.
        by rewrite bool_decide_eq_true_2 in Hl2.
      + rewrite El. by apply sublist_inserts_r.
    - by exists link. }
  set (s := slug ++ py "/column/" ++ t).
  assert (Hp : pattern_of row = s ++ py "/").
  { unfold pattern_of. fold slug. rewrite Ht. subst s.
    by rewrite <- !app_assoc. }
  rewrite Hp. apply rehosted_normalize.
  - apply Forall_forall. intros c Hc. destruct (Hclean c Hc) as [H1 H2].
    subst s. rewrite !not_elem_of_app. split; [done|]. split.
    + revert Hc. rewrite !elem_of_cons.
      intros [->|[->|[->|[->|[->|Hc]]]]]; try (by apply has_false).
      by apply elem_of_nil in Hc.
    + by eapply notin_sublist.
  - intros c t' E. subst s. destruct slug as [|c0 slug']; [done|].
    injection E as <- _. change (py "/") with [ch "/"] in Hhead.
    rewrite startswith_cons in Hhead. cbn [startswith] in Hhead.
    rewrite andb_true_r in Hhead. apply bool_decide_eq_false in Hhead.
    intros Hin. apply list_elem_of_singleton in Hin. by subst c0.
  - intros t' c E. subst s.
    destruct t as [|x t0 _] using rev_ind; [done|].
    rewrite !app_assoc in E. apply app_inj_tail in E as [_ <-].
    intros Hin. apply list_elem_of_singleton in Hin. subst x.
    apply (eq_true_false_abs _ (endswith_snoc t0 (ch "/"))). exact Ht1.
  - subst s. apply contains_app_l, contains_app, contains_refl.
Qed.

End CanonicalUrl.

Lemma clean_row_is_matched_by_its_url_witness :
  let slug := row_course_slug scenario_mapping_row in
  let link := strip_ws (row_article_link scenario_mapping_row) in
  (∀ c, c ∈ [9; 13; 10; ch "#"; ch "?"]%N → (c ∉ slug) ∧ (c ∉ link))
  ∧ slug ≠ [] ∧ startswith slug (py "/") = false
  ∧ link ≠ [] ∧ link ≠ py "/" ∧ endswith link (py "//") = false
  ∧ normalize_ga4_url never never
      (py "https://www.foresight.jp/" ++ pattern_of scenario_mapping_row)
    = Some (pattern_of scenario_mapping_row).
Proof.
  intros slug link.
  assert (H1 : ∀ c, c ∈ [9; 13; 10; ch "#"; ch "?"]%N →
                    (c ∉ slug) ∧ (c ∉ link)).
  { intros c. rewrite !elem_of_cons.
    intros [->|[->|[->|[->|[->|Hc]]]]];
      try (split; by apply has_false).
    by apply elem_of_nil in Hc. }
  assert (H2 : slug ≠ []) by done.
  assert (H3 : startswith slug (py "/") = false) by reflexivity.
  assert (H4 : link ≠ []) by (vm_compute; discriminate).
  assert (H5 : link ≠ py "/") by (vm_compute; discriminate).
  assert (H6 : endswith link (py "//") = false) by reflexivity.
  split; [exact H1|]. split; [exact H2|]. split; [exact H3|].
  split; [exact H4|]. split; [exact H5|]. split; [exact H6|].
  exact (clean_row_is_matched_by_its_url never never scenario_mapping_row
           H1 H2 H3 H4 H5 H6).
Defined.
